(** * marcelo-trading-server: request signing, dispatch and bulk operations

    A shallow embedding of the exchange client of the JavaScript server
    (signer, dispatcher, operation catalogue, bulk operations, the
    price-movement trigger and the chat commands) and of the same functions
    as its TypeScript sibling [index.ts] writes them: signer, dispatcher,
    bulk operations and trigger.  Then of the rest of both files, the
    chat commands of [index.ts], the HTTP routes, the error middleware and
    the start-up check of the server time, and of the test double of the
    chat bot.

    JavaScript strings are modelled by [string]: every character stands for
    the UTF-16 code unit of the same number, so the model covers the strings
    whose code units are below 256.  JavaScript numbers are IEEE binary64
    values, modelled by [spec_float] at precision 53. *)

From Stdlib Require Import String Ascii List ZArith NArith Lia Bool.
From Stdlib Require Import Permutation Sorted SpecFloat.
Import ListNotations.
Open Scope string_scope.

(** ** JavaScript values *)

#[warnings="-register-all"]
Inductive Value : Type :=
| VUndefined
| VNull
| VBool (b : bool)
| VNum (x : spec_float)
| VStr (s : string)
| VArr (items : list Value)
| VObj (props : list (string * Value)).

(** An ordinary object: its own enumerable string-keyed properties in the
    order in which they were created. *)
Definition Obj := list (string * Value).

(** *** Strings *)

Definition is_digit (c : ascii) : bool :=
  ((48 <=? N_of_ascii c) && (N_of_ascii c <=? 57))%N.

Definition digit_val (c : ascii) : N := (N_of_ascii c - 48)%N.

Fixpoint all_chars (p : ascii -> bool) (s : string) : bool :=
  match s with
  | EmptyString => true
  | String c r => p c && all_chars p r
  end.

Fixpoint decimal_val (acc : N) (s : string) : N :=
  match s with
  | EmptyString => acc
  | String c r => decimal_val (10 * acc + digit_val c)%N r
  end.

(** [Array.prototype.join] on an array of strings. *)
Fixpoint array_join (sep : string) (l : list string) : string :=
  match l with
  | [] => ""
  | [x] => x
  | x :: r => x ++ sep ++ array_join sep r
  end.

(** [String.prototype.split] with a one-character separator. *)
Fixpoint split_on (sep : ascii) (cur : string) (s : string) : list string :=
  match s with
  | EmptyString => [cur]
  | String c r =>
      if Ascii.eqb c sep then cur :: split_on sep "" r
      else split_on sep (cur ++ String c "") r
  end.

Definition string_split (sep : ascii) (s : string) : list string :=
  split_on sep "" s.

(** [String.prototype.toUpperCase] on the letters a to z; a character
    outside them is left as it is, which is enough to tell whether the result
    is one of the words BUY and SELL. *)
Definition upper_char (c : ascii) : ascii :=
  let n := N_of_ascii c in
  if ((97 <=? n) && (n <=? 122))%N then ascii_of_N (n - 32) else c.

Fixpoint toUpperCase (s : string) : string :=
  match s with
  | EmptyString => EmptyString
  | String c r => String (upper_char c) (toUpperCase r)
  end.

(** [Array.prototype.includes] on an array of strings. *)
Definition array_includes (l : list string) (s : string) : bool :=
  existsb (String.eqb s) l.

(** *** Sorting

    [Array.prototype.sort] without a comparator orders the elements by their
    code units.  Whatever algorithm the engine runs, the result on strings is
    the one sorted arrangement; insertion sort computes it. *)

Fixpoint insert_sorted {A} (le : A -> A -> bool) (x : A) (l : list A)
  : list A :=
  match l with
  | [] => [x]
  | y :: r => if le x y then x :: y :: r else y :: insert_sorted le x r
  end.

Definition sort_by {A} (le : A -> A -> bool) (l : list A) : list A :=
  fold_right (insert_sorted le) [] l.

(** The order a boolean test decides. *)
Definition le_of {A} (le : A -> A -> bool) (a b : A) : Prop := le a b = true.

Definition array_sort (l : list string) : list string := sort_by String.leb l.

(** *** Property order

    A key is an array index when it is the canonical decimal form of an
    integer between 0 and 2^32 - 2. *)
Definition is_array_index (k : string) : bool :=
  match k with
  | EmptyString => false
  | String c r =>
      all_chars is_digit k
      && (negb (Ascii.eqb c "0"%char) || String.eqb r "")
      && (String.length k <=? 10)%nat
      && (decimal_val 0 k <=? 4294967294)%N
  end.

Definition index_le (a b : string) : bool :=
  (decimal_val 0 a <=? decimal_val 0 b)%N.

Module Object.

(** [OrdinaryOwnPropertyKeys]: the array indices in ascending numeric order,
    then the other keys in creation order. *)
Definition ownKeys (o : Obj) : list string :=
  let ks := map fst o in
  sort_by index_le (filter is_array_index ks)
    ++ filter (fun k => negb (is_array_index k)) ks.

(** Reading an own property, [undefined] when there is none. *)
Fixpoint get (o : Obj) (k : string) : Value :=
  match o with
  | [] => VUndefined
  | (k', v) :: r => if String.eqb k' k then v else get r k
  end.

(** Defining the property [k] of [o], as an object literal and a spread
    do: an existing property keeps its place, a new one goes last. *)
Fixpoint define (o : Obj) (k : string) (v : Value) : Obj :=
  match o with
  | [] => [(k, v)]
  | (k', v') :: r =>
      if String.eqb k' k then (k', v) :: r else (k', v') :: define r k v
  end.

Fixpoint has (o : Obj) (k : string) : bool :=
  match o with
  | [] => false
  | (k', _) :: r => String.eqb k' k || has r k
  end.

(** The assignment [o[k] = v] on an object that inherits from
    [Object.prototype]: it defines the property, except that the key
    [__proto__], when [o] has no such property of its own, names the accessor
    it inherits, and assigning to that creates no property. *)
Definition set (o : Obj) (k : string) (v : Value) : Obj :=
  if String.eqb k "__proto__" && negb (has o k) then o else define o k v.

(** [delete o[k]]. *)
Definition delete (o : Obj) (k : string) : Obj :=
  filter (fun kv => negb (String.eqb (fst kv) k)) o.

Definition keys (o : Obj) : list string := ownKeys o.

Definition entries (o : Obj) : list (string * Value) :=
  map (fun k => (k, get o k)) (ownKeys o).

(** An object literal [{ k1: v1, ..., kn: vn }] with keys other than
    [__proto__]. *)
Definition literal (props : list (string * Value)) : Obj :=
  fold_left (fun o kv => define o (fst kv) (snd kv)) props [].

(** The spread [{ ...src }] into an object under construction. *)
Definition spread (o src : Obj) : Obj :=
  fold_left (fun acc k => define acc k (get src k)) (ownKeys src) o.

End Object.

(** ** Numbers *)

Definition Number := spec_float.
Definition prec : Z := 53.
Definition emax : Z := 1024.

Definition NaN : Number := S754_nan.

Definition isNaN (x : Number) : bool :=
  match x with
  | S754_nan => true
  | _ => false
  end.

(** [x < y], [x <= y] and [x > y] on numbers: false as soon as one side is
    NaN. *)
Definition num_lt (x y : Number) : bool := SFltb x y.
Definition num_le (x y : Number) : bool := SFleb x y.
Definition num_gt (x y : Number) : bool := SFltb y x.

(** The number of an integer, as [Date.now()] yields it. *)
Definition of_Z (n : Z) : Number := binary_normalize prec emax n 0 false.

(** The binary64 value nearest to [m * 10^e], ties to even. *)
Definition of_decimal (neg : bool) (m : N) (e : Z) : Number :=
  match m with
  | N0 => S754_zero neg
  | Npos p =>
      if (0 <=? e)%Z
      then binary_round prec emax neg (Z.to_pos (Zpos p * 10 ^ e)) 0
      else SFdiv prec emax (S754_finite neg p 0)
             (S754_finite false (Z.to_pos (10 ^ (- e))) 0)
  end.

(** The longest run of decimal digits at the head of a string: its value,
    its length and what follows it. *)
Fixpoint read_digits (acc : N) (cnt : nat) (s : string) : N * nat * string :=
  match s with
  | String c r =>
      if is_digit c then read_digits (10 * acc + digit_val c)%N (S cnt) r
      else (acc, cnt, s)
  | EmptyString => (acc, cnt, s)
  end.

Definition is_white (c : ascii) : bool :=
  let n := N_of_ascii c in
  ((9 <=? n) && (n <=? 13) || (n =? 32) || (n =? 160))%N.

Fixpoint trim_start (s : string) : string :=
  match s with
  | String c r => if is_white c then trim_start r else s
  | EmptyString => s
  end.

Definition read_sign (s : string) : bool * string :=
  match s with
  | String "-" r => (true, r)
  | String "+" r => (false, r)
  | _ => (false, s)
  end.

(** An exponent part counts only when a digit follows its sign: its value
    and what follows it. *)
Definition read_exponent (s : string) : Z * string :=
  match s with
  | String c r =>
      if Ascii.eqb c "e" || Ascii.eqb c "E" then
        let '(neg, r') := read_sign r in
        let '(v, cnt, rest) := read_digits 0 0 r' in
        match cnt with
        | O => (0%Z, s)
        | _ => (if neg then (- Z.of_N v)%Z else Z.of_N v, rest)
        end
      else (0%Z, s)
  | EmptyString => (0%Z, s)
  end.

Fixpoint starts_with (p s : string) : bool :=
  match p, s with
  | EmptyString, _ => true
  | String a p', String b s' => Ascii.eqb a b && starts_with p' s'
  | _, _ => false
  end.

Fixpoint drop (n : nat) (s : string) : string :=
  match n, s with
  | S k, String _ r => drop k r
  | _, _ => s
  end.

(** The longest prefix that is a decimal literal, after the leading white
    space: its value and what follows it; nothing when there is no such
    prefix. *)
Definition read_number (input : string) : option (Number * string) :=
  let '(neg, s) := read_sign (trim_start input) in
  if starts_with "Infinity" s then Some (S754_infinity neg, drop 8 s)
  else
    let '(ip, icnt, r1) := read_digits 0 0 s in
    let '(m, fcnt, r2) :=
      match r1 with
      | String "." r =>
          let '(m, cnt, r') := read_digits ip 0 r in
          match icnt, cnt with
          | O, O => (ip, O, r1)
          | _, _ => (m, cnt, r')
          end
      | _ => (ip, O, r1)
      end in
    match icnt, fcnt with
    | O, O => None
    | _, _ =>
        let '(e, rest) := read_exponent r2 in
        Some (of_decimal neg m (e - Z.of_nat fcnt), rest)
    end.

(** [parseFloat] on a string: the number read at its head, NaN when there
    is none; what follows the number is ignored. *)
Definition parseFloat_string (input : string) : Number :=
  match read_number input with
  | Some (x, _) => x
  | None => NaN
  end.

Fixpoint digits_of (fuel : nat) (n : N) (acc : string) : string :=
  match fuel with
  | O => acc
  | S f =>
      let acc' := String (ascii_of_N (48 + n mod 10)) acc in
      if (n / 10 =? 0)%N then acc' else digits_of f (n / 10)%N acc'
  end.

Definition decimal_string (n : N) : string :=
  digits_of (S (N.to_nat (N.log2 n))) n "".

Fixpoint repeat_char (c : ascii) (n : nat) : string :=
  match n with
  | O => ""
  | S k => String c (repeat_char c k)
  end.

(** The least [n] with [num / den < 10^n]. *)
Fixpoint magnitude_up (fuel : nat) (num den : Z) (n : Z) : Z :=
  match fuel with
  | O => n
  | S f =>
      if (num <? den * 10 ^ n)%Z then n else magnitude_up f num den (n + 1)%Z
  end.

Fixpoint magnitude_down (fuel : nat) (num den : Z) (n : Z) : Z :=
  match fuel with
  | O => n
  | S f =>
      if (num * 10 ^ (1 - n) <? den)%Z
      then magnitude_down f num den (n - 1)%Z
      else n
  end.

Definition magnitude (num den : Z) : Z :=
  if (den <=? num)%Z then magnitude_up 400 num den 1
  else magnitude_down 400 num den 0.

(** The digits [s] and the exponent [n] of the shortest decimal
    [s * 10^(n-k)] that reads back as the positive finite [x = num / den];
    of two candidates with [k] digits the nearer one is taken. *)
Fixpoint shortest (fuel : nat) (x : Number) (num den n : Z) (k : Z) : Z * Z :=
  let '(sn, sd) :=
    if (0 <=? k - n)%Z then (num * 10 ^ (k - n), den)%Z
    else (num, den * 10 ^ (n - k))%Z in
  let lo := (sn / sd)%Z in
  let r := (sn mod sd)%Z in
  let hi := (lo + 1)%Z in
  let reads s := SFeqb (of_decimal false (Z.to_N s) (n - k)) x in
  let pick s := if (s =? 10 ^ k)%Z then (10 ^ (k - 1), n + 1)%Z else (s, n) in
  let lo_first :=
    match (2 * r ?= sd)%Z with
    | Lt => true
    | Gt => false
    | Eq => Z.even lo
    end in
  let '(c1, c2) := if lo_first then (lo, hi) else (hi, lo) in
  if reads c1 then pick c1
  else if reads c2 then pick c2
  else match fuel with
       | O => pick c1
       | S f => shortest f x num den n (k + 1)
       end.

Definition number_digits (m : positive) (e : Z) : Z * Z :=
  let '(num, den) :=
    if (0 <=? e)%Z then (Zpos m * 2 ^ e, 1)%Z else (Zpos m, 2 ^ (- e))%Z in
  shortest 17 (S754_finite false m e) num den (magnitude num den) 1.

Definition format_number (s n : Z) : string :=
  let ds := decimal_string (Z.to_N s) in
  let k := Z.of_nat (String.length ds) in
  if ((k <=? n) && (n <=? 21))%Z then ds ++ repeat_char "0" (Z.to_nat (n - k))
  else if ((0 <? n) && (n <=? 21))%Z then
    substring 0 (Z.to_nat n) ds ++ "."
      ++ substring (Z.to_nat n) (Z.to_nat (k - n)) ds
  else if ((-6 <? n) && (n <=? 0))%Z then
    "0." ++ repeat_char "0" (Z.to_nat (- n)) ++ ds
  else
    let e := (n - 1)%Z in
    let es :=
      (if (e <? 0)%Z then "-" else "+") ++ decimal_string (Z.to_N (Z.abs e)) in
    if (k =? 1)%Z then ds ++ "e" ++ es
    else substring 0 1 ds ++ "." ++ substring 1 (Z.to_nat (k - 1)) ds
           ++ "e" ++ es.

(** [Number::toString] in radix 10. *)
Definition number_toString (x : Number) : string :=
  match x with
  | S754_nan => "NaN"
  | S754_zero _ => "0"
  | S754_infinity s => if s then "-Infinity" else "Infinity"
  | S754_finite s m e =>
      let '(d, n) := number_digits m e in
      (if s then "-" else "") ++ format_number d n
  end.

(** ** Conversions and the global functions the server calls *)

Definition is_nullish (v : Value) : bool :=
  match v with
  | VUndefined | VNull => true
  | _ => false
  end.

Fixpoint ToString (v : Value) : string :=
  match v with
  | VUndefined => "undefined"
  | VNull => "null"
  | VBool b => if b then "true" else "false"
  | VNum x => number_toString x
  | VStr s => s
  | VArr items =>
      array_join ","
        (map (fun e => if is_nullish e then "" else ToString e) items)
  | VObj _ => "[object Object]"
  end.

Definition ToBoolean (v : Value) : bool :=
  match v with
  | VUndefined | VNull => false
  | VBool b => b
  | VNum (S754_zero _) | VNum S754_nan => false
  | VNum _ => true
  | VStr s => negb (String.eqb s "")
  | VArr _ | VObj _ => true
  end.

(** [v !== ""]. *)
Definition not_empty_string (v : Value) : bool :=
  match v with
  | VStr s => negb (String.eqb s "")
  | _ => true
  end.

(** [v === s] for a string [s]. *)
Definition is_string (v : Value) (s : string) : bool :=
  match v with
  | VStr t => String.eqb t s
  | _ => false
  end.

Definition parseFloat (v : Value) : Number := parseFloat_string (ToString v).

Definition hex_digit (upper : bool) (n : N) : ascii :=
  if (n <? 10)%N then ascii_of_N (48 + n)
  else ascii_of_N ((if upper then 55 else 87) + n).

Definition percent (n : N) : string :=
  String "%" (String (hex_digit true (N.shiftr n 4))
               (String (hex_digit true (N.land n 15)) "")).

(** The characters [encodeURIComponent] leaves alone: letters, digits and
    - _ . ! ~ * ' ( ). *)
Definition uri_unreserved (c : ascii) : bool :=
  let n := N_of_ascii c in
  ((65 <=? n) && (n <=? 90) || (97 <=? n) && (n <=? 122)
   || (48 <=? n) && (n <=? 57)
   || (n =? 45) || (n =? 95) || (n =? 46) || (n =? 33) || (n =? 126)
   || (n =? 42) || (n =? 39) || (n =? 40) || (n =? 41))%N.

(** Every other code unit is replaced by the escaped bytes of its UTF-8
    form: one byte below 128, two bytes from 128 to 255. *)
Definition encode_char (c : ascii) : string :=
  let n := N_of_ascii c in
  if uri_unreserved c then String c ""
  else if (n <? 128)%N then percent n
  else percent (N.lor 192 (N.shiftr n 6)) ++ percent (N.lor 128 (N.land n 63)).

Fixpoint encodeURI_string (s : string) : string :=
  match s with
  | EmptyString => ""
  | String c r => encode_char c ++ encodeURI_string r
  end.

Definition encodeURIComponent (v : Value) : string :=
  encodeURI_string (ToString v).

(** [JSON.stringify(v, null, 2)]: the text, or nothing for [undefined]. *)

Definition dquote : ascii := "034"%char.
Definition nl : string := String "010"%char "".

Definition json_escape_char (c : ascii) : string :=
  let n := N_of_ascii c in
  if (n =? 34)%N then String "\" (String dquote "")
  else if (n =? 92)%N then "\\"
  else if (n =? 8)%N then "\b"
  else if (n =? 9)%N then "\t"
  else if (n =? 10)%N then "\n"
  else if (n =? 12)%N then "\f"
  else if (n =? 13)%N then "\r"
  else if (n <? 32)%N then
    "\u00" ++ String (hex_digit false (N.shiftr n 4))
                (String (hex_digit false (N.land n 15)) "")
  else String c "".

Fixpoint json_escape (s : string) : string :=
  match s with
  | EmptyString => ""
  | String c r => json_escape_char c ++ json_escape r
  end.

Definition json_quote (s : string) : string :=
  String dquote (json_escape s) ++ String dquote "".

Definition is_finite (x : Number) : bool :=
  match x with
  | S754_zero _ | S754_finite _ _ _ => true
  | _ => false
  end.

Definition json_block (opening closing indent : string) (parts : list string)
  : string :=
  match parts with
  | [] => opening ++ closing
  | _ =>
      let inner := indent ++ "  " in
      opening ++ nl ++ inner
        ++ array_join ("," ++ nl ++ inner) parts
        ++ nl ++ indent ++ closing
  end.

Fixpoint lookup {A} (l : list (string * A)) (k : string) : option A :=
  match l with
  | [] => None
  | (k', a) :: r => if String.eqb k' k then Some a else lookup r k
  end.

Fixpoint json_property (indent : string) (v : Value) : option string :=
  match v with
  | VUndefined => None
  | VNull => Some "null"
  | VBool b => Some (if b then "true" else "false")
  | VNum x => Some (if is_finite x then number_toString x else "null")
  | VStr s => Some (json_quote s)
  | VArr items =>
      Some (json_block "[" "]" indent
              (map (fun e =>
                      match json_property (indent ++ "  ") e with
                      | Some t => t
                      | None => "null"
                      end) items))
  | VObj props =>
      let texts :=
        map (fun kv => (fst kv, json_property (indent ++ "  ") (snd kv)))
          props in
      Some (json_block "{" "}" indent
              (flat_map (fun k =>
                           match lookup texts k with
                           | Some (Some t) => [json_quote k ++ ": " ++ t]
                           | _ => []
                           end) (Object.ownKeys props)))
  end.

Definition JSON_stringify (v : Value) : Value :=
  match json_property "" v with
  | Some t => VStr t
  | None => VUndefined
  end.

(** ** The keyed hash

    HMAC-SHA256, which both crypto libraries compute; bytes and 32-bit
    words are numbers. *)

Module Crypto.

Local Open Scope N_scope.

Definition word32 (x : N) : N := x mod 4294967296.

Definition add32 (x y : N) : N := word32 (x + y).

Definition rotr (n x : N) : N :=
  N.lor (N.shiftr x n) (word32 (N.shiftl x (32 - n))).

(** The constants of the hash are read off the primes up to 311: a round
    constant is the first 32 bits of the fractional part of the cube root
    of a prime, an initial word that of the square root of one of the first
    eight. *)
Definition is_prime (n : N) : bool :=
  forallb (fun d => negb (n mod N.of_nat d =? 0)) (seq 2 (N.to_nat n - 2)).

Definition primes : list N := filter is_prime (map N.of_nat (seq 2 310)).

(** The integer cube root of [x], found bit by bit from bit [bits - 1]
    down. *)
Fixpoint cube_root (bits : nat) (x r : N) : N :=
  match bits with
  | O => r
  | S b =>
      let c := r + N.shiftl 1 (N.of_nat b) in
      cube_root b x (if c * c * c <=? x then c else r)
  end.

Definition sha_k : list N :=
  Eval vm_compute in
    map (fun p => word32 (cube_root 36 (N.shiftl p 96) 0)) primes.

Definition sha_init : list N :=
  Eval vm_compute in
    map (fun p => word32 (N.sqrt (N.shiftl p 64))) (firstn 8 primes).

Definition small_sigma0 (x : N) : N :=
  N.lxor (N.lxor (rotr 7 x) (rotr 18 x)) (N.shiftr x 3).
Definition small_sigma1 (x : N) : N :=
  N.lxor (N.lxor (rotr 17 x) (rotr 19 x)) (N.shiftr x 10).
Definition big_sigma0 (x : N) : N :=
  N.lxor (N.lxor (rotr 2 x) (rotr 13 x)) (rotr 22 x).
Definition big_sigma1 (x : N) : N :=
  N.lxor (N.lxor (rotr 6 x) (rotr 11 x)) (rotr 25 x).
Definition choose (x y z : N) : N :=
  N.lxor (N.land x y) (N.land (N.lxor x 4294967295) z).
Definition majority (x y z : N) : N :=
  N.lxor (N.lxor (N.land x y) (N.land x z)) (N.land y z).

(** The message schedule, newest word first: [w] holds the words so far in
    reverse order. *)
Fixpoint schedule (n : nat) (w : list N) : list N :=
  match n with
  | O => w
  | S k =>
      let next :=
        add32 (add32 (small_sigma1 (nth 1 w 0)) (nth 6 w 0))
          (add32 (small_sigma0 (nth 14 w 0)) (nth 15 w 0)) in
      schedule k (next :: w)
  end.

Definition round (state : list N) (kw : N * N) : list N :=
  match state with
  | [a; b; c; d; e; f; g; h] =>
      let t1 :=
        add32 (add32 (add32 h (big_sigma1 e)) (choose e f g))
          (add32 (fst kw) (snd kw)) in
      let t2 := add32 (big_sigma0 a) (majority a b c) in
      [add32 t1 t2; a; b; c; add32 d t1; e; f; g]
  | _ => state
  end.

(** One block of sixteen words. *)
Definition compress (state : list N) (block : list N) : list N :=
  let w := rev (schedule 48 (rev block)) in
  map (fun p => add32 (fst p) (snd p))
    (combine state (fold_left round (combine sha_k w) state)).

Fixpoint words_of (fuel : nat) (bytes : list N) : list N :=
  match fuel, bytes with
  | S k, a :: b :: c :: d :: r =>
      (a * 16777216 + b * 65536 + c * 256 + d) :: words_of k r
  | _, _ => []
  end.

Fixpoint blocks_of (fuel : nat) (words : list N) : list (list N) :=
  match fuel, words with
  | S k, _ :: _ => firstn 16 words :: blocks_of k (skipn 16 words)
  | _, _ => []
  end.

Definition bytes_of_word (n : nat) (x : N) : list N :=
  map (fun i => N.land (N.shiftr x (8 * N.of_nat (n - 1 - i))) 255) (seq 0 n).

(** The message, the bit 1, zeros up to 56 modulo 64, and the length in
    bits on eight bytes. *)
Definition padded (bytes : list N) : list N :=
  let len := List.length bytes in
  let zeros := ((119 - len mod 64) mod 64)%nat in
  (bytes ++ [128] ++ repeat 0 zeros
     ++ bytes_of_word 8 (8 * N.of_nat len))%list.

Definition sha256 (bytes : list N) : list N :=
  let p := padded bytes in
  let n := List.length p in
  flat_map (bytes_of_word 4)
    (fold_left compress (blocks_of n (words_of n p)) sha_init).

Definition hmac_sha256 (key message : list N) : list N :=
  let key := if (64 <? List.length key)%nat then sha256 key else key in
  let key := (key ++ repeat 0 (64 - List.length key)%nat)%list in
  sha256 (map (N.lxor 92) key
            ++ sha256 (map (N.lxor 54) key ++ message))%list.

(** The UTF-8 bytes of a string of code units below 256. *)
Definition utf8 (s : string) : list N :=
  flat_map (fun c =>
              let n := N_of_ascii c in
              if n <? 128 then [n]
              else [N.lor 192 (N.shiftr n 6); N.lor 128 (N.land n 63)])
    (list_ascii_of_string s).

(** The digest of [message] under [key], both taken as UTF-8 text. *)
Definition hmac_sha256_text (message key : string) : list Byte.byte :=
  map (fun n => match Byte.of_N n with
                | Some b => b
                | None => Byte.x00
                end)
    (hmac_sha256 (utf8 key) (utf8 message)).

End Crypto.

(** ** Exceptions, promises and the outside world *)

Record Error : Type := mkError {
  error_name : string;
  error_message : string;
  (** the [response.data] an HTTP client error carries, when it has one *)
  error_response : option Value
}.

Definition TypeError (msg : string) : Error := mkError "TypeError" msg None.
Definition ReferenceError (msg : string) : Error :=
  mkError "ReferenceError" msg None.

Inductive Result (A : Type) : Type :=
| Ok (a : A)
| Throw (e : Error).
Arguments Ok {A} a.
Arguments Throw {A} e.

Definition is_ok {A} (r : Result A) : bool :=
  match r with
  | Ok _ => true
  | Throw _ => false
  end.

(** A settled promise: how it settled, and when (a logical time that only
    serves to tell which of several promises settled first). *)
Record Promise (A : Type) : Type := mkPromise {
  settled_at : nat;
  outcome : Result A
}.
Arguments mkPromise {A} _ _.
Arguments settled_at {A} _.
Arguments outcome {A} _.

Definition resolved {A} (a : A) : Promise A := mkPromise 0 (Ok a).

(** The request description handed to the HTTP client. *)
Record Config : Type := mkConfig {
  cfg_method : string;
  cfg_url : string;
  cfg_headers : Obj;
  cfg_params : option Obj;
  cfg_data : option Obj
}.

(** What a run has done so far: how often the clock was read, the requests
    handed to the HTTP client and the chat replies, oldest first. *)
Record World : Type := mkWorld {
  reads : nat;
  sent : list Config;
  replies : list string
}.

(** The process configuration and the two things outside the process: the
    keyed hash of the crypto library, the credentials read from the
    environment at start, the clock behind [Date.now()] (its successive
    readings) and the exchange behind the HTTP client (how the request
    settles, given the requests made before it). *)
Record Env : Type := mkEnv {
  HmacSHA256 : string -> string -> list Byte.byte;
  API_KEY : string;
  SECRET_KEY : string;
  Date_now : nat -> Z;
  axios : list Config -> Config -> Promise Value
}.

(** Synchronous code: it may change the world and may throw. *)
Definition M (A : Type) : Type := World -> Result A * World.

(** A call of an [async] function: the part of its effects that the model
    tracks is done when the call returns its promise. *)
Definition Async (A : Type) : Type := World -> Promise A * World.

Definition ret {A} (a : A) : M A := fun w => (Ok a, w).

Definition throw {A} (e : Error) : M A := fun w => (Throw e, w).

Definition bind {A B} (m : M A) (k : A -> M B) : M B :=
  fun w =>
    match m w with
    | (Ok a, w') => k a w'
    | (Throw e, w') => (Throw e, w')
    end.

Declare Scope js_scope.
Delimit Scope js_scope with js.
Notation "x <- m ;; k" := (bind m (fun x => k))
  (at level 61, m at next level, right associativity) : js_scope.
Open Scope js_scope.

Definition lift {A} (r : Result A) : M A := fun w => (r, w).

Definition try_catch {A} (body : M A) (handler : Error -> M A) : M A :=
  fun w =>
    match body w with
    | (Ok a, w') => (Ok a, w')
    | (Throw e, w') => handler e w'
    end.

(** Calling an async function yields its promise and never throws. *)
Definition call {A} (f : Async A) : M (Promise A) :=
  fun w => let '(p, w') := f w in (Ok p, w').

Definition await {A} (p : Promise A) : M A := lift (outcome p).

(** [Promise.all]: fulfilled with all the values when every promise is
    fulfilled, otherwise rejected with the reason of the promise that was
    rejected first. *)
Fixpoint first_rejected {A} (ps : list (Promise A)) : option (nat * Error) :=
  match ps with
  | [] => None
  | p :: r =>
      match outcome p, first_rejected r with
      | Ok _, later => later
      | Throw e, None => Some (settled_at p, e)
      | Throw e, Some (t, e') =>
          if (settled_at p <=? t)%nat then Some (settled_at p, e)
          else Some (t, e')
      end
  end.

Fixpoint fulfilled {A} (ps : list (Promise A)) : list A :=
  match ps with
  | [] => []
  | p :: r =>
      match outcome p with
      | Ok a => a :: fulfilled r
      | Throw _ => fulfilled r
      end
  end.

Definition Promise_all {A} (ps : list (Promise A)) : Promise (list A) :=
  match first_rejected ps with
  | Some (t, e) => mkPromise t (Throw e)
  | None => mkPromise (fold_right Nat.max 0%nat (map settled_at ps))
              (Ok (fulfilled ps))
  end.

(** [Array.prototype.map] with a callback that has effects. *)
Fixpoint array_map {A B} (f : A -> M B) (l : list A) : M (list B) :=
  match l with
  | [] => ret []
  | x :: r => y <- f x ;; ys <- array_map f r ;; ret (y :: ys)
  end.

(** [Array.prototype.filter] with a callback that may throw. *)
Fixpoint array_filter {A} (f : A -> Result bool) (l : list A)
  : Result (list A) :=
  match l with
  | [] => Ok []
  | x :: r =>
      match f x with
      | Throw e => Throw e
      | Ok b =>
          match array_filter f r with
          | Throw e => Throw e
          | Ok kept => Ok (if b then x :: kept else kept)
          end
      end
  end.

(** [v.k] for a property name [k] that is not an array index. *)
Definition getProp (v : Value) (k : string) : Result Value :=
  match v with
  | VUndefined =>
      Throw (TypeError ("Cannot read properties of undefined (reading '"
                          ++ k ++ "')"))
  | VNull =>
      Throw (TypeError ("Cannot read properties of null (reading '"
                          ++ k ++ "')"))
  | VObj o => Ok (Object.get o k)
  | VArr items =>
      Ok (if String.eqb k "length"
          then VNum (of_Z (Z.of_nat (List.length items)))
          else VUndefined)
  | VStr s =>
      Ok (if String.eqb k "length"
          then VNum (of_Z (Z.of_nat (String.length s)))
          else VUndefined)
  | _ => Ok VUndefined
  end.

(** [v[i]] for an index [i]. *)
Definition getIndex (v : Value) (i : nat) : Result Value :=
  let k := decimal_string (N.of_nat i) in
  match v with
  | VUndefined | VNull => getProp v k
  | VObj o => Ok (Object.get o k)
  | VArr items => Ok (nth i items VUndefined)
  | VStr s =>
      Ok (match String.get i s with
          | Some c => VStr (String c "")
          | None => VUndefined
          end)
  | _ => Ok VUndefined
  end.

(** The receiver of [.filter(...)], written [receiver] in the source: an
    array, or a TypeError.  The error of a value without a [filter] method
    names the expression that was called. *)
Definition filter_receiver (receiver : string) (v : Value)
  : Result (list Value) :=
  match v with
  | VArr items => Ok items
  | VUndefined =>
      Throw (TypeError "Cannot read properties of undefined (reading 'filter')")
  | VNull =>
      Throw (TypeError "Cannot read properties of null (reading 'filter')")
  | _ => Throw (TypeError (receiver ++ ".filter is not a function"))
  end.

(** ** The JavaScript server *)

(** [CryptoJS.enc.Hex.stringify]: two lowercase digits for every byte. *)
Definition Hex_stringify (bytes : list Byte.byte) : string :=
  fold_right
    (fun b acc =>
       let bite := Byte.to_N b in
       String (hex_digit false (N.shiftr bite 4))
         (String (hex_digit false (N.land bite 15)) acc))
    "" bytes.

Definition BASE_URL : string := "https://open-api.bingx.com".

(** A function body made of [return e;] statements runs up to the first
    one; a body that returns nothing resolves to [undefined]. *)
Inductive Stmt (A : Type) : Type :=
| Return (e : A).
Arguments Return {A} e.

Definition run_body (body : list (Stmt (Async Value))) : Async Value :=
  match body with
  | Return e :: _ => e
  | [] => fun w => (resolved VUndefined, w)
  end.

Section Server.

Variable env : Env.

(** The local [orderedParams] of [generateSignature]. *)
Definition orderedParams (params : Obj) : Obj :=
  fold_left
    (fun obj key =>
       if not_empty_string (Object.get params key)
       then Object.set obj key (Object.get params key)
       else obj)
    (array_sort (Object.keys params)) [].

(** The local [queryString] of [generateSignature]. *)
Definition queryString (params : Obj) : string :=
  array_join "&"
    (map (fun kv => fst kv ++ "=" ++ encodeURIComponent (snd kv))
       (Object.entries (orderedParams params))).

Definition generateSignature (params : Obj) (secretKey : string) : string :=
  Hex_stringify (HmacSHA256 env (queryString params) secretKey).

(** [Date.now()]. *)
Definition now (w : World) : Number * World :=
  (of_Z (Date_now env (reads w)),
   mkWorld (S (reads w)) (sent w) (replies w)).

(** [axios(config)], followed by the [try] block of [makeRequest]: the
    response's data is returned, a failure is logged and thrown again. *)
Definition send (config : Config) : Async Value :=
  fun w =>
    (axios env (sent w) config,
     mkWorld (reads w) (sent w ++ [config]) (replies w)).

(** The part of [makeRequest] between the clock reading and the request. *)
Definition request_config (method endpoint : string) (params : Obj)
    (timestamp : Number) : Config :=
  let fullParams :=
    Object.define (Object.spread [] params) "timestamp" (VNum timestamp) in
  let fullParams :=
    if (List.length (Object.keys params) =? 0)%nat && String.eqb method "GET"
    then
      Object.set fullParams "signature"
        (VStr (generateSignature
                 (Object.literal [("timestamp", VNum timestamp)])
                 (SECRET_KEY env)))
    else
      Object.set fullParams "signature"
        (VStr (generateSignature fullParams (SECRET_KEY env))) in
  let url := BASE_URL ++ endpoint in
  let headers := Object.literal [("X-BX-APIKEY", VStr (API_KEY env))] in
  if String.eqb method "GET"
  then mkConfig method url headers (Some fullParams) None
  else mkConfig method url headers None (Some fullParams).

Definition makeRequest (method endpoint : string) (params : Obj)
  : Async Value :=
  fun w =>
    let '(timestamp, w1) := now w in
    send (request_config method endpoint params timestamp) w1.

Definition getAccountBalance : Async Value :=
  makeRequest "GET" "/openApi/swap/v2/user/balance" [].

Definition getOpenPositions : Async Value :=
  run_body
    [ Return (makeRequest "GET" "/openApi/contract/v1/allPosition" []);
      Return (makeRequest "GET" "/openApi/swap/v2/user/positions" []) ].

Definition getPendingOrders : Async Value :=
  run_body
    [ Return (makeRequest "GET" "/openApi/contract/v1/allOrders" []);
      Return (makeRequest "GET" "/openApi/swap/v2/trade/openOrders" []) ].

Definition closePosition (symbol positionSide : Value) : Async Value :=
  makeRequest "POST" "/openApi/swap/v2/trade/closePosition"
    (Object.literal [("symbol", symbol); ("positionSide", positionSide)]).

Definition cancelOrder (symbol orderId : Value) : Async Value :=
  makeRequest "POST" "/openApi/swap/v2/trade/cancelOrder"
    (Object.literal [("symbol", symbol); ("orderId", orderId)]).

(** [symbol === "" || entry.symbol === symbol], the filter of both bulk
    operations. *)
Definition symbol_matches (symbol : string) (entry : Value) : Result bool :=
  if String.eqb symbol "" then Ok true
  else
    match getProp entry "symbol" with
    | Ok s => Ok (is_string s symbol)
    | Throw e => Throw e
    end.

(** The default value of the parameter [symbol = ""]. *)
Definition symbol_or_default (symbol : option string) : string :=
  match symbol with
  | Some s => s
  | None => ""
  end.

Definition closeAllPositions (symbol : option string) : M (list Value) :=
  let symbol := symbol_or_default symbol in
  p <- call getOpenPositions ;;
  positions <- await p ;;
  data <- lift (getProp positions "data") ;;
  items <- lift (filter_receiver "positions.data" data) ;;
  kept <- lift (array_filter (symbol_matches symbol) items) ;;
  closePromises <-
    array_map
      (fun pos =>
         s <- lift (getProp pos "symbol") ;;
         side <- lift (getProp pos "positionSide") ;;
         call (closePosition s side))
      kept ;;
  await (Promise_all closePromises).

Definition cancelAllOrders (symbol : option string) : M (list Value) :=
  let symbol := symbol_or_default symbol in
  p <- call getPendingOrders ;;
  orders <- await p ;;
  data <- lift (getProp orders "data") ;;
  items <- lift (filter_receiver "orders.data" data) ;;
  kept <- lift (array_filter (symbol_matches symbol) items) ;;
  cancelPromises <-
    array_map
      (fun order =>
         s <- lift (getProp order "symbol") ;;
         id <- lift (getProp order "orderId") ;;
         call (cancelOrder s id))
      kept ;;
  await (Promise_all cancelPromises).

Definition setTrailingStop (symbol activationPrice callbackRate : Value)
  : Async Value :=
  makeRequest "POST" "/openApi/swap/v2/trade/order"
    (Object.literal
       [("symbol", symbol); ("type", VStr "TRAILING_STOP_MARKET");
        ("activationPrice", activationPrice);
        ("callbackRate", callbackRate)]).

Definition setStopLoss (symbol stopPrice : Value) : Async Value :=
  makeRequest "POST" "/openApi/swap/v2/trade/order"
    (Object.literal
       [("symbol", symbol); ("type", VStr "STOP_MARKET");
        ("stopPrice", stopPrice)]).

Definition setTakeProfit (symbol stopPrice : Value) : Async Value :=
  makeRequest "POST" "/openApi/swap/v2/trade/order"
    (Object.literal
       [("symbol", symbol); ("type", VStr "TAKE_PROFIT_MARKET");
        ("stopPrice", stopPrice)]).

Definition placeMarketOrder (symbol side quantity : Value) : Async Value :=
  let params :=
    Object.literal
      [("symbol", symbol); ("side", side); ("orderType", VStr "MARKET");
       ("quantity", VNum (parseFloat quantity))] in
  makeRequest "POST" "/openApi/contract/v1/trade/order" params.

Definition placeLimitOrder (symbol side quantity price : Value)
  : Async Value :=
  let params :=
    Object.literal
      [("symbol", symbol); ("side", side); ("type", VStr "LIMIT");
       ("quantity", VNum (parseFloat quantity)); ("price", price)] in
  makeRequest "POST" "/openApi/swap/v2/trade/order" params.

(** The literal [0.01]. *)
Definition fixed_size : Number := Eval vm_compute in parseFloat_string "0.01".

(** The [try] block ends in [return placeMarketOrder(...)] without an
    [await], so the order's own failure is not caught by the [catch]; the
    [catch] block calls [next], which is not defined in this scope. *)
Definition simpleTradingStrategy (symbol : Value) : M Value :=
  result <-
    try_catch
      (p <- call (makeRequest "GET" "/openApi/swap/v2/quote/price"
                    (Object.literal [("symbol", symbol)])) ;;
       tickerData <- await p ;;
       price <- lift (getProp tickerData "price") ;;
       let currentPrice := parseFloat price in
       p <- call (makeRequest "GET" "/openApi/swap/v2/quote/klines"
                    (Object.literal
                       [("symbol", symbol); ("interval", VStr "1m");
                        ("limit", VNum (of_Z 2))])) ;;
       klineData <- await p ;;
       data <- lift (getProp klineData "data") ;;
       candle <- lift (getIndex data 0) ;;
       close <- lift (getIndex candle 4) ;;
       let previousPrice := parseFloat close in
       if num_gt currentPrice previousPrice then
         call (placeMarketOrder symbol (VStr "BUY") (VNum fixed_size))
       else if num_lt currentPrice previousPrice then
         call (placeMarketOrder symbol (VStr "SELL") (VNum fixed_size))
       else ret (resolved VNull))
      (fun error => throw (ReferenceError "next is not defined")) ;;
  await result.

End Server.

(** ** The chat commands of the JavaScript server *)

Module Bot.

Section Commands.

Variable env : Env.

(** [ctx.reply(text)]. *)
Definition reply (text : string) : M unit :=
  fun w => (Ok tt, mkWorld (reads w) (sent w) (replies w ++ [text])).

(** [ctx.message.text.split(" ").slice(1)]. *)
Definition arguments (text : string) : list string :=
  skipn 1 (string_split " " text).

(** An element taken out of the argument array by destructuring, when it
    is there and not the empty string, that is, when it is truthy. *)
Definition truthy (a : option string) : option string :=
  match a with
  | Some s => if ToBoolean (VStr s) then Some s else None
  | None => None
  end.

(** [`${label}\n${JSON.stringify(result, null, 2)}`]. *)
Definition rendered (label : string) (result : Value) : string :=
  label ++ nl ++ ToString (JSON_stringify result).

(** The [try]/[catch] every command ends in. *)
Definition answer (label : string) (operation : M Value) : M unit :=
  try_catch
    (result <- operation ;; reply (rendered label result))
    (fun error => reply ("Error: " ++ error_message error)).

Definition run (f : Async Value) : M Value := p <- call f ;; await p.

Definition help_commands : list (string * string) :=
  [ ("/balance", "Get account balance");
    ("/positions", "Get open positions");
    ("/orders", "Get pending orders");
    ("/close <symbol> <LONG|SHORT>", "Close a specific position");
    ("/cancel <symbol> <orderId>", "Cancel a specific order");
    ("/closeall [symbol]",
     "Close all positions (optionally for a specific symbol)");
    ("/cancelall [symbol]",
     "Cancel all orders (optionally for a specific symbol)");
    ("/trailingstop <symbol> <activationPrice> <callbackRate>",
     "Set a trailing stop");
    ("/sl <symbol> <stopPrice>", "Set a stop loss");
    ("/tp <symbol> <stopPrice>", "Set a take profit");
    ("/market <symbol> <BUY|SELL> <quantity>", "Place a market order");
    ("/limit <symbol> <BUY|SELL> <quantity> <price>", "Place a limit order");
    ("/help", "Show this help message") ].

Definition help (text : string) : M unit :=
  let helpMessage :=
    fold_left
      (fun msg cmd => msg ++ fst cmd ++ " - " ++ snd cmd ++ nl)
      help_commands ("Available Commands:" ++ nl ++ nl) in
  reply (helpMessage ++ nl
           ++ "For more detailed information on each command, use it without parameters.").

Definition zero : Number := S754_zero false.

Definition market (text : string) : M unit :=
  let args := arguments text in
  match truthy (nth_error args 0), truthy (nth_error args 1),
        truthy (nth_error args 2) with
  | Some symbol, Some side, Some quantity =>
      if negb (array_includes ["BUY"; "SELL"] (toUpperCase side))
      then reply "Side must be either BUY or SELL"
      else
        let parsedQuantity := parseFloat (VStr quantity) in
        if isNaN parsedQuantity || num_le parsedQuantity zero
        then reply "Quantity must be a positive number"
        else
          answer "Market order placed:"
            (run (placeMarketOrder env (VStr symbol)
                    (VStr (toUpperCase side)) (VNum parsedQuantity)))
  | _, _, _ => reply "Usage: /market <symbol> <BUY|SELL> <quantity>"
  end.

Definition limit (text : string) : M unit :=
  let args := arguments text in
  match truthy (nth_error args 0), truthy (nth_error args 1),
        truthy (nth_error args 2), truthy (nth_error args 3) with
  | Some symbol, Some side, Some quantity, Some price =>
      if negb (array_includes ["BUY"; "SELL"] (toUpperCase side))
      then reply "Side must be either BUY or SELL"
      else
        let parsedQuantity := parseFloat (VStr quantity) in
        if isNaN parsedQuantity || num_le parsedQuantity zero
        then reply "Quantity must be a positive number"
        else
          answer "Limit order placed:"
            (run (placeLimitOrder env (VStr symbol)
                    (VStr (toUpperCase side)) (VNum parsedQuantity)
                    (VStr price)))
  | _, _, _, _ =>
      reply "Usage: /limit <symbol> <BUY|SELL> <quantity> <price>"
  end.

Definition balance (text : string) : M unit :=
  answer "Account Balance:" (run (getAccountBalance env)).

Definition positions (text : string) : M unit :=
  answer "Open Positions:" (run (getOpenPositions env)).

Definition orders (text : string) : M unit :=
  answer "Pending Orders:" (run (getPendingOrders env)).

Definition close (text : string) : M unit :=
  let args := arguments text in
  match truthy (nth_error args 0), truthy (nth_error args 1) with
  | Some symbol, Some positionSide =>
      answer "Position closed:"
        (run (closePosition env (VStr symbol) (VStr positionSide)))
  | _, _ => reply "Usage: /close <symbol> <LONG|SHORT>"
  end.

Definition cancel (text : string) : M unit :=
  let args := arguments text in
  match truthy (nth_error args 0), truthy (nth_error args 1) with
  | Some symbol, Some orderId =>
      answer "Order canceled:"
        (run (cancelOrder env (VStr symbol) (VStr orderId)))
  | _, _ => reply "Usage: /cancel <symbol> <orderId>"
  end.

Definition closeall (text : string) : M unit :=
  let args := arguments text in
  answer "All positions closed:"
    (results <- closeAllPositions env (nth_error args 0) ;;
     ret (VArr results)).

Definition cancelall (text : string) : M unit :=
  let args := arguments text in
  answer "All orders canceled:"
    (results <- cancelAllOrders env (nth_error args 0) ;;
     ret (VArr results)).

Definition trailingstop (text : string) : M unit :=
  let args := arguments text in
  match truthy (nth_error args 0), truthy (nth_error args 1),
        truthy (nth_error args 2) with
  | Some symbol, Some activationPrice, Some callbackRate =>
      answer "Trailing stop set:"
        (run (setTrailingStop env (VStr symbol) (VStr activationPrice)
                (VStr callbackRate)))
  | _, _, _ =>
      reply "Usage: /trailingstop <symbol> <activationPrice> <callbackRate>"
  end.

Definition sl (text : string) : M unit :=
  let args := arguments text in
  match truthy (nth_error args 0), truthy (nth_error args 1) with
  | Some symbol, Some stopPrice =>
      answer "Stop loss set:"
        (run (setStopLoss env (VStr symbol) (VStr stopPrice)))
  | _, _ => reply "Usage: /sl <symbol> <stopPrice>"
  end.

Definition tp (text : string) : M unit :=
  let args := arguments text in
  match truthy (nth_error args 0), truthy (nth_error args 1) with
  | Some symbol, Some stopPrice =>
      answer "Take profit set:"
        (run (setTakeProfit env (VStr symbol) (VStr stopPrice)))
  | _, _ => reply "Usage: /tp <symbol> <stopPrice>"
  end.

(** The handlers as [bot.command] registers them. *)
Definition bot_commands : list (string * (string -> M unit)) :=
  [ ("yosiet", help); ("help", help); ("market", market); ("limit", limit);
    ("balance", balance); ("positions", positions); ("orders", orders);
    ("close", close); ("cancel", cancel); ("closeall", closeall);
    ("cancelall", cancelall); ("trailingstop", trailingstop);
    ("sl", sl); ("tp", tp) ].

End Commands.

End Bot.

(** ** The server of [index.ts]

    The TypeScript file has its own versions of the signer and of the
    dispatcher, and the operations built on them. *)

Module IndexTs.

Section Server.

Variable env : Env.

Definition orderedParams (params : Obj) : Obj :=
  fold_left (fun obj key => Object.set obj key (Object.get params key))
    (array_sort (Object.keys params)) [].

Definition queryString (params : Obj) : string :=
  array_join "&"
    (map (fun kv => fst kv ++ "=" ++ ToString (snd kv))
       (Object.entries (orderedParams params))).

(** [crypto.createHmac('sha256', secretKey).update(queryString)
    .digest('hex')]. *)
Definition generateSignature (params : Obj) (secretKey : string) : string :=
  Hex_stringify (HmacSHA256 env (queryString params) secretKey).

Definition request_config (method endpoint : string) (params : Obj)
    (timestamp : Number) : Config :=
  let fullParams :=
    Object.define
      (Object.define (Object.spread [] params) "timestamp" (VNum timestamp))
      "apiKey" (VStr (API_KEY env)) in
  let signature := generateSignature fullParams (SECRET_KEY env) in
  let fullParams := Object.set fullParams "signature" (VStr signature) in
  let url := BASE_URL ++ endpoint in
  mkConfig method url [] (Some fullParams) None.

(** The [catch] block logs [error.response.data], which is itself a
    TypeError when the error carries no response. *)
Definition rethrown (p : Promise Value) : Promise Value :=
  match outcome p with
  | Ok _ => p
  | Throw e =>
      match error_response e with
      | Some _ => p
      | None =>
          mkPromise (settled_at p)
            (Throw (TypeError
                      "Cannot read properties of undefined (reading 'data')"))
      end
  end.

Definition makeRequest (method endpoint : string) (params : Obj)
  : Async Value :=
  fun w =>
    let '(timestamp, w1) := now env w in
    let config := request_config method endpoint params timestamp in
    let '(p, w2) := send env config w1 in
    (rethrown p, w2).

Definition getAccountBalance : Async Value :=
  makeRequest "GET" "/openApi/swap/v2/user/balance" [].

Definition getOpenPositions : Async Value :=
  makeRequest "GET" "/openApi/swap/v2/user/positions" [].

Definition getPendingOrders : Async Value :=
  makeRequest "GET" "/openApi/swap/v2/trade/openOrders" [].

Definition closePosition (symbol positionSide : Value) : Async Value :=
  makeRequest "POST" "/openApi/swap/v2/trade/closePosition"
    (Object.literal [("symbol", symbol); ("positionSide", positionSide)]).

Definition cancelOrder (symbol orderId : Value) : Async Value :=
  makeRequest "POST" "/openApi/swap/v2/trade/cancelOrder"
    (Object.literal [("symbol", symbol); ("orderId", orderId)]).

Definition closeAllPositions (symbol : option string) : M (list Value) :=
  let symbol := symbol_or_default symbol in
  p <- call getOpenPositions ;;
  positions <- await p ;;
  data <- lift (getProp positions "data") ;;
  items <- lift (filter_receiver "positions.data" data) ;;
  kept <- lift (array_filter (symbol_matches symbol) items) ;;
  closePromises <-
    array_map
      (fun pos =>
         s <- lift (getProp pos "symbol") ;;
         side <- lift (getProp pos "positionSide") ;;
         call (closePosition s side))
      kept ;;
  await (Promise_all closePromises).

Definition cancelAllOrders (symbol : option string) : M (list Value) :=
  let symbol := symbol_or_default symbol in
  p <- call getPendingOrders ;;
  orders <- await p ;;
  data <- lift (getProp orders "data") ;;
  items <- lift (filter_receiver "orders.data" data) ;;
  kept <- lift (array_filter (symbol_matches symbol) items) ;;
  cancelPromises <-
    array_map
      (fun order =>
         s <- lift (getProp order "symbol") ;;
         id <- lift (getProp order "orderId") ;;
         call (cancelOrder s id))
      kept ;;
  await (Promise_all cancelPromises).

Definition placeMarketOrder (symbol side quantity : Value) : Async Value :=
  let params :=
    Object.literal
      [("symbol", symbol); ("side", side); ("type", VStr "MARKET");
       ("quantity", quantity)] in
  makeRequest "POST" "/openApi/swap/v2/trade/order" params.

(** The [catch] block throws the error it caught. *)
Definition simpleTradingStrategy (symbol : Value) : M Value :=
  result <-
    try_catch
      (p <- call (makeRequest "GET" "/openApi/swap/v2/quote/price"
                    (Object.literal [("symbol", symbol)])) ;;
       tickerData <- await p ;;
       price <- lift (getProp tickerData "price") ;;
       let currentPrice := parseFloat price in
       p <- call (makeRequest "GET" "/openApi/swap/v2/quote/klines"
                    (Object.literal
                       [("symbol", symbol); ("interval", VStr "1m");
                        ("limit", VNum (of_Z 2))])) ;;
       klineData <- await p ;;
       data <- lift (getProp klineData "data") ;;
       candle <- lift (getIndex data 0) ;;
       close <- lift (getIndex candle 4) ;;
       let previousPrice := parseFloat close in
       if num_gt currentPrice previousPrice then
         call (placeMarketOrder symbol (VStr "BUY") (VNum fixed_size))
       else if num_lt currentPrice previousPrice then
         call (placeMarketOrder symbol (VStr "SELL") (VNum fixed_size))
       else ret (resolved VNull))
      (fun error => throw error) ;;
  await result.

End Server.

End IndexTs.

(** ** The rest of both servers

    The operations and chat commands of [index.ts] that the part above
    leaves out, the HTTP routes and the error middleware of both files, the
    start-up check of the server time, and the test double of the chat
    bot. *)

(** *** [ToNumber] *)

Fixpoint string_rev_onto (s acc : string) : string :=
  match s with
  | EmptyString => acc
  | String c r => string_rev_onto r (String c acc)
  end.

Definition string_rev (s : string) : string := string_rev_onto s "".

(** [String.prototype.trim]. *)
Definition trim (s : string) : string :=
  string_rev (trim_start (string_rev (trim_start s))).

(** The value of a digit in a radix up to 16, when it is one. *)
Definition radix_digit (radix : N) (c : ascii) : option N :=
  let n := N_of_ascii c in
  let d :=
    if is_digit c then Some (n - 48)%N
    else if ((97 <=? n) && (n <=? 102))%N then Some (n - 87)%N
    else if ((65 <=? n) && (n <=? 70))%N then Some (n - 55)%N
    else None in
  match d with
  | Some v => if (v <? radix)%N then Some v else None
  | None => None
  end.

Fixpoint read_radix (radix acc : N) (s : string) : option N :=
  match s with
  | EmptyString => Some acc
  | String c r =>
      match radix_digit radix c with
      | Some d => read_radix radix (radix * acc + d)%N r
      | None => None
      end
  end.

(** The prefix [0x], [0o] or [0b] of a literal in another radix: the radix
    and the digits that follow. *)
Definition radix_prefix (s : string) : option (N * string) :=
  match s with
  | String "0" (String c r) =>
      if Ascii.eqb c "x" || Ascii.eqb c "X" then Some (16%N, r)
      else if Ascii.eqb c "o" || Ascii.eqb c "O" then Some (8%N, r)
      else if Ascii.eqb c "b" || Ascii.eqb c "B" then Some (2%N, r)
      else None
  | _ => None
  end.

(** [ToNumber] on a string: the whole of the trimmed text has to be a
    numeric literal; the empty text is 0. *)
Definition StringToNumber (s : string) : Number :=
  let t := trim s in
  if String.eqb t "" then S754_zero false
  else
    match radix_prefix t with
    | Some (radix, digits) =>
        match digits, read_radix radix 0 digits with
        | String _ _, Some n => of_Z (Z.of_N n)
        | _, _ => NaN
        end
    | None =>
        match read_number t with
        | Some (x, EmptyString) => x
        | _ => NaN
        end
    end.

Definition ToNumber (v : Value) : Number :=
  match v with
  | VUndefined => NaN
  | VNull => S754_zero false
  | VBool b => if b then of_Z 1 else S754_zero false
  | VNum x => x
  | VStr s => StringToNumber s
  | VArr _ | VObj _ => StringToNumber (ToString v)
  end.

(** [x * y], [x - y] and [Math.abs(x)] on numbers. *)
Definition num_mul (x y : Number) : Number := SFmul prec emax x y.
Definition num_sub (x y : Number) : Number := SFsub prec emax x y.
Definition Math_abs (x : Number) : Number := SFabs x.

(** [a || b]. *)
Definition or_else (a b : Value) : Value := if ToBoolean a then a else b.

(** *** The process beside the exchange client *)

(** A response as a handler asks for it: the argument of [res.status],
    when the handler calls it, and the argument of [res.json]. *)
Record Response : Type := mkResponse {
  res_status : option Value;
  res_body : Value
}.

(** What the process has done: the world of the exchange client, the
    responses written, the errors handed to [next] and the lines written
    with [console.warn], oldest first.  The lines of [console.log] and of
    [console.error] and the entries of the logger are not kept. *)
Record Process : Type := mkProcess {
  world : World;
  responses : list Response;
  forwarded : list Error;
  warnings : list string
}.

Definition P (A : Type) : Type := Process -> Result A * Process.

(** Code of the exchange client, run inside the process. *)
Definition in_world {A} (m : M A) : P A :=
  fun p =>
    let '(r, w) := m (world p) in
    (r, mkProcess w (responses p) (forwarded p) (warnings p)).

(** [res.json(body)]. *)
Definition res_json (body : Value) : P unit :=
  fun p =>
    (Ok tt,
     mkProcess (world p) (responses p ++ [mkResponse None body])
       (forwarded p) (warnings p)).

(** [res.status(code).json(body)]. *)
Definition res_status_json (code body : Value) : P unit :=
  fun p =>
    (Ok tt,
     mkProcess (world p) (responses p ++ [mkResponse (Some code) body])
       (forwarded p) (warnings p)).

(** [next(error)], where [next] is the handler's third parameter. *)
Definition next (error : Error) : P unit :=
  fun p =>
    (Ok tt,
     mkProcess (world p) (responses p) (forwarded p ++ [error])
       (warnings p)).

(** [console.warn(text)]. *)
Definition console_warn (text : string) : P unit :=
  fun p =>
    (Ok tt,
     mkProcess (world p) (responses p) (forwarded p) (warnings p ++ [text])).

(** *** The error middleware

    The same function in both files.  [NODE_ENV] is
    [process.env.NODE_ENV]: a string, or [undefined] when the variable is
    not set. *)

Section Middleware.

Variable NODE_ENV : Value.

Definition errorMiddleware (err : Value) : P unit :=
  fun p =>
    match getProp err "message", getProp err "stack",
          getProp err "statusCode" with
    | Ok err_message, Ok err_stack, Ok err_statusCode =>
        let statusCode := or_else err_statusCode (VNum (of_Z 500)) in
        let message := or_else err_message (VStr "Internal Server Error") in
        res_status_json statusCode
          (VObj
             (Object.spread
                (Object.literal
                   [("status", VStr "error"); ("statusCode", statusCode);
                    ("message", message)])
                (if is_string NODE_ENV "development"
                 then Object.literal [("stack", err_stack)]
                 else [])))
          p
    | Throw e, _, _ | _, Throw e, _ | _, _, Throw e => (Throw e, p)
    end.

End Middleware.

(** *** The routes and the start-up check of the JavaScript server *)

Module Routes.

Section Handlers.

Variable env : Env.

(** The [try]/[catch] every route is made of.  The handlers take [req] and
    [res] only, so the [next] of the [catch] block is not defined: the
    block throws, and the handler's promise is rejected. *)
Definition respond (operation : M Value) : P unit :=
  fun p =>
    match in_world operation p with
    | (Ok result, p') => res_json result p'
    | (Throw error, p') => (Throw (ReferenceError "next is not defined"), p')
    end.

(** [app.get('/balance', ...)]. *)
Definition get_balance : P unit :=
  respond (Bot.run (getAccountBalance env)).

(** [app.post('/trade/:symbol', ...)]. *)
Definition post_trade (symbol : string) : P unit :=
  respond (simpleTradingStrategy env (VStr symbol)).

(** [app.get('/positions', ...)]. *)
Definition get_positions : P unit :=
  respond (Bot.run (makeRequest env "GET" "/openApi/swap/v2/user/positions"
                      [])).

(** [app.get('/price/:symbol', ...)]. *)
Definition get_price (symbol : string) : P unit :=
  respond (Bot.run (makeRequest env "GET" "/openApi/swap/v2/quote/price"
                      (Object.literal [("symbol", VStr symbol)]))).

(** [Date.now()] as an expression. *)
Definition Date_now_call : M Number :=
  fun w => let '(t, w') := now env w in (Ok t, w').

Definition time_warning : string :=
  "Warning: Local time is more than 1 second off from server time".

(** The [catch] block logs the failure and returns. *)
Definition checkServerTime : P unit :=
  fun p =>
    match
      in_world
        (response <-
           Bot.run (makeRequest env "GET" "/openApi/swap/v2/time" []) ;;
         data <- lift (getProp response "data") ;;
         serverTime <- lift (getProp data "serverTime") ;;
         localTime <- Date_now_call ;;
         ret (Math_abs
                (num_sub (num_mul (ToNumber serverTime) (of_Z 1))
                   (num_mul localTime (of_Z 1)))))
        p
    with
    | (Ok timeDiff, p') =>
        if num_gt timeDiff (of_Z 1000) then console_warn time_warning p'
        else (Ok tt, p')
    | (Throw error, p') => (Ok tt, p')
    end.

End Handlers.

End Routes.

(** *** The operations, chat commands and routes of [index.ts] *)

Module IndexTsApp.

Section App.

Variable env : Env.

Definition setTrailingStop (symbol activationPrice callbackRate : Value)
  : Async Value :=
  IndexTs.makeRequest env "POST" "/openApi/swap/v2/trade/order"
    (Object.literal
       [("symbol", symbol); ("type", VStr "TRAILING_STOP_MARKET");
        ("activationPrice", activationPrice);
        ("callbackRate", callbackRate)]).

Definition setStopLoss (symbol stopPrice : Value) : Async Value :=
  IndexTs.makeRequest env "POST" "/openApi/swap/v2/trade/order"
    (Object.literal
       [("symbol", symbol); ("type", VStr "STOP_MARKET");
        ("stopPrice", stopPrice)]).

Definition setTakeProfit (symbol stopPrice : Value) : Async Value :=
  IndexTs.makeRequest env "POST" "/openApi/swap/v2/trade/order"
    (Object.literal
       [("symbol", symbol); ("type", VStr "TAKE_PROFIT_MARKET");
        ("stopPrice", stopPrice)]).

Definition balance (text : string) : M unit :=
  Bot.answer "Account Balance:" (Bot.run (IndexTs.getAccountBalance env)).

Definition positions (text : string) : M unit :=
  Bot.answer "Open Positions:" (Bot.run (IndexTs.getOpenPositions env)).

Definition orders (text : string) : M unit :=
  Bot.answer "Pending Orders:" (Bot.run (IndexTs.getPendingOrders env)).

Definition close (text : string) : M unit :=
  let args := Bot.arguments text in
  match Bot.truthy (nth_error args 0), Bot.truthy (nth_error args 1) with
  | Some symbol, Some positionSide =>
      Bot.answer "Position closed:"
        (Bot.run (IndexTs.closePosition env (VStr symbol)
                    (VStr positionSide)))
  | _, _ => Bot.reply "Usage: /close <symbol> <LONG|SHORT>"
  end.

Definition cancel (text : string) : M unit :=
  let args := Bot.arguments text in
  match Bot.truthy (nth_error args 0), Bot.truthy (nth_error args 1) with
  | Some symbol, Some orderId =>
      Bot.answer "Order canceled:"
        (Bot.run (IndexTs.cancelOrder env (VStr symbol) (VStr orderId)))
  | _, _ => Bot.reply "Usage: /cancel <symbol> <orderId>"
  end.

Definition closeall (text : string) : M unit :=
  let args := Bot.arguments text in
  Bot.answer "All positions closed:"
    (results <- IndexTs.closeAllPositions env (nth_error args 0) ;;
     ret (VArr results)).

Definition cancelall (text : string) : M unit :=
  let args := Bot.arguments text in
  Bot.answer "All orders canceled:"
    (results <- IndexTs.cancelAllOrders env (nth_error args 0) ;;
     ret (VArr results)).

Definition trailingstop (text : string) : M unit :=
  let args := Bot.arguments text in
  match Bot.truthy (nth_error args 0), Bot.truthy (nth_error args 1),
        Bot.truthy (nth_error args 2) with
  | Some symbol, Some activationPrice, Some callbackRate =>
      Bot.answer "Trailing stop set:"
        (Bot.run (setTrailingStop (VStr symbol) (VStr activationPrice)
                    (VStr callbackRate)))
  | _, _, _ =>
      Bot.reply
        "Usage: /trailingstop <symbol> <activationPrice> <callbackRate>"
  end.

Definition sl (text : string) : M unit :=
  let args := Bot.arguments text in
  match Bot.truthy (nth_error args 0), Bot.truthy (nth_error args 1) with
  | Some symbol, Some stopPrice =>
      Bot.answer "Stop loss set:"
        (Bot.run (setStopLoss (VStr symbol) (VStr stopPrice)))
  | _, _ => Bot.reply "Usage: /sl <symbol> <stopPrice>"
  end.

Definition tp (text : string) : M unit :=
  let args := Bot.arguments text in
  match Bot.truthy (nth_error args 0), Bot.truthy (nth_error args 1) with
  | Some symbol, Some stopPrice =>
      Bot.answer "Take profit set:"
        (Bot.run (setTakeProfit (VStr symbol) (VStr stopPrice)))
  | _, _ => Bot.reply "Usage: /tp <symbol> <stopPrice>"
  end.

(** The handlers as [bot.command] registers them. *)
Definition bot_commands : list (string * (string -> M unit)) :=
  [ ("balance", balance); ("positions", positions); ("orders", orders);
    ("close", close); ("cancel", cancel); ("closeall", closeall);
    ("cancelall", cancelall); ("trailingstop", trailingstop);
    ("sl", sl); ("tp", tp) ].

(** The [try]/[catch] every route is made of; here [next] is the
    handler's third parameter. *)
Definition respond (operation : M Value) : P unit :=
  fun p =>
    match in_world operation p with
    | (Ok result, p') => res_json result p'
    | (Throw error, p') => next error p'
    end.

Definition get_balance : P unit :=
  respond (Bot.run (IndexTs.getAccountBalance env)).

Definition post_trade (symbol : string) : P unit :=
  respond (IndexTs.simpleTradingStrategy env (VStr symbol)).

Definition get_positions : P unit :=
  respond (Bot.run (IndexTs.makeRequest env "GET"
                      "/openApi/swap/v2/user/positions" [])).

Definition get_price (symbol : string) : P unit :=
  respond (Bot.run (IndexTs.makeRequest env "GET"
                      "/openApi/swap/v2/quote/price"
                      (Object.literal [("symbol", VStr symbol)]))).

End App.

End IndexTsApp.

(** *** The test double of the chat bot

    [telegram-bot-mock.js]: an object with one field, the array
    [messages]. *)

Module TelegramBotMock.

Record t : Type := mk { messages : list Value }.

Definition constructor : t := mk [].

(** [this.messages.push({ command, data })]. *)
Definition handleCommand (command data : Value) (this : t) : t :=
  mk (messages this
        ++ [VObj (Object.literal [("command", command); ("data", data)])]).

(** [return this.messages.pop()]: the last element, which leaves the
    array, or [undefined] when the array is empty. *)
Definition getMockedResponse (this : t) : Value * t :=
  match rev (messages this) with
  | [] => (VUndefined, this)
  | latest :: earlier => (latest, mk (rev earlier))
  end.

Definition clearMessages (this : t) : t := mk [].

End TelegramBotMock.

(** ** Vocabulary of the statements *)

(** The canonical string in the words of the specification: the keys in
    ascending ordinal order, the entries whose value is the empty string left
    out, every entry as [key=value] with the value percent-encoded, the
    entries joined by [&]. *)
Definition canonical_string (params : Obj) : string :=
  array_join "&"
    (map (fun key => key ++ "=" ++ encodeURIComponent (Object.get params key))
       (filter (fun key => not_empty_string (Object.get params key))
          (array_sort (map fst params)))).

(** A key the property order leaves where the sort has put it: neither an
    array index nor [__proto__]. *)
Definition plain_key (k : string) : bool :=
  negb (is_array_index k) && negb (String.eqb k "__proto__").

(** A well-formed object has every key once. *)
Definition well_formed (o : Obj) : Prop := NoDup (map fst o).

Definition lower_hex (c : ascii) : bool :=
  let n := N_of_ascii c in
  ((48 <=? n) && (n <=? 57) || (97 <=? n) && (n <=? 102))%N.

(** The parameter set a request carries: the query of a GET, the body of
    any other request. *)
Definition transmitted (c : Config) : Obj :=
  match cfg_params c, cfg_data c with
  | Some o, _ => o
  | None, Some o => o
  | None, None => []
  end.

Definition with_secret (env : Env) (secret : string) : Env :=
  mkEnv (HmacSHA256 env) (API_KEY env) secret (Date_now env) (axios env).

Definition with_api_key (env : Env) (key : string) : Env :=
  mkEnv (HmacSHA256 env) key (SECRET_KEY env) (Date_now env) (axios env).

Definition is_object (v : Value) : bool :=
  match v with
  | VObj _ => true
  | _ => false
  end.

Definition field (v : Value) (k : string) : Value :=
  match v with
  | VObj o => Object.get o k
  | _ => VUndefined
  end.

(** The entries a bulk operation called with [symbol] acts on. *)
Definition wanted (symbol : option string) (entry : Value) : bool :=
  String.eqb (symbol_or_default symbol) ""
  || is_string (field entry "symbol") (symbol_or_default symbol).

(** The whole of the text is a decimal literal. *)
Definition numeric_text (s : string) : bool :=
  match read_number s with
  | Some (_, rest) => String.eqb rest ""
  | None => false
  end.

(** What the commands check before they call the exchange: the leading
    arguments they require, and for the two order commands the side and the
    quantity. *)
Definition required_arguments (name : string) : nat :=
  if String.eqb name "market" then 3
  else if String.eqb name "limit" then 4
  else if String.eqb name "trailingstop" then 3
  else if String.eqb name "close" || String.eqb name "cancel"
          || String.eqb name "sl" || String.eqb name "tp" then 2
  else 0.

Definition places_order (name : string) : bool :=
  String.eqb name "market" || String.eqb name "limit".

Definition present (a : option string) : bool :=
  match Bot.truthy a with
  | Some _ => true
  | None => false
  end.

Definition valid_side (side : string) : bool :=
  array_includes ["BUY"; "SELL"] (toUpperCase side).

Definition valid_quantity (quantity : string) : bool :=
  let parsed := parseFloat (VStr quantity) in
  negb (isNaN parsed) && negb (num_le parsed Bot.zero).

Definition passes_validation (name text : string) : bool :=
  let args := Bot.arguments text in
  forallb (fun i => present (nth_error args i))
    (seq 0 (required_arguments name))
  && (negb (places_order name)
      || valid_side (nth 1 args "") && valid_quantity (nth 2 args "")).

Definition validation_replies : list string :=
  [ "Usage: /market <symbol> <BUY|SELL> <quantity>";
    "Usage: /limit <symbol> <BUY|SELL> <quantity> <price>";
    "Side must be either BUY or SELL";
    "Quantity must be a positive number";
    "Usage: /close <symbol> <LONG|SHORT>";
    "Usage: /cancel <symbol> <orderId>";
    "Usage: /trailingstop <symbol> <activationPrice> <callbackRate>";
    "Usage: /sl <symbol> <stopPrice>";
    "Usage: /tp <symbol> <stopPrice>" ].

(** The parameter object [makeRequest] has built when it computes the
    signature: the caller's parameters and the timestamp. *)
Definition merged (params : Obj) (timestamp : Number) : Obj :=
  Object.define (Object.spread [] params) "timestamp" (VNum timestamp).

(** *** The two servers

    The repository holds the server twice: the JavaScript file and
    [index.ts].  What the statements need of either is named here by
    source. *)
Inductive Source : Type :=
| JavaScript
| TypeScript.

Definition signature_of (s : Source) (env : Env) : Obj -> string -> string :=
  match s with
  | JavaScript => generateSignature env
  | TypeScript => IndexTs.generateSignature env
  end.

(** The request [makeRequest] builds. *)
Definition config_of (s : Source) (env : Env)
  : string -> string -> Obj -> Number -> Config :=
  match s with
  | JavaScript => request_config env
  | TypeScript => IndexTs.request_config env
  end.

Definition makeRequest_of (s : Source) (env : Env)
  : string -> string -> Obj -> Async Value :=
  match s with
  | JavaScript => makeRequest env
  | TypeScript => IndexTs.makeRequest env
  end.

(** How a call of [makeRequest] settles, given how its HTTP request did. *)
Definition settles (s : Source) (p : Promise Value) : Promise Value :=
  match s with
  | JavaScript => p
  | TypeScript => IndexTs.rethrown p
  end.

Definition closeAllPositions_of (s : Source) (env : Env)
  : option string -> M (list Value) :=
  match s with
  | JavaScript => closeAllPositions env
  | TypeScript => IndexTs.closeAllPositions env
  end.

Definition cancelAllOrders_of (s : Source) (env : Env)
  : option string -> M (list Value) :=
  match s with
  | JavaScript => cancelAllOrders env
  | TypeScript => IndexTs.cancelAllOrders env
  end.

Definition simpleTradingStrategy_of (s : Source) (env : Env)
  : Value -> M Value :=
  match s with
  | JavaScript => simpleTradingStrategy env
  | TypeScript => IndexTs.simpleTradingStrategy env
  end.

Definition positions_endpoint (s : Source) : string :=
  match s with
  | JavaScript => "/openApi/contract/v1/allPosition"
  | TypeScript => "/openApi/swap/v2/user/positions"
  end.

Definition orders_endpoint (s : Source) : string :=
  match s with
  | JavaScript => "/openApi/contract/v1/allOrders"
  | TypeScript => "/openApi/swap/v2/trade/openOrders"
  end.

Definition order_endpoint (s : Source) : string :=
  match s with
  | JavaScript => "/openApi/contract/v1/trade/order"
  | TypeScript => "/openApi/swap/v2/trade/order"
  end.

(** The parameter that says the order is a market order. *)
Definition order_type_key (s : Source) : string :=
  match s with
  | JavaScript => "orderType"
  | TypeScript => "type"
  end.

(** The requests of the list helpers, made in world [w]. *)
Definition fetch_positions (s : Source) (env : Env) (w : World) : Config :=
  config_of s env "GET" (positions_endpoint s) []
    (of_Z (Date_now env (reads w))).

Definition fetch_orders (s : Source) (env : Env) (w : World) : Config :=
  config_of s env "GET" (orders_endpoint s) []
    (of_Z (Date_now env (reads w))).

(** The request that closes position [pos], made at clock reading [n]. *)
Definition close_request (s : Source) (env : Env) (n : nat) (pos : Value)
  : Config :=
  config_of s env "POST" "/openApi/swap/v2/trade/closePosition"
    (Object.literal
       [("symbol", field pos "symbol");
        ("positionSide", field pos "positionSide")])
    (of_Z (Date_now env n)).

Definition cancel_request (s : Source) (env : Env) (n : nat) (order : Value)
  : Config :=
  config_of s env "POST" "/openApi/swap/v2/trade/cancelOrder"
    (Object.literal
       [("symbol", field order "symbol"); ("orderId", field order "orderId")])
    (of_Z (Date_now env n)).

(** One request per entry, at successive clock readings from [n] on. *)
Fixpoint requests_from (make : nat -> Value -> Config) (n : nat)
    (l : list Value) : list Config :=
  match l with
  | [] => []
  | x :: r => make n x :: requests_from make (S n) r
  end.

(** How calls of [makeRequest] made one after the other settle. *)
Fixpoint settlements (s : Source) (env : Env) (history : list Config)
    (requests : list Config) : list (Promise Value) :=
  match requests with
  | [] => []
  | c :: r =>
      settles s (axios env history c) :: settlements s env (history ++ [c]) r
  end.

(** The three requests of the price-movement trigger started in world
    [w]: the current price, the last two candles, and the market order of the
    fixed size 0.01. *)
Definition quote_request (s : Source) (env : Env) (symbol : Value)
    (w : World) : Config :=
  config_of s env "GET" "/openApi/swap/v2/quote/price"
    (Object.literal [("symbol", symbol)]) (of_Z (Date_now env (reads w))).

Definition klines_request (s : Source) (env : Env) (symbol : Value)
    (w : World) : Config :=
  config_of s env "GET" "/openApi/swap/v2/quote/klines"
    (Object.literal
       [("symbol", symbol); ("interval", VStr "1m"); ("limit", VNum (of_Z 2))])
    (of_Z (Date_now env (S (reads w)))).

Definition order_request (s : Source) (env : Env) (symbol : Value)
    (side : string) (w : World) : Config :=
  config_of s env "POST" (order_endpoint s)
    (Object.literal
       [("symbol", symbol); ("side", VStr side);
        (order_type_key s, VStr "MARKET"); ("quantity", VNum fixed_size)])
    (of_Z (Date_now env (S (S (reads w))))).

(** [klineData.data[0][4]]. *)
Definition candle_close (klineData : Value) : Result Value :=
  match getProp klineData "data" with
  | Ok data =>
      match getIndex data 0 with
      | Ok candle => getIndex candle 4
      | Throw e => Throw e
      end
  | Throw e => Throw e
  end.

(** ** A sample environment

    Something to run the definitions on: the keyed hash, fixed credentials,
    a clock that starts at 1700000000000 and advances by one millisecond per
    reading, and an exchange that answers from a table, by endpoint and
    symbol when the table has such a line and by endpoint otherwise.  The
    tables list the endpoints of both servers. *)

Definition sample_exchange (table : list (string * Promise Value))
    (history : list Config) (config : Config) : Promise Value :=
  let symbol := ToString (Object.get (transmitted config) "symbol") in
  match lookup table (cfg_url config ++ " " ++ symbol),
        lookup table (cfg_url config) with
  | Some p, _ => p
  | None, Some p => p
  | None, None =>
      mkPromise 1 (Throw (mkError "AxiosError"
                            "Request failed with status code 404" None))
  end.

Definition sample_env (table : list (string * Promise Value)) : Env :=
  mkEnv Crypto.hmac_sha256_text "api-key" "secret"
    (fun n => 1700000000000 + Z.of_nat n)%Z
    (sample_exchange table).

Definition start : World := mkWorld 0 [] [].

Definition position (symbol side : string) : Value :=
  VObj [("symbol", VStr symbol); ("positionSide", VStr side);
        ("positionAmt", VStr "0.5")].

Definition sample_positions : Value :=
  VObj [("code", VNum (of_Z 0));
        ("data", VArr [position "BTC-USDT" "LONG"; position "ETH-USDT" "SHORT";
                       position "BTC-USDT" "SHORT"])].

Definition accepted : Promise Value :=
  mkPromise 5 (Ok (VObj [("code", VNum (of_Z 0))])).

Definition refused (at_time : nat) (msg : string) : Promise Value :=
  mkPromise at_time (Throw (mkError "AxiosError" msg None)).

Definition order (symbol id : string) : Value :=
  VObj [("symbol", VStr symbol); ("orderId", VStr id)].

Definition sample_orders : Value :=
  VObj [("code", VNum (of_Z 0));
        ("data", VArr [order "BTC-USDT" "7001"; order "ETH-USDT" "7002"])].

Definition positions_table : list (string * Promise Value) :=
  [ (BASE_URL ++ "/openApi/contract/v1/allPosition",
     mkPromise 2 (Ok sample_positions));
    (BASE_URL ++ "/openApi/contract/v1/allOrders",
     mkPromise 2 (Ok sample_orders));
    (BASE_URL ++ "/openApi/swap/v2/user/positions",
     mkPromise 2 (Ok sample_positions));
    (BASE_URL ++ "/openApi/swap/v2/trade/openOrders",
     mkPromise 2 (Ok sample_orders));
    (BASE_URL ++ "/openApi/swap/v2/trade/closePosition", accepted);
    (BASE_URL ++ "/openApi/swap/v2/trade/cancelOrder", accepted) ].

(** The same exchange, refusing to close positions in ETH-USDT. *)
Definition refusing_table : list (string * Promise Value) :=
  (BASE_URL ++ "/openApi/swap/v2/trade/closePosition ETH-USDT",
   refused 4 "Request failed with status code 400")
  :: positions_table.

Definition quotes_table (price close : string)
  : list (string * Promise Value) :=
  [ (BASE_URL ++ "/openApi/swap/v2/quote/price",
     mkPromise 2
       (Ok (VObj [("symbol", VStr "BTC-USDT"); ("price", VStr price)])));
    (BASE_URL ++ "/openApi/swap/v2/quote/klines",
     mkPromise 3 (Ok (VObj [("data",
        VArr [VArr [VNum (of_Z 1700000000000); VStr "100"; VStr "102";
                    VStr "99"; VStr close; VStr "12"];
              VArr [VNum (of_Z 1700000060000); VStr "101"; VStr "101";
                    VStr "101"; VStr "101"; VStr "3"]])])));
    (BASE_URL ++ "/openApi/contract/v1/trade/order", accepted);
    (BASE_URL ++ "/openApi/swap/v2/trade/order", accepted) ].

(** ** More vocabulary and sample data *)

(** The hash the servers run with. *)
Definition real_hash (env : Env) : Prop :=
  HmacSHA256 env = Crypto.hmac_sha256_text.

(** The array a bulk operation filters: [listing.data], when that is an
    array; [receiver] is the expression as the operation writes it,
    [positions.data] or [orders.data]. *)
Definition listed (receiver : string) (listing : Value)
  : Result (list Value) :=
  match getProp listing "data" with
  | Ok data => filter_receiver receiver data
  | Throw e => Throw e
  end.

(** What the request [c] for the list, made in world [w], gives the bulk
    operation to work on. *)
Definition fetched_list (s : Source) (env : Env) (w : World)
    (receiver : string) (c : Config) : Result (list Value) :=
  match outcome (settles s (axios env (sent w) c)) with
  | Ok listing => listed receiver listing
  | Throw e => Throw e
  end.

(** A refusal that carries the response of the exchange. *)
Definition refused_with (at_time : nat) (msg : string) (data : Value)
  : Promise Value :=
  mkPromise at_time (Throw (mkError "AxiosError" msg (Some data))).

(** An exchange that refuses to close positions: those in ETH-USDT at
    time 4, those in BTC-USDT at time 6. *)
Definition twice_refusing_table : list (string * Promise Value) :=
  (BASE_URL ++ "/openApi/swap/v2/trade/closePosition ETH-USDT",
   refused_with 4 "Request failed with status code 400"
     (VObj [("code", VNum (of_Z 80001))]))
  :: (BASE_URL ++ "/openApi/swap/v2/trade/closePosition BTC-USDT",
      refused_with 6 "Request failed with status code 429"
        (VObj [("code", VNum (of_Z 100410))]))
  :: positions_table.

(** An exchange that answers the list requests without a [data] field. *)
Definition unlisted_table : list (string * Promise Value) :=
  [ (BASE_URL ++ "/openApi/contract/v1/allPosition",
     mkPromise 2 (Ok (VObj [("code", VNum (of_Z 100001))])));
    (BASE_URL ++ "/openApi/swap/v2/user/positions",
     mkPromise 2 (Ok (VObj [("code", VNum (of_Z 100001))]))) ].

(** An exchange whose lists come with a [data] that is no array: an object
    for the positions, a text for the orders. *)
Definition misshapen_table : list (string * Promise Value) :=
  [ (BASE_URL ++ "/openApi/contract/v1/allPosition",
     mkPromise 2 (Ok (VObj [("data", VObj [("total", VNum (of_Z 0))])])));
    (BASE_URL ++ "/openApi/swap/v2/user/positions",
     mkPromise 2 (Ok (VObj [("data", VObj [("total", VNum (of_Z 0))])])));
    (BASE_URL ++ "/openApi/contract/v1/allOrders",
     mkPromise 2 (Ok (VObj [("data", VStr "none")])));
    (BASE_URL ++ "/openApi/swap/v2/trade/openOrders",
     mkPromise 2 (Ok (VObj [("data", VStr "none")]))) ].

(** The error [index.ts] throws in place of a failure that carries no
    response. *)
Definition no_response_error : Error :=
  TypeError "Cannot read properties of undefined (reading 'data')".

(** The failure of a request as a call of [makeRequest] reports it. *)
Definition reported (s : Source) (e : Error) : Error :=
  match s, error_response e with
  | TypeScript, None => no_response_error
  | _, _ => e
  end.

(** What the [catch] block of the price-movement trigger throws when it
    has caught [e]: the JavaScript server calls [next], which is not
    defined there; [index.ts] throws [e] again. *)
Definition caught (s : Source) (e : Error) : Error :=
  match s with
  | JavaScript => ReferenceError "next is not defined"
  | TypeScript => e
  end.

(** The chat commands of either server. *)
Definition commands_of (s : Source) (env : Env)
  : list (string * (string -> M unit)) :=
  match s with
  | JavaScript => Bot.bot_commands env
  | TypeScript => IndexTsApp.bot_commands env
  end.

(** The commands that make one call of [makeRequest] when their arguments
    pass the checks, and the line their answer starts with. *)
Definition success_label (name : string) : option string :=
  lookup
    [ ("market", "Market order placed:"); ("limit", "Limit order placed:");
      ("balance", "Account Balance:"); ("positions", "Open Positions:");
      ("orders", "Pending Orders:"); ("close", "Position closed:");
      ("cancel", "Order canceled:"); ("trailingstop", "Trailing stop set:");
      ("sl", "Stop loss set:"); ("tp", "Take profit set:") ]
    name.

(** The reply to a command whose request has settled with [result]. *)
Definition report (s : Source) (label : string) (result : Result Value)
  : string :=
  match result with
  | Ok data => Bot.rendered label data
  | Throw e => "Error: " ++ error_message (reported s e)
  end.


(** A text between double quotes. *)
Definition quoted (s : string) : string :=
  String dquote s ++ String dquote "".

(** An exchange that knows the balance and takes orders. *)
Definition balance_table : list (string * Promise Value) :=
  [ (BASE_URL ++ "/openApi/swap/v2/user/balance",
     mkPromise 2 (Ok (VObj [("code", VNum (of_Z 0))])));
    (BASE_URL ++ "/openApi/swap/v2/trade/order", accepted) ].

(** The four routes, and the handler of each in either server. *)
Inductive Route : Type :=
| Balance
| Trade (symbol : string)
| Positions
| Price (symbol : string).

Definition handler_of (s : Source) (env : Env) (r : Route) : P unit :=
  match s, r with
  | JavaScript, Balance => Routes.get_balance env
  | JavaScript, Trade symbol => Routes.post_trade env symbol
  | JavaScript, Positions => Routes.get_positions env
  | JavaScript, Price symbol => Routes.get_price env symbol
  | TypeScript, Balance => IndexTsApp.get_balance env
  | TypeScript, Trade symbol => IndexTsApp.post_trade env symbol
  | TypeScript, Positions => IndexTsApp.get_positions env
  | TypeScript, Price symbol => IndexTsApp.get_price env symbol
  end.

(** The request of a route that makes one, sent in world [w]. *)
Definition route_request (s : Source) (env : Env) (r : Route) (w : World)
  : option Config :=
  let t := of_Z (Date_now env (reads w)) in
  match r with
  | Balance =>
      Some (config_of s env "GET" "/openApi/swap/v2/user/balance" [] t)
  | Positions =>
      Some (config_of s env "GET" "/openApi/swap/v2/user/positions" [] t)
  | Price symbol =>
      Some (config_of s env "GET" "/openApi/swap/v2/quote/price"
              (Object.literal [("symbol", VStr symbol)]) t)
  | Trade _ => None
  end.

(** The process after code of the exchange client has taken its world
    to [w]. *)
Definition with_world (p : Process) (w : World) : Process :=
  mkProcess w (responses p) (forwarded p) (warnings p).

Definition idle : Process := mkProcess start [] [] [].

(** The request of the start-up check made in world [w]. *)
Definition time_request (env : Env) (w : World) : Config :=
  request_config env "GET" "/openApi/swap/v2/time" []
    (of_Z (Date_now env (reads w))).

(** [Math.abs(serverTime * 1 - localTime * 1)]. *)
Definition time_difference (serverTime : Value) (localTime : Number)
  : Number :=
  Math_abs
    (num_sub (num_mul (ToNumber serverTime) (of_Z 1))
       (num_mul localTime (of_Z 1))).

(** What the start-up check reads the server time from: the field
    [data.serverTime] of the answer. *)
Definition server_time (answer : Result Value) : Result Value :=
  match answer with
  | Ok response =>
      match getProp response "data" with
      | Ok data => getProp data "serverTime"
      | Throw e => Throw e
      end
  | Throw e => Throw e
  end.








(** The commands that pass their arguments on as they are: the keys under
    which the arguments travel, in the order of the arguments, the endpoint,
    and the [type] that the operation adds. *)
Definition argument_keys (name : string) : list string :=
  if String.eqb name "close" then ["symbol"; "positionSide"]
  else if String.eqb name "cancel" then ["symbol"; "orderId"]
  else if String.eqb name "trailingstop"
  then ["symbol"; "activationPrice"; "callbackRate"]
  else if String.eqb name "sl" || String.eqb name "tp"
  then ["symbol"; "stopPrice"]
  else [].

Definition command_endpoint (name : string) : string :=
  if String.eqb name "close" then "/openApi/swap/v2/trade/closePosition"
  else if String.eqb name "cancel" then "/openApi/swap/v2/trade/cancelOrder"
  else "/openApi/swap/v2/trade/order".

Definition order_type (name : string) : Value :=
  if String.eqb name "trailingstop" then VStr "TRAILING_STOP_MARKET"
  else if String.eqb name "sl" then VStr "STOP_MARKET"
  else if String.eqb name "tp" then VStr "TAKE_PROFIT_MARKET"
  else VUndefined.

(** * Proofs *)

(** ** Ordering facts *)

Lemma string_leb_trans (a b c : string) :
  String.leb a b = true -> String.leb b c = true -> String.leb a c = true.
Proof.
  unfold String.leb.
  revert b c; induction a as [|x a IH]; intros [|y b] [|z c]; simpl;
    try congruence.
  unfold Ascii.compare.
  destruct (N.compare_spec (N_of_ascii x) (N_of_ascii y)) as [E1|L1|G1];
    destruct (N.compare_spec (N_of_ascii y) (N_of_ascii z)) as [E2|L2|G2];
    try congruence; intros H1 H2.
  - rewrite E1, E2, N.compare_refl. now apply IH with b.
  - rewrite E1. now apply N.compare_lt_iff in L2 as ->.
  - rewrite <- E2. now apply N.compare_lt_iff in L1 as ->.
  - assert (N_of_ascii x < N_of_ascii z)%N as L by lia.
    now apply N.compare_lt_iff in L as ->.
Qed.

Section Sorting.

Context {A : Type} (le : A -> A -> bool).

Lemma insert_sorted_perm (x : A) (l : list A) :
  Permutation (insert_sorted le x l) (x :: l).
Proof.
  induction l as [|y r IH]; simpl; [reflexivity|].
  destruct (le x y); [reflexivity|].
  rewrite IH. apply perm_swap.
Qed.

Lemma sort_by_perm (l : list A) : Permutation (sort_by le l) l.
Proof.
  induction l as [|x r IH]; simpl; [reflexivity|].
  unfold sort_by in *. simpl. rewrite insert_sorted_perm. now constructor.
Qed.

Hypothesis le_total : forall a b, le a b = true \/ le b a = true.
Hypothesis le_trans :
  forall a b c, le a b = true -> le b c = true -> le a c = true.

Lemma insert_sorted_sorted (x : A) (l : list A) :
  StronglySorted (le_of le) l ->
  StronglySorted (le_of le) (insert_sorted le x l).
Proof.
  induction 1 as [|y r Hs IH Hall]; simpl.
  - repeat constructor.
  - destruct (le x y) eqn:E.
    + constructor; [now constructor|].
      constructor; [exact E|].
      eapply Forall_impl; [|exact Hall]. intros z Hz. now apply le_trans with y.
    + constructor; [exact IH|].
      apply (Permutation_Forall (Permutation_sym (insert_sorted_perm x r))).
      constructor; [|exact Hall].
      destruct (le_total x y) as [H|H]; [congruence|exact H].
Qed.

Lemma sort_by_sorted (l : list A) : StronglySorted (le_of le) (sort_by le l).
Proof.
  induction l as [|x r IH]; [constructor|].
  apply insert_sorted_sorted, IH.
Qed.

Lemma filter_sorted (p : A -> bool) (l : list A) :
  StronglySorted (le_of le) l -> StronglySorted (le_of le) (filter p l).
Proof.
  induction 1 as [|y r Hs IH Hall]; simpl; [constructor|].
  destruct (p y); [|exact IH].
  constructor; [exact IH|].
  apply Forall_forall. intros z Hz. apply filter_In in Hz.
  rewrite Forall_forall in Hall. now apply Hall.
Qed.

(** Two sorted arrangements of the same elements are the same list, as soon
    as [le] is antisymmetric on them. *)
Lemma sorted_unique (l l' : list A) :
  (forall a b, In a l -> In b l -> le a b = true -> le b a = true -> a = b) ->
  StronglySorted (le_of le) l -> StronglySorted (le_of le) l' ->
  Permutation l l' -> l = l'.
Proof.
  intros Hanti Hl; revert l' Hanti.
  induction Hl as [|a r Hs IH Ha]; intros l' Hanti Hl' Hp.
  - now apply Permutation_nil in Hp.
  - destruct Hl' as [|b r' Hs' Hb].
    + now apply Permutation_sym, Permutation_nil in Hp.
    + assert (a = b) as ->.
      { assert (In a (b :: r')) as Ia
          by (apply (Permutation_in _ Hp); now left).
        assert (In b (a :: r)) as Ib
          by (apply (Permutation_in _ (Permutation_sym Hp)); now left).
        destruct Ia as [->|Ia]; [reflexivity|].
        destruct Ib as [->|Ib]; [reflexivity|].
        rewrite Forall_forall in Ha, Hb.
        apply Hanti; [now left|now right|now apply Ha|now apply Hb]. }
      f_equal. apply IH; [|exact Hs'|now apply Permutation_cons_inv in Hp].
      intros x y Hx Hy. apply Hanti; now right.
Qed.

End Sorting.

Lemma array_sort_sorted (l : list string) :
  StronglySorted (le_of String.leb) (array_sort l).
Proof.
  apply sort_by_sorted; [apply String.leb_total|apply string_leb_trans].
Qed.

Lemma array_sort_perm (l : list string) : Permutation (array_sort l) l.
Proof. apply sort_by_perm. Qed.

Lemma sorted_strings_unique (l l' : list string) :
  StronglySorted (le_of String.leb) l ->
  StronglySorted (le_of String.leb) l' ->
  Permutation l l' -> l = l'.
Proof.
  apply sorted_unique. intros a b _ _. apply String.leb_antisym.
Qed.

(** Sorting forgets the order the keys came in. *)
Lemma array_sort_order (l l' : list string) :
  Permutation l l' -> array_sort l = array_sort l'.
Proof.
  intros Hp. apply sorted_strings_unique; try apply array_sort_sorted.
  now rewrite !array_sort_perm.
Qed.

(** ** Objects *)

Lemma ownKeys_perm (o : Obj) : Permutation (Object.ownKeys o) (map fst o).
Proof.
  unfold Object.ownKeys. rewrite sort_by_perm.
  generalize (map fst o) as ks.
  induction ks as [|k r IH]; simpl; [constructor|].
  destruct (is_array_index k); simpl.
  - now constructor.
  - symmetry. apply Permutation_cons_app. now symmetry.
Qed.

Lemma get_not_in (o : Obj) (k : string) :
  ~ In k (map fst o) -> Object.get o k = VUndefined.
Proof.
  induction o as [|[k' v] r IH]; simpl; [reflexivity|]. intros H.
  destruct (String.eqb_spec k' k) as [->|_]; [tauto|]. apply IH. tauto.
Qed.

Lemma get_in (o : Obj) (k : string) (v : Value) :
  well_formed o -> In (k, v) o -> Object.get o k = v.
Proof.
  unfold well_formed.
  induction o as [|[k' v'] r IH]; simpl; [tauto|]. intros Hnd [E|Hin].
  - inversion E; subst. now rewrite String.eqb_refl.
  - inversion Hnd as [|? ? Hk Hr]; subst.
    destruct (String.eqb_spec k' k) as [->|_]; [|now apply IH].
    exfalso. apply Hk. now apply (in_map fst) in Hin.
Qed.

(** Reading a property does not depend on the order of creation. *)
Lemma get_order (o o' : Obj) (k : string) :
  well_formed o -> Permutation o o' -> Object.get o k = Object.get o' k.
Proof.
  intros Hnd Hp.
  assert (well_formed o') as Hnd'
    by (unfold well_formed in *; now rewrite <- Hp).
  destruct (in_dec string_dec k (map fst o)) as [Hin|Hout].
  - apply in_map_iff in Hin as [[k' v] [E Hin]]; simpl in E; subst k'.
    rewrite (get_in o k v Hnd Hin). symmetry. apply get_in; [exact Hnd'|].
    now apply (Permutation_in _ Hp).
  - rewrite (get_not_in o k Hout). symmetry. apply get_not_in.
    now rewrite <- Hp.
Qed.

Lemma keys_order (o o' : Obj) :
  Permutation o o' ->
  array_sort (Object.keys o) = array_sort (Object.keys o').
Proof.
  intros Hp. apply array_sort_order. unfold Object.keys.
  now rewrite !ownKeys_perm, Hp.
Qed.

Lemma orderedParams_order (params params' : Obj) :
  well_formed params -> Permutation params params' ->
  orderedParams params = orderedParams params'.
Proof.
  intros Hnd Hp. unfold orderedParams. rewrite (keys_order _ _ Hp).
  generalize (array_sort (Object.keys params')) as ks.
  generalize (@nil (string * Value)).
  intros acc ks; revert acc.
  induction ks as [|k r IH]; intros acc; simpl; [reflexivity|].
  now rewrite (get_order _ _ k Hnd Hp), IH.
Qed.

Lemma get_delete_other (o : Obj) (k k' : string) :
  k' <> k -> Object.get (Object.delete o k) k' = Object.get o k'.
Proof.
  intros Hne. induction o as [|[a v] r IH]; simpl; [reflexivity|].
  destruct (String.eqb_spec a k) as [->|Hak]; simpl.
  - destruct (String.eqb_spec k k'); [congruence|exact IH].
  - now rewrite IH.
Qed.

Lemma keys_delete (o : Obj) (k : string) :
  map fst (Object.delete o k)
  = filter (fun a => negb (String.eqb a k)) (map fst o).
Proof.
  induction o as [|[a v] r IH]; simpl; [reflexivity|].
  destruct (String.eqb a k); simpl; now rewrite IH.
Qed.

Lemma filter_perm {A} (p : A -> bool) (l l' : list A) :
  Permutation l l' -> Permutation (filter p l) (filter p l').
Proof.
  induction 1 as [|x l l' _ IH|x y l|l l' l'' _ IH1 _ IH2]; simpl.
  - constructor.
  - destruct (p x); [now constructor|exact IH].
  - destruct (p x), (p y); try reflexivity. apply perm_swap.
  - now transitivity (filter p l').
Qed.

Lemma sorted_keys_delete (o : Obj) (k : string) :
  array_sort (Object.keys (Object.delete o k))
  = filter (fun a => negb (String.eqb a k)) (array_sort (Object.keys o)).
Proof.
  apply sorted_strings_unique.
  - apply array_sort_sorted.
  - apply filter_sorted, array_sort_sorted.
  - rewrite array_sort_perm. unfold Object.keys.
    rewrite ownKeys_perm, keys_delete.
    apply filter_perm. symmetry.
    now rewrite array_sort_perm, ownKeys_perm.
Qed.

Lemma fold_left_guard {A B} (c : B -> bool) (g : A -> B -> A) (l : list B)
    (acc : A) :
  fold_left (fun a b => if c b then g a b else a) l acc
  = fold_left g (filter c l) acc.
Proof.
  revert acc; induction l as [|b r IH]; intros acc; simpl; [reflexivity|].
  destruct (c b); simpl; apply IH.
Qed.

Lemma fold_left_ext_in {A B} (g g' : A -> B -> A) (l : list B) (acc : A) :
  (forall a b, In b l -> g a b = g' a b) ->
  fold_left g l acc = fold_left g' l acc.
Proof.
  revert acc; induction l as [|b r IH]; intros acc H; simpl; [reflexivity|].
  rewrite H by now left. apply IH. intros a b' Hb. apply H. now right.
Qed.

(** Deleting a property whose value is the empty string leaves
    [orderedParams] as it was. *)
Lemma orderedParams_delete (params : Obj) (k : string) :
  Object.get params k = VStr "" ->
  orderedParams (Object.delete params k) = orderedParams params.
Proof.
  intros Hk. unfold orderedParams.
  rewrite !fold_left_guard, sorted_keys_delete.
  set (ks := array_sort (Object.keys params)).
  assert (filter
            (fun key =>
               not_empty_string (Object.get (Object.delete params k) key))
            (filter (fun a => negb (String.eqb a k)) ks)
          = filter (fun key => not_empty_string (Object.get params key)) ks)
    as ->.
  { induction ks as [|a r IH]; simpl; [reflexivity|].
    destruct (String.eqb_spec a k) as [->|Hne]; simpl.
    - now rewrite Hk.
    - rewrite (get_delete_other params k a Hne).
      destruct (not_empty_string (Object.get params a)); now rewrite IH. }
  apply fold_left_ext_in. intros obj key Hin.
  apply filter_In in Hin as [_ Hne].
  destruct (String.eqb_spec key k) as [->|Hneq].
  - now rewrite Hk in Hne.
  - now rewrite get_delete_other.
Qed.

Lemma define_fresh (o : Obj) (k : string) (v : Value) :
  ~ In k (map fst o) -> Object.define o k v = (o ++ [(k, v)])%list.
Proof.
  induction o as [|[a u] r IH]; simpl; [reflexivity|]. intros H.
  destruct (String.eqb_spec a k) as [->|_]; [tauto|].
  rewrite IH; tauto.
Qed.

(** Setting distinct fresh keys one after the other lists them in that
    order. *)
Lemma fold_set_fresh (f : string -> Value) (ks : list string) (acc : Obj) :
  NoDup ks -> (forall k, In k ks -> ~ In k (map fst acc)) ->
  fold_left (fun o k => Object.define o k (f k)) ks acc
  = (acc ++ map (fun k => (k, f k)) ks)%list.
Proof.
  revert acc; induction ks as [|k r IH]; intros acc Hnd Hfresh; simpl.
  - now rewrite app_nil_r.
  - inversion Hnd as [|? ? Hk Hr]; subst.
    rewrite define_fresh by (apply Hfresh; now left).
    rewrite IH; [now rewrite <- app_assoc|exact Hr|].
    intros k' Hin. rewrite map_app, in_app_iff; simpl.
    intros [H|[->|[]]]; [|tauto].
    apply (Hfresh k'); [now right|exact H].
Qed.

Lemma get_listed (f : string -> Value) (ks : list string) (k : string) :
  In k ks -> Object.get (map (fun k => (k, f k)) ks) k = f k.
Proof.
  induction ks as [|a r IH]; simpl; [tauto|]. intros H.
  destruct (String.eqb_spec a k) as [->|Hne]; [reflexivity|].
  apply IH. destruct H; congruence.
Qed.

Lemma filter_none {A} (p : A -> bool) (l : list A) :
  (forall x, In x l -> p x = false) -> filter p l = [].
Proof.
  induction l as [|x r IH]; simpl; [reflexivity|]. intros H.
  rewrite H by now left. apply IH. intros y Hy. apply H. now right.
Qed.

Lemma filter_all {A} (p : A -> bool) (l : list A) :
  (forall x, In x l -> p x = true) -> filter p l = l.
Proof.
  induction l as [|x r IH]; simpl; [reflexivity|]. intros H.
  rewrite H by now left. f_equal. apply IH. intros y Hy. apply H. now right.
Qed.

(** An object whose keys are no array indices lists them in creation
    order. *)
Lemma ownKeys_plain (o : Obj) :
  (forall k, In k (map fst o) -> is_array_index k = false) ->
  Object.ownKeys o = map fst o.
Proof.
  intros H. unfold Object.ownKeys.
  rewrite filter_none by exact H. simpl.
  apply filter_all. intros k Hk. now rewrite H.
Qed.

Lemma set_plain (o : Obj) (k : string) (v : Value) :
  k <> "__proto__" -> Object.set o k v = Object.define o k v.
Proof.
  intros Hk. unfold Object.set.
  now apply String.eqb_neq in Hk as ->.
Qed.

(** On a well-formed mapping with plain keys the query string is the
    canonical string. *)
Lemma queryString_canonical (params : Obj) :
  well_formed params ->
  (forall k, In k (map fst params) -> plain_key k = true) ->
  queryString params = canonical_string params.
Proof.
  intros Hnd Hplain. unfold queryString, canonical_string, orderedParams.
  rewrite fold_left_guard.
  assert (array_sort (Object.keys params) = array_sort (map fst params)) as ->
    by (apply array_sort_order, ownKeys_perm).
  set (ks := filter _ (array_sort (map fst params))).
  assert (forall k, In k ks -> In k (map fst params)) as Hin.
  { intros k Hk. apply filter_In in Hk as [Hk _].
    now apply (Permutation_in _ (array_sort_perm _)). }
  assert (forall k, In k ks -> is_array_index k = false /\ k <> "__proto__")
    as Hks.
  { intros k Hk. specialize (Hplain k (Hin k Hk)). unfold plain_key in Hplain.
    apply andb_true_iff in Hplain as [H1 H2].
    apply negb_true_iff in H1, H2. now apply String.eqb_neq in H2. }
  assert (NoDup ks) as Hnd'.
  { apply NoDup_filter.
    apply (Permutation_NoDup (Permutation_sym (array_sort_perm _))), Hnd. }
  rewrite (fold_left_ext_in _
             (fun o k => Object.define o k (Object.get params k)))
    by (intros o k Hk; apply set_plain, Hks, Hk).
  rewrite fold_set_fresh by (auto; intros k _ []). simpl.
  unfold Object.entries.
  assert (map fst (map (fun k => (k, Object.get params k)) ks) = ks) as Hfst
    by (rewrite map_map; apply map_id).
  rewrite ownKeys_plain; rewrite Hfst; [|intros k Hk; now apply Hks].
  rewrite map_map. f_equal. apply map_ext_in. intros k Hk. simpl.
  now rewrite get_listed.
Qed.

(** ** The signer *)

Lemma hex_digit_lower (b : Byte.byte) :
  lower_hex (hex_digit false (N.shiftr (Byte.to_N b) 4)) = true
  /\ lower_hex (hex_digit false (N.land (Byte.to_N b) 15)) = true.
Proof. destruct b; split; reflexivity. Qed.

Lemma Hex_stringify_lower (bytes : list Byte.byte) :
  all_chars lower_hex (Hex_stringify bytes) = true
  /\ String.length (Hex_stringify bytes) = (2 * List.length bytes)%nat.
Proof.
  induction bytes as [|b r [IH1 IH2]]; [now split|].
  unfold Hex_stringify in *.
  cbn [fold_right all_chars String.length List.length].
  destruct (hex_digit_lower b) as [-> ->]. rewrite IH1, IH2.
  split; [reflexivity|lia].
Qed.

(** The signature is written in lowercase hexadecimal digits, two for each
    byte of the digest. *)
Lemma generateSignature_lower_hex (env : Env) (params : Obj)
    (secretKey : string) :
  all_chars lower_hex (generateSignature env params secretKey) = true
  /\ String.length (generateSignature env params secretKey)
     = (2 * List.length (HmacSHA256 env (queryString params) secretKey))%nat.
Proof. apply Hex_stringify_lower. Qed.

(** X1: The digest is taken of the canonical string whenever the keys of the
    mapping are plain. *)
Lemma generateSignature_canonical (env : Env) (params : Obj)
    (secretKey : string) :
  well_formed params ->
  (forall k, In k (map fst params) -> plain_key k = true) ->
  generateSignature env params secretKey
  = Hex_stringify (HmacSHA256 env (canonical_string params) secretKey).
Proof.
  intros Hnd Hplain. unfold generateSignature.
  now rewrite queryString_canonical.
Qed.

Lemma generateSignature_canonical_witness :
  generateSignature (sample_env [])
    [("symbol", VStr "BTC-USDT"); ("side", VStr ""); ("price", VStr "1 000")]
    "secret"
  = Hex_stringify
      (HmacSHA256 (sample_env []) "price=1%20000&symbol=BTC-USDT" "secret").
Proof.
  apply (generateSignature_canonical (sample_env [])
           [("symbol", VStr "BTC-USDT"); ("side", VStr "");
            ("price", VStr "1 000")] "secret").
  - unfold well_formed. simpl.
    repeat (constructor; [simpl; intuition discriminate|]). constructor.
  - simpl. intros k [<-|[<-|[<-|[]]]]; reflexivity.
Defined.

(** Why the canonical form is stated for plain keys.  The dispatcher
    builds its mappings from the fixed names of the operations (symbol,
    side, timestamp, ...), none of which is an array index.  With keys that
    are, such as "10" and "9", the keys are sorted into the order 10, 9,
    but the reduction into a fresh object lists the index 9 before 10, and
    the string handed to the keyed hash is 9=b&10=a. *)
Example generateSignature_index_keys :
  let params := [("10", VStr "a"); ("9", VStr "b")] in
  array_sort (Object.keys params) = ["10"; "9"]
  /\ Object.entries (orderedParams params)
     = [("9", VStr "b"); ("10", VStr "a")]
  /\ queryString params = "9=b&10=a"
  /\ canonical_string params = "10=a&9=b".
Proof. cbv zeta. repeat split. Qed.

(** The same happens to an own key [__proto__]: the assignment in the
    reduction creates no property, and the entry is missing from the signed
    string. *)
Example generateSignature_proto_key :
  let params := [("__proto__", VStr "x"); ("a", VStr "1")] in
  queryString params = "a=1"
  /\ canonical_string params = "__proto__=x&a=1".
Proof. split; reflexivity. Qed.

(** The signer of [index.ts] sorts the keys in the same way. *)
Lemma IndexTs_orderedParams_order (params params' : Obj) :
  well_formed params -> Permutation params params' ->
  IndexTs.orderedParams params = IndexTs.orderedParams params'.
Proof.
  intros Hnd Hp. unfold IndexTs.orderedParams. rewrite (keys_order _ _ Hp).
  apply fold_left_ext_in. intros obj key _.
  now rewrite (get_order _ _ key Hnd Hp).
Qed.

(** C2: in both servers the signature does not depend on the order in
    which the keys of the mapping were inserted. *)
Theorem generateSignature_key_order (s : Source) (env : Env)
    (params params' : Obj) (secretKey : string) :
  well_formed params -> Permutation params params' ->
  signature_of s env params secretKey = signature_of s env params' secretKey.
Proof.
  intros Hnd Hp. destruct s; cbn [signature_of].
  - unfold generateSignature, queryString.
    now rewrite (orderedParams_order params params' Hnd Hp).
  - unfold IndexTs.generateSignature, IndexTs.queryString.
    now rewrite (IndexTs_orderedParams_order params params' Hnd Hp).
Qed.

Lemma generateSignature_key_order_witness :
  Forall
    (fun s =>
       signature_of s (sample_env [])
         [("symbol", VStr "BTC-USDT"); ("side", VStr "BUY"); ("9", VStr "x")]
         "secret"
       = signature_of s (sample_env [])
           [("9", VStr "x"); ("side", VStr "BUY"); ("symbol", VStr "BTC-USDT")]
           "secret")
    [JavaScript; TypeScript].
Proof.
  apply Forall_forall. intros s _.
  apply generateSignature_key_order.
  - unfold well_formed. simpl.
    repeat (constructor; [simpl; intuition discriminate|]). constructor.
  - eapply perm_trans; [apply perm_swap|].
    eapply perm_trans; [apply perm_skip, perm_swap|]. apply perm_swap.
Defined.

(** X2: The signer of the JavaScript server leaves out an entry whose value
    is the empty string, so there the signature of a mapping is that of the
    mapping without such a key. *)
Theorem generateSignature_drops_empty (env : Env) (params : Obj) (k : string)
    (secretKey : string) :
  Object.get params k = VStr "" ->
  generateSignature env params secretKey
  = generateSignature env (Object.delete params k) secretKey.
Proof.
  intros Hk. unfold generateSignature, queryString.
  now rewrite (orderedParams_delete params k Hk).
Qed.

Lemma generateSignature_drops_empty_witness :
  generateSignature (sample_env []) [("a", VStr "1"); ("b", VStr "")] "secret"
  = generateSignature (sample_env []) [("a", VStr "1")] "secret".
Proof.
  apply (generateSignature_drops_empty (sample_env [])
           [("a", VStr "1"); ("b", VStr "")] "b" "secret").
  reflexivity.
Defined.

(** C3, in [index.ts]: the reduction copies every key, so the entry whose
    value is the empty string is signed with the rest, as [b=], and the
    signature of {a: "1", b: ""} is not that of {a: "1"}. *)
Theorem IndexTs_generateSignature_keeps_empty :
  let params := [("a", VStr "1"); ("b", VStr "")] in
  let env := sample_env [] in
  Object.delete params "b" = [("a", VStr "1")]
  /\ IndexTs.orderedParams params = params
  /\ IndexTs.queryString params = "a=1&b="
  /\ IndexTs.queryString [("a", VStr "1")] = "a=1"
  /\ IndexTs.generateSignature env params "secret"
     = "464a03e1ead417e6c14a4301d06babfefc7bcf3663e777e1b28bd3996f44664e"
  /\ IndexTs.generateSignature env [("a", VStr "1")] "secret"
     = "82b8b502fa852da323a3e5b1bfb10a043ece1551b5c16576d9a995590596389a"
  /\ generateSignature env params "secret"
     = "82b8b502fa852da323a3e5b1bfb10a043ece1551b5c16576d9a995590596389a".
Proof.
  cbv zeta. do 6 (split; [vm_compute; reflexivity|]). vm_compute; reflexivity.
Qed.

(** ** The dispatcher *)

Lemma get_define_same (o : Obj) (k : string) (v : Value) :
  Object.get (Object.define o k v) k = v.
Proof.
  induction o as [|[a u] r IH]; simpl.
  - now rewrite String.eqb_refl.
  - destruct (String.eqb_spec a k) as [->|Hne]; simpl.
    + now rewrite String.eqb_refl.
    + destruct (String.eqb_spec a k); [congruence|exact IH].
Qed.

Lemma get_define_other (o : Obj) (k k' : string) (v : Value) :
  k' <> k -> Object.get (Object.define o k v) k' = Object.get o k'.
Proof.
  intros Hne. induction o as [|[a u] r IH]; simpl.
  - destruct (String.eqb_spec k k'); [congruence|reflexivity].
  - destruct (String.eqb_spec a k) as [->|Hak]; simpl.
    + destruct (String.eqb_spec k k'); [congruence|reflexivity].
    + now rewrite IH.
Qed.

Lemma keys_define (o : Obj) (k k' : string) (v : Value) :
  In k' (map fst (Object.define o k v)) <-> In k' (map fst o) \/ k' = k.
Proof.
  induction o as [|[a u] r IH]; simpl.
  - intuition congruence.
  - destruct (String.eqb_spec a k) as [->|Hak]; simpl; [|rewrite IH];
      intuition congruence.
Qed.

Lemma delete_define (o : Obj) (k : string) (v : Value) :
  Object.delete (Object.define o k v) k = Object.delete o k.
Proof.
  induction o as [|[a u] r IH]; simpl.
  - now rewrite String.eqb_refl.
  - destruct (String.eqb_spec a k) as [->|Hak]; simpl.
    + now rewrite String.eqb_refl.
    + destruct (String.eqb_spec a k); [congruence|]. simpl. now rewrite IH.
Qed.

Lemma get_fold_define (src : Obj) (ks : list string) (acc : Obj) (k : string) :
  Object.get
    (fold_left (fun o a => Object.define o a (Object.get src a)) ks acc) k
  = if in_dec string_dec k ks then Object.get src k else Object.get acc k.
Proof.
  revert acc; induction ks as [|a r IH]; intros acc; simpl; [reflexivity|].
  rewrite IH. destruct (in_dec string_dec k r) as [Hr|Hr].
  - destruct (string_dec a k); reflexivity.
  - destruct (string_dec a k) as [->|Hne].
    + apply get_define_same.
    + destruct (in_dec string_dec k r); [tauto|]. 
      apply get_define_other. congruence.
Qed.

Lemma keys_fold_define (src : Obj) (ks : list string) (acc : Obj) (k : string) :
  In k (map fst (fold_left (fun o a => Object.define o a (Object.get src a))
                   ks acc))
  <-> In k (map fst acc) \/ In k ks.
Proof.
  revert acc; induction ks as [|a r IH]; intros acc; simpl; [tauto|].
  rewrite IH, keys_define. intuition congruence.
Qed.

(** A spread copies every property of its source. *)
Lemma get_spread (src : Obj) (k : string) :
  Object.get (Object.spread [] src) k = Object.get src k.
Proof.
  unfold Object.spread. rewrite get_fold_define.
  destruct (in_dec string_dec k (Object.ownKeys src)) as [_|Hout];
    [reflexivity|].
  simpl. symmetry. apply get_not_in.
  intros Hin. apply Hout.
  now apply (Permutation_in _ (Permutation_sym (ownKeys_perm src))).
Qed.

Lemma keys_spread (src : Obj) (k : string) :
  In k (map fst (Object.spread [] src)) <-> In k (map fst src).
Proof.
  unfold Object.spread. rewrite keys_fold_define. simpl.
  split.
  - intros [[]|H]. now apply (Permutation_in _ (ownKeys_perm src)).
  - intros H. right.
    now apply (Permutation_in _ (Permutation_sym (ownKeys_perm src))).
Qed.

Lemma no_keys (params : Obj) :
  (List.length (Object.keys params) =? 0)%nat = true <-> params = [].
Proof.
  unfold Object.keys.
  rewrite (Permutation_length (ownKeys_perm params)), length_map.
  destruct params; simpl; split; congruence.
Qed.

Lemma makeRequest_sent (env : Env) (method endpoint : string) (params : Obj)
    (w : World) :
  makeRequest env method endpoint params w
  = (let c := request_config env method endpoint params
                (of_Z (Date_now env (reads w))) in
     (axios env (sent w) c,
      mkWorld (S (reads w)) (sent w ++ [c]) (replies w))).
Proof. reflexivity. Qed.

Lemma transmitted_request (env : Env) (method endpoint : string)
    (params : Obj) (t : Number) :
  transmitted (request_config env method endpoint params t)
  = Object.define (merged params t) "signature"
      (VStr (generateSignature env
               (if (List.length (Object.keys params) =? 0)%nat
                   && String.eqb method "GET"
                then Object.literal [("timestamp", VNum t)]
                else merged params t)
               (SECRET_KEY env))).
Proof.
  unfold request_config, merged.
  destruct ((List.length (Object.keys params) =? 0)%nat
            && String.eqb method "GET");
    destruct (String.eqb method "GET"); reflexivity.
Qed.

(** X3: In the JavaScript server a GET without parameters is signed over the
    mapping that holds the timestamp alone, so the signed string is
    [timestamp=<reading>]; any other request is signed over the caller's
    parameters merged with the timestamp. *)
Theorem makeRequest_signs (env : Env) :
  (forall endpoint w,
     let t := of_Z (Date_now env (reads w)) in
     exists c,
       sent (snd (makeRequest env "GET" endpoint [] w)) = (sent w ++ [c])%list
       /\ Object.get (transmitted c) "signature"
          = VStr (generateSignature env [("timestamp", VNum t)]
                    (SECRET_KEY env))
       /\ orderedParams [("timestamp", VNum t)] = [("timestamp", VNum t)]
       /\ queryString [("timestamp", VNum t)]
          = "timestamp=" ++ encodeURIComponent (VNum t))
  /\ (forall method endpoint params w,
        params <> [] \/ method <> "GET" ->
        let t := of_Z (Date_now env (reads w)) in
        exists c,
          sent (snd (makeRequest env method endpoint params w))
          = (sent w ++ [c])%list
          /\ Object.get (transmitted c) "signature"
             = VStr (generateSignature env
                       (Object.define (Object.spread [] params) "timestamp"
                          (VNum t))
                       (SECRET_KEY env))).
Proof.
  split.
  - intros endpoint w t. eexists. rewrite makeRequest_sent. simpl snd.
    split; [reflexivity|]. rewrite transmitted_request, get_define_same.
    repeat split.
  - intros method endpoint params w Hother t. eexists.
    rewrite makeRequest_sent. simpl snd.
    split; [reflexivity|]. rewrite transmitted_request, get_define_same.
    assert ((List.length (Object.keys params) =? 0)%nat
            && String.eqb method "GET" = false) as ->; [|reflexivity].
    apply andb_false_iff. destruct Hother as [H|H].
    + left. apply not_true_is_false. now rewrite no_keys.
    + right. now apply String.eqb_neq.
Qed.

Lemma makeRequest_signs_witness :
  let env := sample_env [] in
  let params := [("symbol", VStr "BTC-USDT")] in
  exists c,
    sent (snd (makeRequest env "POST" "/openApi/swap/v2/trade/order" params
                 start))
    = [c]
    /\ Object.get (transmitted c) "signature"
       = VStr (generateSignature env
                 (Object.define (Object.spread [] params) "timestamp"
                    (VNum (of_Z 1700000000000)))
                 "secret").
Proof.
  apply (proj2 (makeRequest_signs (sample_env []))
           "POST" "/openApi/swap/v2/trade/order" [("symbol", VStr "BTC-USDT")]
           start).
  left. discriminate.
Defined.

(** X4: In the JavaScript server the API key travels in the header
    [X-BX-APIKEY] and nowhere else; the parameter set of the request holds
    the caller's parameters, the timestamp and the signature, and nothing
    more; the secret key only keys the hash behind the signature. *)
Theorem makeRequest_transmits (env : Env) (method endpoint : string)
    (params : Obj) (w : World) :
  let t := of_Z (Date_now env (reads w)) in
  let c := request_config env method endpoint params t in
  sent (snd (makeRequest env method endpoint params w)) = (sent w ++ [c])%list
  /\ cfg_headers c = [("X-BX-APIKEY", VStr (API_KEY env))]
  /\ (forall k, In k (map fst (transmitted c))
                <-> In k (map fst params) \/ k = "timestamp"
                    \/ k = "signature")
  /\ (forall k, k <> "timestamp" -> k <> "signature" ->
                Object.get (transmitted c) k = Object.get params k)
  /\ Object.get (transmitted c) "timestamp" = VNum t
  /\ (exists signed,
        Object.get (transmitted c) "signature"
        = VStr (Hex_stringify (HmacSHA256 env (queryString signed)
                                 (SECRET_KEY env)))
        /\ forall k, In k (map fst signed)
                     -> In k (map fst params) \/ k = "timestamp")
  /\ (forall key,
        transmitted (request_config (with_api_key env key) method endpoint
                       params t)
        = transmitted c)
  /\ (forall secret,
        let c' := request_config (with_secret env secret) method endpoint
                    params t in
        cfg_headers c' = cfg_headers c
        /\ Object.delete (transmitted c') "signature"
           = Object.delete (transmitted c) "signature").
Proof.
  intros t c. subst c. rewrite makeRequest_sent. simpl snd.
  split; [reflexivity|].
  split; [unfold request_config; now destruct (String.eqb method "GET")|].
  rewrite transmitted_request. unfold merged.
  split.
  { intros k. rewrite !keys_define, keys_spread. tauto. }
  split.
  { intros k H1 H2. now rewrite !get_define_other, get_spread by congruence. }
  split.
  { rewrite get_define_other, get_define_same by discriminate. reflexivity. }
  split.
  { eexists. rewrite get_define_same. split; [reflexivity|].
    intros k.
    destruct ((List.length (Object.keys params) =? 0)%nat
              && String.eqb method "GET").
    - simpl. intuition.
    - rewrite keys_define, keys_spread. tauto. }
  split.
  { intros key. now rewrite transmitted_request. }
  intros secret. split.
  - unfold request_config. now destruct (String.eqb method "GET").
  - now rewrite transmitted_request, !delete_define.
Qed.

(** ** Calls of [makeRequest], in either server *)

Lemma makeRequest_of_sent (s : Source) (env : Env) (method endpoint : string)
    (params : Obj) (w : World) :
  makeRequest_of s env method endpoint params w
  = (let c := config_of s env method endpoint params
                (of_Z (Date_now env (reads w))) in
     (settles s (axios env (sent w) c),
      mkWorld (S (reads w)) (sent w ++ [c]) (replies w))).
Proof. destruct s; reflexivity. Qed.

(** A request that succeeds makes the call succeed with the same data. *)
Lemma settles_ok (s : Source) (p : Promise Value) (v : Value) :
  outcome p = Ok v -> outcome (settles s p) = Ok v.
Proof.
  intros H. destruct s; cbn [settles]; [exact H|].
  unfold IndexTs.rethrown. now rewrite H.
Qed.

(** A call fails exactly when its request does. *)
Lemma settles_is_ok (s : Source) (p : Promise Value) :
  is_ok (outcome (settles s p)) = is_ok (outcome p).
Proof.
  destruct s; cbn [settles]; [reflexivity|]. unfold IndexTs.rethrown.
  destruct (outcome p) as [v|e] eqn:E; [now rewrite E|].
  destruct (error_response e); [now rewrite E|reflexivity].
Qed.

Lemma IndexTs_transmitted_request (env : Env) (method endpoint : string)
    (params : Obj) (t : Number) :
  transmitted (IndexTs.request_config env method endpoint params t)
  = Object.define
      (Object.define (merged params t) "apiKey" (VStr (API_KEY env)))
      "signature"
      (VStr (IndexTs.generateSignature env
               (Object.define (merged params t) "apiKey"
                  (VStr (API_KEY env)))
               (SECRET_KEY env))).
Proof.
  unfold IndexTs.request_config, transmitted, merged. cbn [cfg_params].
  now rewrite set_plain by discriminate.
Qed.

(** Either server sends the caller's parameters as they are. *)
Lemma transmitted_caller (s : Source) (env : Env) (method endpoint : string)
    (params : Obj) (t : Number) (k : string) :
  k <> "timestamp" -> k <> "signature" -> k <> "apiKey" ->
  Object.get (transmitted (config_of s env method endpoint params t)) k
  = Object.get params k.
Proof.
  intros H1 H2 H3. destruct s; cbn [config_of].
  - rewrite transmitted_request. unfold merged.
    now rewrite !get_define_other, get_spread by congruence.
  - rewrite IndexTs_transmitted_request. unfold merged.
    now rewrite !get_define_other, get_spread by congruence.
Qed.

Lemma config_of_target (s : Source) (env : Env) (method endpoint : string)
    (params : Obj) (t : Number) :
  cfg_method (config_of s env method endpoint params t) = method
  /\ cfg_url (config_of s env method endpoint params t) = BASE_URL ++ endpoint.
Proof.
  destruct s; cbn [config_of]; [|now split].
  unfold request_config. now destruct (String.eqb method "GET").
Qed.

(** ** Bulk operations *)

Lemma is_string_eq (v : Value) (s : string) :
  is_string v s = true <-> v = VStr s.
Proof.
  destruct v; simpl; try (split; congruence).
  rewrite String.eqb_eq. split; congruence.
Qed.

Lemma getProp_object (v : Value) (k : string) :
  is_object v = true -> getProp v k = Ok (field v k).
Proof. destruct v; simpl; congruence. Qed.

Lemma array_filter_objects (symbol : option string) (items : list Value) :
  Forall (fun entry => is_object entry = true) items ->
  array_filter (symbol_matches (symbol_or_default symbol)) items
  = Ok (filter (wanted symbol) items).
Proof.
  induction 1 as [|x r Hx _ IH]; simpl; [reflexivity|].
  rewrite IH. unfold symbol_matches, wanted.
  destruct (String.eqb (symbol_or_default symbol) ""); [reflexivity|].
  now rewrite (getProp_object x "symbol" Hx).
Qed.

Lemma kept_objects (symbol : option string) (items : list Value) :
  Forall (fun entry => is_object entry = true) items ->
  Forall (fun entry => is_object entry = true) (filter (wanted symbol) items).
Proof.
  rewrite !Forall_forall. intros H x Hx. apply filter_In in Hx as [Hx _]. auto.
Qed.

Lemma first_rejected_none {A} (ps : list (Promise A)) :
  first_rejected ps = None
  <-> forall p, In p ps -> is_ok (outcome p) = true.
Proof.
  induction ps as [|p r IH]; simpl; [tauto|].
  destruct (outcome p) eqn:E.
  - rewrite IH. split.
    + intros H q [<-|Hq]; [now rewrite E|now apply H].
    + intros H q Hq. apply H. now right.
  - split.
    + destruct (first_rejected r) as [[t e']|];
        [destruct (settled_at p <=? t)%nat|]; discriminate.
    + intros H. specialize (H p (or_introl eq_refl)). now rewrite E in H.
Qed.

(** The rejection [Promise.all] reports is that of one of its promises,
    and no other promise was rejected earlier. *)
Lemma first_rejected_some {A} (ps : list (Promise A)) (t : nat) (e : Error) :
  first_rejected ps = Some (t, e) ->
  (exists p, In p ps /\ outcome p = Throw e /\ settled_at p = t)
  /\ forall q, In q ps -> is_ok (outcome q) = false -> (t <= settled_at q)%nat.
Proof.
  revert t e; induction ps as [|p r IH]; simpl; [discriminate|]. intros t e.
  destruct (outcome p) eqn:E.
  - intros H. destruct (IH t e H) as [[q [Hq1 Hq2]] Hmin]. split.
    + exists q. tauto.
    + intros q' [<-|Hq'] Hrej; [now rewrite E in Hrej|now apply Hmin].
  - destruct (first_rejected r) as [[t' e']|] eqn:Er.
    + destruct (IH t' e' eq_refl) as [[q [Hq1 Hq2]] Hmin].
      destruct (Nat.leb_spec (settled_at p) t') as [Hle|Hlt];
        intros H; inversion H; subst; clear H.
      * split; [exists p; tauto|].
        intros q' [<-|Hq'] Hrej; [lia|]. specialize (Hmin q' Hq' Hrej). lia.
      * split; [exists q; tauto|].
        intros q' [<-|Hq'] Hrej; [lia|now apply Hmin].
    + intros H; inversion H; subst; clear H. split; [exists p; tauto|].
      intros q' [<-|Hq'] Hrej; [lia|].
      apply first_rejected_none with (p := q') in Er; [congruence|exact Hq'].
Qed.

Lemma fulfilled_all {A} (ps : list (Promise A)) :
  (forall p, In p ps -> is_ok (outcome p) = true) ->
  map outcome ps = map Ok (fulfilled ps).
Proof.
  induction ps as [|p r IH]; simpl; [reflexivity|]. intros H.
  pose proof (H p (or_introl eq_refl)) as Hp.
  destruct (outcome p); [|discriminate].
  simpl. f_equal. apply IH. intros q Hq. apply H. now right.
Qed.

(** [Promise.all] is fulfilled exactly when every promise is, and then
    with their values in order; otherwise it is rejected with the reason of
    the promise that was rejected first. *)
Lemma Promise_all_outcome {A} (ps : list (Promise A)) :
  (is_ok (outcome (Promise_all ps)) = true
   <-> forall p, In p ps -> is_ok (outcome p) = true)
  /\ (forall values, outcome (Promise_all ps) = Ok values ->
        map outcome ps = map Ok values)
  /\ (forall e, outcome (Promise_all ps) = Throw e ->
        exists p, In p ps /\ outcome p = Throw e
                  /\ forall q, In q ps -> is_ok (outcome q) = false ->
                               (settled_at p <= settled_at q)%nat).
Proof.
  unfold Promise_all. destruct (first_rejected ps) as [[t e]|] eqn:E; simpl.
  - destruct (first_rejected_some ps t e E) as [[p [Hp1 [Hp2 Hp3]]] Hmin].
    repeat split.
    + discriminate.
    + intros H. specialize (H p Hp1). now rewrite Hp2 in H.
    + discriminate.
    + intros e' He'. inversion He'; subst. exists p. repeat split; auto.
  - rewrite first_rejected_none in E. repeat split; auto.
    + intros values Hv. inversion Hv; subst. now apply fulfilled_all.
    + discriminate.
Qed.

Lemma requests_from_length (make : nat -> Value -> Config) (n : nat)
    (l : list Value) :
  List.length (requests_from make n l) = List.length l.
Proof. revert n; induction l; intros n; simpl; auto. Qed.

Lemma settlements_length (s : Source) (env : Env)
    (history requests : list Config) :
  List.length (settlements s env history requests) = List.length requests.
Proof. revert history; induction requests; intros h; simpl; auto. Qed.

(** The fan-out of a bulk operation: one POST per entry, made in the order
    of the list at successive clock readings. *)
Lemma fan_out_run (s : Source) (env : Env) (url k1 k2 : string)
    (kept : list Value) (w : World) :
  Forall (fun entry => is_object entry = true) kept ->
  let make n entry :=
    config_of s env "POST" url
      (Object.literal [(k1, field entry k1); (k2, field entry k2)])
      (of_Z (Date_now env n)) in
  let requests := requests_from make (reads w) kept in
  array_map
    (fun entry =>
       a <- lift (getProp entry k1) ;;
       b <- lift (getProp entry k2) ;;
       call (makeRequest_of s env "POST" url
               (Object.literal [(k1, a); (k2, b)])))
    kept w
  = (Ok (settlements s env (sent w) requests),
     mkWorld (reads w + List.length kept) (sent w ++ requests) (replies w)).
Proof.
  intros Hobj make. revert w.
  induction Hobj as [|x r Hx _ IH]; intros w; simpl.
  - unfold ret. rewrite Nat.add_0_r, app_nil_r. now destruct w.
  - unfold bind at 1. unfold bind at 1. unfold lift at 1.
    rewrite (getProp_object x k1 Hx).
    unfold bind at 1. unfold lift at 1. rewrite (getProp_object x k2 Hx).
    unfold call at 1. rewrite makeRequest_of_sent. cbv zeta.
    unfold bind at 1. rewrite IH. simpl reads. simpl sent. simpl replies.
    unfold ret. fold (make (reads w) x).
    rewrite <- app_assoc. simpl. do 3 f_equal. lia.
Qed.

(** The steps of a bulk operation up to its fan-out, the list being
    fetched and holding objects. *)
Ltac bulk_steps Hfetch Hdata Hobj :=
  unfold bind at 1; unfold call at 1; rewrite makeRequest_of_sent; cbv zeta;
  unfold bind at 1; unfold await at 1; unfold lift at 1;
  rewrite (settles_ok _ _ _ Hfetch);
  unfold bind at 1; unfold lift at 1; rewrite Hdata;
  unfold bind at 1; unfold lift at 1; simpl filter_receiver;
  unfold bind at 1; unfold lift at 1;
  rewrite (array_filter_objects _ _ Hobj);
  unfold bind at 1;
  rewrite fan_out_run by (apply kept_objects, Hobj);
  simpl reads; simpl sent; simpl replies;
  unfold await, lift; rewrite <- app_assoc; reflexivity.

Lemma closeAllPositions_run (s : Source) (env : Env) (symbol : option string)
    (w : World) (positions : Value) (items : list Value) :
  outcome (axios env (sent w) (fetch_positions s env w)) = Ok positions ->
  getProp positions "data" = Ok (VArr items) ->
  Forall (fun pos => is_object pos = true) items ->
  let requests :=
    requests_from (close_request s env) (S (reads w))
      (filter (wanted symbol) items) in
  closeAllPositions_of s env symbol w
  = (outcome (Promise_all
                (settlements s env (sent w ++ [fetch_positions s env w])
                   requests)),
     mkWorld (S (reads w) + List.length (filter (wanted symbol) items))
       (sent w ++ fetch_positions s env w :: requests) (replies w)).
Proof.
  intros Hfetch Hdata Hobj requests. subst requests.
  unfold fetch_positions, close_request in *.
  destruct s; cbn [closeAllPositions_of positions_endpoint] in *.
  - unfold closeAllPositions, getOpenPositions, run_body, closePosition.
    change (makeRequest env) with (makeRequest_of JavaScript env).
    bulk_steps Hfetch Hdata Hobj.
  - unfold IndexTs.closeAllPositions, IndexTs.getOpenPositions,
      IndexTs.closePosition.
    change (IndexTs.makeRequest env) with (makeRequest_of TypeScript env).
    bulk_steps Hfetch Hdata Hobj.
Qed.

Lemma cancelAllOrders_run (s : Source) (env : Env) (symbol : option string)
    (w : World) (orders : Value) (items : list Value) :
  outcome (axios env (sent w) (fetch_orders s env w)) = Ok orders ->
  getProp orders "data" = Ok (VArr items) ->
  Forall (fun order => is_object order = true) items ->
  let requests :=
    requests_from (cancel_request s env) (S (reads w))
      (filter (wanted symbol) items) in
  cancelAllOrders_of s env symbol w
  = (outcome (Promise_all
                (settlements s env (sent w ++ [fetch_orders s env w])
                   requests)),
     mkWorld (S (reads w) + List.length (filter (wanted symbol) items))
       (sent w ++ fetch_orders s env w :: requests) (replies w)).
Proof.
  intros Hfetch Hdata Hobj requests. subst requests.
  unfold fetch_orders, cancel_request in *.
  destruct s; cbn [cancelAllOrders_of orders_endpoint] in *.
  - unfold cancelAllOrders, getPendingOrders, run_body, cancelOrder.
    change (makeRequest env) with (makeRequest_of JavaScript env).
    bulk_steps Hfetch Hdata Hobj.
  - unfold IndexTs.cancelAllOrders, IndexTs.getPendingOrders,
      IndexTs.cancelOrder.
    change (IndexTs.makeRequest env) with (makeRequest_of TypeScript env).
    bulk_steps Hfetch Hdata Hobj.
Qed.

(** C6: once the list of open positions is there, [closeAllPositions]
    sends one close request for every position whose [symbol] is the
    argument, in the order of the list, and for every position when the
    argument is missing or empty; each request carries the [symbol] and the
    [positionSide] of its own position.  This holds in both servers. *)
Theorem closeAllPositions_dispatches (s : Source) (env : Env)
    (symbol : option string) (w : World) (positions : Value)
    (items : list Value) :
  outcome (axios env (sent w) (fetch_positions s env w)) = Ok positions ->
  getProp positions "data" = Ok (VArr items) ->
  Forall (fun pos => is_object pos = true) items ->
  let kept := filter (wanted symbol) items in
  sent (snd (closeAllPositions_of s env symbol w))
  = (sent w ++ fetch_positions s env w
       :: requests_from (close_request s env) (S (reads w)) kept)%list
  /\ (symbol = None \/ symbol = Some "" -> kept = items)
  /\ (forall text, symbol = Some text -> text <> "" ->
        kept = filter (fun pos => is_string (field pos "symbol") text) items)
  /\ (forall n pos,
        let c := close_request s env n pos in
        cfg_method c = "POST"
        /\ cfg_url c = BASE_URL ++ "/openApi/swap/v2/trade/closePosition"
        /\ Object.get (transmitted c) "symbol" = field pos "symbol"
        /\ Object.get (transmitted c) "positionSide"
           = field pos "positionSide").
Proof.
  intros Hfetch Hdata Hobj kept.
  rewrite (closeAllPositions_run s env symbol w positions items
             Hfetch Hdata Hobj).
  split; [reflexivity|]. split; [|split].
  - intros Hs. apply filter_all. intros pos _. unfold wanted.
    now destruct Hs as [-> | ->].
  - intros text -> Hs. apply filter_ext. intros pos. unfold wanted. simpl.
    destruct (String.eqb_spec text ""); [congruence|reflexivity].
  - intros n pos c. subst c. unfold close_request.
    destruct (config_of_target s env "POST"
                "/openApi/swap/v2/trade/closePosition"
                (Object.literal
                   [("symbol", field pos "symbol");
                    ("positionSide", field pos "positionSide")])
                (of_Z (Date_now env n))) as [-> ->].
    rewrite !transmitted_caller by discriminate.
    repeat split.
Qed.

Lemma sample_positions_are_objects :
  Forall (fun entry => is_object entry = true)
    [position "BTC-USDT" "LONG"; position "ETH-USDT" "SHORT";
     position "BTC-USDT" "SHORT"].
Proof. repeat constructor. Defined.

Lemma sample_orders_are_objects :
  Forall (fun entry => is_object entry = true)
    [order "BTC-USDT" "7001"; order "ETH-USDT" "7002"].
Proof. repeat constructor. Defined.

Lemma closeAllPositions_dispatches_witness :
  let env := sample_env positions_table in
  Forall
    (fun s =>
       map (fun c => (cfg_url c, Object.get (transmitted c) "symbol",
                      Object.get (transmitted c) "positionSide"))
         (sent (snd (closeAllPositions_of s env (Some "BTC-USDT") start)))
       = [ (BASE_URL ++ positions_endpoint s, VUndefined, VUndefined);
           (BASE_URL ++ "/openApi/swap/v2/trade/closePosition",
            VStr "BTC-USDT", VStr "LONG");
           (BASE_URL ++ "/openApi/swap/v2/trade/closePosition",
            VStr "BTC-USDT", VStr "SHORT") ])
    [JavaScript; TypeScript].
Proof.
  intros env. apply Forall_forall. intros s _.
  assert (outcome (axios env (sent start) (fetch_positions s env start))
          = Ok sample_positions) as Hfetch by (destruct s; reflexivity).
  destruct (closeAllPositions_dispatches s env (Some "BTC-USDT") start
              sample_positions _ Hfetch eq_refl sample_positions_are_objects)
    as [Hsent _].
  rewrite Hsent. destruct s; reflexivity.
Defined.

(** When the list cannot be fetched the operation is rejected, with the
    failure of the fetch as the call reports it, and no close call is
    made. *)
Lemma closeAllPositions_without_list (s : Source) (env : Env)
    (symbol : option string) (w : World) (e : Error) :
  outcome (axios env (sent w) (fetch_positions s env w)) = Throw e ->
  exists reported,
    outcome (settles s (axios env (sent w) (fetch_positions s env w)))
    = Throw reported
    /\ closeAllPositions_of s env symbol w
       = (Throw reported,
          mkWorld (S (reads w)) (sent w ++ [fetch_positions s env w])
            (replies w)).
Proof.
  intros Hfetch.
  pose proof (settles_is_ok s (axios env (sent w) (fetch_positions s env w)))
    as Hrej.
  rewrite Hfetch in Hrej. cbn [is_ok] in Hrej.
  destruct (outcome (settles s (axios env (sent w)
                                  (fetch_positions s env w))))
    as [v|reported] eqn:Hcall; [discriminate|].
  exists reported. split; [reflexivity|].
  unfold fetch_positions in *.
  destruct s; cbn [closeAllPositions_of positions_endpoint] in *.
  - unfold closeAllPositions, getOpenPositions, run_body.
    change (makeRequest env) with (makeRequest_of JavaScript env).
    unfold bind at 1. unfold call at 1. rewrite makeRequest_of_sent.
    cbv zeta. unfold bind at 1. unfold await at 1. unfold lift at 1.
    now rewrite Hcall.
  - unfold IndexTs.closeAllPositions, IndexTs.getOpenPositions.
    change (IndexTs.makeRequest env) with (makeRequest_of TypeScript env).
    unfold bind at 1. unfold call at 1. rewrite makeRequest_of_sent.
    cbv zeta. unfold bind at 1. unfold await at 1. unfold lift at 1.
    now rewrite Hcall.
Qed.

(** What one bulk operation does with its fan-out. *)
Lemma bulk_aggregate (s : Source) (env : Env) (history : list Config)
    (requests : list Config) :
  let calls := settlements s env history requests in
  let result := outcome (Promise_all calls) in
  (is_ok result = true <-> forall p, In p calls -> is_ok (outcome p) = true)
  /\ (forall values, result = Ok values -> map outcome calls = map Ok values)
  /\ (forall e, result = Throw e ->
        exists p, In p calls /\ outcome p = Throw e)
  /\ List.length calls = List.length requests.
Proof.
  intros calls result. subst result.
  destruct (Promise_all_outcome calls) as [Hok [Hval Herr]].
  split; [exact Hok|]. split; [exact Hval|]. split.
  - intros e He. destruct (Herr e He) as [p [Hp1 [Hp2 _]]]. now exists p.
  - subst calls. apply settlements_length.
Qed.

(** C7: in both servers a bulk operation succeeds exactly when every one
    of its close or cancel calls succeeds, and then yields their results in
    order; when one of them fails the whole operation is rejected with the
    reason of a failed call, and every entry has had its one call all the
    same. *)
Theorem bulk_all_or_nothing (s : Source) (env : Env) (symbol : option string)
    (w : World) :
  (forall listing items,
     outcome (axios env (sent w) (fetch_positions s env w)) = Ok listing ->
     getProp listing "data" = Ok (VArr items) ->
     Forall (fun entry => is_object entry = true) items ->
     let kept := filter (wanted symbol) items in
     let calls :=
       settlements s env (sent w ++ [fetch_positions s env w])
         (requests_from (close_request s env) (S (reads w)) kept) in
     let run := closeAllPositions_of s env symbol w in
     (is_ok (fst run) = true
      <-> forall p, In p calls -> is_ok (outcome p) = true)
     /\ (forall values, fst run = Ok values ->
           map outcome calls = map Ok values)
     /\ (forall e, fst run = Throw e ->
           exists p, In p calls /\ outcome p = Throw e)
     /\ List.length calls = List.length kept
     /\ List.length (sent (snd run))
        = (List.length (sent w) + 1 + List.length kept)%nat)
  /\ (forall listing items,
        outcome (axios env (sent w) (fetch_orders s env w)) = Ok listing ->
        getProp listing "data" = Ok (VArr items) ->
        Forall (fun entry => is_object entry = true) items ->
        let kept := filter (wanted symbol) items in
        let calls :=
          settlements s env (sent w ++ [fetch_orders s env w])
            (requests_from (cancel_request s env) (S (reads w)) kept) in
        let run := cancelAllOrders_of s env symbol w in
        (is_ok (fst run) = true
         <-> forall p, In p calls -> is_ok (outcome p) = true)
        /\ (forall values, fst run = Ok values ->
              map outcome calls = map Ok values)
        /\ (forall e, fst run = Throw e ->
              exists p, In p calls /\ outcome p = Throw e)
        /\ List.length calls = List.length kept
        /\ List.length (sent (snd run))
           = (List.length (sent w) + 1 + List.length kept)%nat).
Proof.
  split; intros listing items Hfetch Hdata Hobj kept calls run; subst run.
  - rewrite (closeAllPositions_run s env symbol w listing items
               Hfetch Hdata Hobj).
    cbn [fst snd sent]. fold kept.
    destruct (bulk_aggregate s env (sent w ++ [fetch_positions s env w])
                (requests_from (close_request s env) (S (reads w)) kept))
      as [Hok [Hval [Herr Hlen]]].
    fold calls in Hok, Hval, Herr, Hlen |- *.
    rewrite requests_from_length in Hlen.
    repeat (split; [assumption|]).
    rewrite length_app. simpl. rewrite requests_from_length. lia.
  - rewrite (cancelAllOrders_run s env symbol w listing items
               Hfetch Hdata Hobj).
    cbn [fst snd sent]. fold kept.
    destruct (bulk_aggregate s env (sent w ++ [fetch_orders s env w])
                (requests_from (cancel_request s env) (S (reads w)) kept))
      as [Hok [Hval [Herr Hlen]]].
    fold calls in Hok, Hval, Herr, Hlen |- *.
    rewrite requests_from_length in Hlen.
    repeat (split; [assumption|]).
    rewrite length_app. simpl. rewrite requests_from_length. lia.
Qed.

Lemma bulk_all_or_nothing_witness :
  let env := sample_env positions_table in
  Forall
    (fun s =>
       is_ok (fst (closeAllPositions_of s env None start)) = true
       /\ is_ok (fst (cancelAllOrders_of s env (Some "ETH-USDT") start))
          = true)
    [JavaScript; TypeScript].
Proof.
  intros env. apply Forall_forall. intros s _.
  destruct (bulk_all_or_nothing s env None start) as [Hclose _].
  destruct (bulk_all_or_nothing s env (Some "ETH-USDT") start)
    as [_ Hcancel].
  assert (outcome (axios env (sent start) (fetch_positions s env start))
          = Ok sample_positions) as Hp by (destruct s; reflexivity).
  assert (outcome (axios env (sent start) (fetch_orders s env start))
          = Ok sample_orders) as Ho by (destruct s; reflexivity).
  destruct (Hclose sample_positions _ Hp eq_refl
              sample_positions_are_objects) as [[_ Hc] _].
  destruct (Hcancel sample_orders _ Ho eq_refl
              sample_orders_are_objects) as [[_ Hd] _].
  split.
  - apply Hc. intros p Hin. destruct s; simpl in Hin;
      destruct Hin as [<-|[<-|[<-|[]]]]; reflexivity.
  - apply Hd. intros p Hin. destruct s; simpl in Hin;
      destruct Hin as [<-|[]]; reflexivity.
Defined.

(** One refused close call among three: all three calls are made, the
    operation is rejected with the refusal, and the two results that did
    arrive are not reported. *)
Example closeAllPositions_one_refusal :
  let run := closeAllPositions (sample_env refusing_table) None start in
  List.length (sent (snd run)) = 4%nat
  /\ fst run
     = Throw (mkError "AxiosError" "Request failed with status code 400" None).
Proof. vm_compute. split; reflexivity. Qed.

(** ** The price-movement trigger *)

Lemma SFcompare_antisym (x y : spec_float) :
  SFcompare y x = option_map CompOpp (SFcompare x y).
Proof.
  destruct x as [sx|sx| |sx mx ex], y as [sy|sy| |sy my ey]; simpl;
    try reflexivity;
    try (destruct sx; reflexivity); try (destruct sy; reflexivity);
    try (destruct sx, sy; reflexivity).
  pose proof (Pos.compare_cont_antisym mx my Eq) as Hm. simpl in Hm.
  destruct sx, sy; try reflexivity;
    rewrite (Z.compare_antisym ex ey);
    destruct (ex ?= ey)%Z; simpl; try reflexivity;
    rewrite <- Hm; now rewrite ?CompOpp_involutive.
Qed.

Lemma num_lt_asym (x y : Number) : num_lt x y = true -> num_lt y x = false.
Proof.
  unfold num_lt, SFltb. rewrite (SFcompare_antisym x y).
  destruct (SFcompare x y) as [[]|]; simpl; congruence.
Qed.

Lemma num_eq_not_lt (x y : Number) :
  SFeqb x y = true -> num_lt x y = false /\ num_lt y x = false.
Proof.
  unfold num_lt, SFltb, SFeqb. rewrite (SFcompare_antisym x y).
  destruct (SFcompare x y) as [[]|]; simpl; try discriminate. now split.
Qed.

Lemma parseFloat_fixed_size : parseFloat (VNum fixed_size) = fixed_size.
Proof. vm_compute. reflexivity. Qed.

(** The steps of the trigger, both requests answered. *)
Ltac trigger_fetches Hq Hp Hk Hd Hi Hc :=
  unfold bind at 1; unfold try_catch;
  unfold bind at 1; unfold call at 1; rewrite makeRequest_of_sent; cbv zeta;
  unfold bind at 1; unfold await at 1; unfold lift at 1;
  rewrite (settles_ok _ _ _ Hq);
  unfold bind at 1; unfold lift at 1; rewrite Hp;
  unfold bind at 1; unfold call at 1; rewrite makeRequest_of_sent; cbv zeta;
  simpl reads; simpl sent; simpl replies;
  unfold bind at 1; unfold await at 1; unfold lift at 1;
  rewrite (settles_ok _ _ _ Hk);
  unfold bind at 1; unfold lift at 1; rewrite Hd;
  unfold bind at 1; unfold lift at 1; rewrite Hi;
  unfold bind at 1; unfold lift at 1; rewrite Hc.

Ltac trigger_order :=
  unfold call; rewrite makeRequest_of_sent; cbv zeta;
  simpl reads; simpl sent; simpl replies;
  unfold await, lift; rewrite <- app_assoc; reflexivity.

Lemma simpleTradingStrategy_run (s : Source) (env : Env) (symbol : Value)
    (w : World) (tickerData price klineData close : Value) :
  let quote := quote_request s env symbol w in
  let klines := klines_request s env symbol w in
  outcome (axios env (sent w) quote) = Ok tickerData ->
  getProp tickerData "price" = Ok price ->
  outcome (axios env (sent w ++ [quote]) klines) = Ok klineData ->
  candle_close klineData = Ok close ->
  let fetched := mkWorld (S (S (reads w))) (sent w ++ [quote; klines])
                   (replies w) in
  let place side :=
    (outcome (settles s (axios env (sent fetched)
                           (order_request s env symbol side w))),
     mkWorld (S (S (S (reads w))))
       (sent fetched ++ [order_request s env symbol side w]) (replies w)) in
  simpleTradingStrategy_of s env symbol w
  = if num_gt (parseFloat price) (parseFloat close) then place "BUY"
    else if num_lt (parseFloat price) (parseFloat close) then place "SELL"
    else (Ok VNull, fetched).
Proof.
  intros quote klines Hq Hp Hk Hc fetched place.
  unfold candle_close in Hc.
  destruct (getProp klineData "data") as [data|] eqn:Hd; [|discriminate].
  destruct (getIndex data 0) as [candle|] eqn:Hi; [|discriminate].
  subst place fetched quote klines.
  unfold quote_request, klines_request, order_request in *.
  destruct s;
    cbn [simpleTradingStrategy_of order_endpoint order_type_key] in *.
  - unfold simpleTradingStrategy.
    change (makeRequest env) with (makeRequest_of JavaScript env).
    trigger_fetches Hq Hp Hk Hd Hi Hc.
    unfold placeMarketOrder. rewrite parseFloat_fixed_size.
    change (makeRequest env) with (makeRequest_of JavaScript env).
    simpl sent.
    destruct (num_gt (parseFloat price) (parseFloat close));
      [trigger_order|].
    destruct (num_lt (parseFloat price) (parseFloat close));
      [trigger_order|].
    unfold ret, await, lift, resolved. simpl.
    rewrite <- app_assoc. reflexivity.
  - unfold IndexTs.simpleTradingStrategy.
    change (IndexTs.makeRequest env) with (makeRequest_of TypeScript env).
    trigger_fetches Hq Hp Hk Hd Hi Hc.
    unfold IndexTs.placeMarketOrder.
    change (IndexTs.makeRequest env) with (makeRequest_of TypeScript env).
    simpl sent.
    destruct (num_gt (parseFloat price) (parseFloat close));
      [trigger_order|].
    destruct (num_lt (parseFloat price) (parseFloat close));
      [trigger_order|].
    unfold ret, await, lift, resolved. simpl.
    rewrite <- app_assoc. reflexivity.
Qed.

(** C8: in both servers, with the current price and the previous candle's
    close fetched, the trigger places one market order of size 0.01, a BUY
    when the price is above the close and a SELL when it is below, and when
    the two are equal it places no order and returns [null]. *)
Theorem simpleTradingStrategy_decides (s : Source) (env : Env)
    (symbol : Value) (w : World)
    (tickerData price klineData close : Value) :
  let quote := quote_request s env symbol w in
  let klines := klines_request s env symbol w in
  outcome (axios env (sent w) quote) = Ok tickerData ->
  getProp tickerData "price" = Ok price ->
  outcome (axios env (sent w ++ [quote]) klines) = Ok klineData ->
  candle_close klineData = Ok close ->
  let currentPrice := parseFloat price in
  let previousPrice := parseFloat close in
  let run := simpleTradingStrategy_of s env symbol w in
  let order side := order_request s env symbol side w in
  let placed side :=
    outcome (settles s (axios env (sent w ++ [quote; klines]) (order side))) in
  (num_gt currentPrice previousPrice = true ->
   sent (snd run) = (sent w ++ [quote; klines; order "BUY"])%list
   /\ fst run = placed "BUY")
  /\ (num_lt currentPrice previousPrice = true ->
      sent (snd run) = (sent w ++ [quote; klines; order "SELL"])%list
      /\ fst run = placed "SELL")
  /\ (SFeqb currentPrice previousPrice = true ->
      sent (snd run) = (sent w ++ [quote; klines])%list
      /\ fst run = Ok VNull)
  /\ (forall side,
        cfg_method (order side) = "POST"
        /\ cfg_url (order side) = BASE_URL ++ order_endpoint s
        /\ Object.get (transmitted (order side)) "side" = VStr side
        /\ Object.get (transmitted (order side)) (order_type_key s)
           = VStr "MARKET"
        /\ Object.get (transmitted (order side)) "quantity" = VNum fixed_size
        /\ number_toString fixed_size = "0.01").
Proof.
  intros quote klines Hq Hp Hk Hc currentPrice previousPrice run order placed.
  subst run placed.
  rewrite (simpleTradingStrategy_run s env symbol w tickerData price klineData
             close Hq Hp Hk Hc).
  fold currentPrice previousPrice quote klines.
  split; [|split; [|split]].
  - intros ->. simpl. split; [|reflexivity].
    now rewrite <- app_assoc.
  - intros Hlt.
    assert (num_gt currentPrice previousPrice = false) as ->
      by (apply num_lt_asym, Hlt).
    rewrite Hlt. simpl. split; [|reflexivity]. now rewrite <- app_assoc.
  - intros Heq. destruct (num_eq_not_lt _ _ Heq) as [H1 H2].
    unfold num_gt, num_lt in *. rewrite H2, H1. simpl. now split.
  - intros side. subst order. unfold order_request.
    match goal with
    | |- context [config_of s env ?m ?e ?p ?t] =>
        destruct (config_of_target s env m e p t) as [-> ->]
    end.
    rewrite !transmitted_caller by (destruct s; discriminate).
    destruct s; repeat split.
Qed.

Lemma simpleTradingStrategy_decides_witness :
  let env := sample_env (quotes_table "101.5" "100") in
  Forall
    (fun s =>
       let run := simpleTradingStrategy_of s env (VStr "BTC-USDT") start in
       map (fun c => (cfg_method c, cfg_url c)) (sent (snd run))
       = [ ("GET", BASE_URL ++ "/openApi/swap/v2/quote/price");
           ("GET", BASE_URL ++ "/openApi/swap/v2/quote/klines");
           ("POST", BASE_URL ++ order_endpoint s) ]
       /\ fst run = outcome accepted)
    [JavaScript; TypeScript].
Proof.
  intros env. apply Forall_forall. intros s _ run.
  assert (outcome (axios env (sent start)
                     (quote_request s env (VStr "BTC-USDT") start))
          = Ok (VObj [("symbol", VStr "BTC-USDT"); ("price", VStr "101.5")]))
    as Hq by (destruct s; reflexivity).
  assert (outcome (axios env
                     (sent start
                        ++ [quote_request s env (VStr "BTC-USDT") start])
                     (klines_request s env (VStr "BTC-USDT") start))
          = Ok (VObj [("data",
                 VArr [VArr [VNum (of_Z 1700000000000); VStr "100";
                             VStr "102"; VStr "99"; VStr "100"; VStr "12"];
                       VArr [VNum (of_Z 1700000060000); VStr "101";
                             VStr "101"; VStr "101"; VStr "101";
                             VStr "3"]])]))
    as Hk by (destruct s; reflexivity).
  destruct (simpleTradingStrategy_decides s env (VStr "BTC-USDT") start
              _ (VStr "101.5") _ (VStr "100") Hq eq_refl Hk eq_refl)
    as [Hbuy _].
  destruct (Hbuy eq_refl) as [Hsent Hres].
  subst run. rewrite Hsent, Hres. destruct s; split; reflexivity.
Defined.
(** ** The list helpers *)

(** C10: each list helper is the single GET to its first endpoint; the
    statement after the [return] is never run, so the swap endpoints it names
    are not requested. *)
Theorem list_helpers_first_endpoint (env : Env) :
  getOpenPositions env
  = makeRequest env "GET" "/openApi/contract/v1/allPosition" []
  /\ getPendingOrders env
     = makeRequest env "GET" "/openApi/contract/v1/allOrders" []
  /\ forall w,
       sent (snd (getOpenPositions env w))
       = (sent w ++ [fetch_positions JavaScript env w])%list
       /\ cfg_url (fetch_positions JavaScript env w)
          = "https://open-api.bingx.com/openApi/contract/v1/allPosition"
       /\ cfg_url (fetch_positions JavaScript env w)
          <> BASE_URL ++ "/openApi/swap/v2/user/positions"
       /\ sent (snd (getPendingOrders env w))
          = (sent w ++ [fetch_orders JavaScript env w])%list
       /\ cfg_url (fetch_orders JavaScript env w)
          = "https://open-api.bingx.com/openApi/contract/v1/allOrders"
       /\ cfg_url (fetch_orders JavaScript env w)
          <> BASE_URL ++ "/openApi/swap/v2/trade/openOrders".
Proof.
  split; [reflexivity|]. split; [reflexivity|].
  intros w. repeat split; discriminate.
Qed.

(** ** The chat commands *)

Lemma truthy_nth (args : list string) (i : nat) (s : string) :
  Bot.truthy (nth_error args i) = Some s -> nth i args "" = s.
Proof.
  unfold Bot.truthy. destruct (nth_error args i) as [a|] eqn:N; [|discriminate].
  rewrite (nth_error_nth _ _ _ N). destruct (ToBoolean (VStr a)); congruence.
Qed.

Ltac refuse :=
  intros _; eexists; split; [|reflexivity];
  unfold validation_replies; simpl In; tauto.

Ltac required a E :=
  match goal with
  | |- context [Bot.truthy (nth_error ?args ?i)] =>
      destruct (Bot.truthy (nth_error args i)) as [a|] eqn:E;
      cbn [andb orb negb]; [|try refuse]
  end.

Lemma market_checks (env : Env) (text : string) (w : World) :
  passes_validation "market" text = false ->
  exists msg, In msg validation_replies
    /\ Bot.market env text w
       = (Ok tt, mkWorld (reads w) (sent w) (replies w ++ [msg])).
Proof.
  change (passes_validation "market" text)
    with (let args := Bot.arguments text in
          present (nth_error args 0)
          && (present (nth_error args 1)
              && (present (nth_error args 2) && true))
          && (valid_side (nth 1 args "") && valid_quantity (nth 2 args ""))).
  unfold Bot.market, present, valid_side, valid_quantity. cbv zeta.
  generalize (Bot.arguments text) as args. intros args.
  required symbol E0. required side E1. required quantity E2.
  rewrite (truthy_nth _ _ _ E1), (truthy_nth _ _ _ E2).
  destruct (array_includes ["BUY"; "SELL"] (toUpperCase side));
    cbn [andb orb negb]; [|refuse].
  destruct (isNaN (parseFloat (VStr quantity))); cbn [andb orb negb];
    [refuse|].
  destruct (num_le (parseFloat (VStr quantity)) Bot.zero);
    cbn [andb orb negb]; [refuse|discriminate].
Qed.

Lemma limit_checks (env : Env) (text : string) (w : World) :
  passes_validation "limit" text = false ->
  exists msg, In msg validation_replies
    /\ Bot.limit env text w
       = (Ok tt, mkWorld (reads w) (sent w) (replies w ++ [msg])).
Proof.
  change (passes_validation "limit" text)
    with (let args := Bot.arguments text in
          present (nth_error args 0)
          && (present (nth_error args 1)
              && (present (nth_error args 2)
                  && (present (nth_error args 3) && true)))
          && (valid_side (nth 1 args "") && valid_quantity (nth 2 args ""))).
  unfold Bot.limit, present, valid_side, valid_quantity. cbv zeta.
  generalize (Bot.arguments text) as args. intros args.
  required symbol E0. required side E1. required quantity E2.
  required price E3.
  rewrite (truthy_nth _ _ _ E1), (truthy_nth _ _ _ E2).
  destruct (array_includes ["BUY"; "SELL"] (toUpperCase side));
    cbn [andb orb negb]; [|refuse].
  destruct (isNaN (parseFloat (VStr quantity))); cbn [andb orb negb];
    [refuse|].
  destruct (num_le (parseFloat (VStr quantity)) Bot.zero);
    cbn [andb orb negb]; [refuse|discriminate].
Qed.

Lemma two_arguments_check (name : string) (text : string) :
  required_arguments name = 2%nat -> places_order name = false ->
  passes_validation name text
  = present (nth_error (Bot.arguments text) 0)
    && present (nth_error (Bot.arguments text) 1).
Proof.
  intros Hr Hp. unfold passes_validation. rewrite Hr, Hp. simpl.
  now rewrite !andb_true_r.
Qed.

Ltac two_arguments :=
  rewrite two_arguments_check by reflexivity;
  unfold present; cbv zeta;
  match goal with
  | |- context [Bot.arguments ?text] =>
      generalize (Bot.arguments text) as args; intros args
  end;
  let a := fresh "a" in let b := fresh "b" in
  let Ea := fresh "E" in let Eb := fresh "E" in
  required a Ea; required b Eb; discriminate.

(** Every command checks its arguments before it calls the exchange: when
    a required argument is missing or empty, and for the order commands when
    the side is neither BUY nor SELL or when [parseFloat] reads no positive
    number off the quantity, the command answers with a usage or error
    message and sends nothing. *)
Lemma commands_check_first (env : Env) (name : string)
    (handler : string -> M unit) (text : string) (w : World) :
  In (name, handler) (Bot.bot_commands env) ->
  passes_validation name text = false ->
  exists msg, In msg validation_replies
    /\ handler text w
       = (Ok tt, mkWorld (reads w) (sent w) (replies w ++ [msg])).
Proof.
  unfold Bot.bot_commands. simpl In.
  intros [E|[E|[E|[E|[E|[E|[E|[E|[E|[E|[E|[E|[E|[E|[]]]]]]]]]]]]]]];
    inversion E; subst; clear E;
    try (now apply market_checks); try (now apply limit_checks);
    try discriminate.
  - unfold Bot.close. two_arguments.
  - unfold Bot.cancel. two_arguments.
  - change (passes_validation "trailingstop" text)
      with (let args := Bot.arguments text in
            present (nth_error args 0)
            && (present (nth_error args 1)
                && (present (nth_error args 2) && true)) && true).
    unfold Bot.trailingstop, present. cbv zeta.
    generalize (Bot.arguments text) as args. intros args.
    required a E0. required b E1. required c E2. discriminate.
  - unfold Bot.sl. two_arguments.
  - unfold Bot.tp. two_arguments.
Qed.

Lemma commands_check_first_witness :
  let env := sample_env [] in
  exists msg,
    In msg validation_replies
    /\ Bot.market env "/market BTC-USDT BUY abc" start
       = (Ok tt, mkWorld 0 [] [msg]).
Proof.
  intros env.
  apply (commands_check_first env "market" (Bot.market env)
           "/market BTC-USDT BUY abc" start).
  - simpl. tauto.
  - reflexivity.
Defined.

(** The two order commands call the exchange once whenever their checks
    pass. *)
Lemma market_places_order (env : Env) (text : string) (w : World) :
  passes_validation "market" text = true ->
  exists c,
    sent (snd (Bot.market env text w)) = (sent w ++ [c])%list
    /\ cfg_method c = "POST"
    /\ cfg_url c = BASE_URL ++ "/openApi/contract/v1/trade/order"
    /\ Object.get (transmitted c) "quantity"
       = VNum (parseFloat
                 (VNum (parseFloat (VStr (nth 2 (Bot.arguments text) ""))))).
Proof.
  change (passes_validation "market" text)
    with (let args := Bot.arguments text in
          present (nth_error args 0)
          && (present (nth_error args 1)
              && (present (nth_error args 2) && true))
          && (valid_side (nth 1 args "") && valid_quantity (nth 2 args ""))).
  unfold Bot.market, present, valid_side, valid_quantity. cbv zeta.
  generalize (Bot.arguments text) as args. intros args.
  destruct (Bot.truthy (nth_error args 0)) as [symbol|] eqn:E0;
    [|discriminate].
  destruct (Bot.truthy (nth_error args 1)) as [side|] eqn:E1;
    [|discriminate].
  destruct (Bot.truthy (nth_error args 2)) as [quantity|] eqn:E2;
    [|discriminate].
  rewrite (truthy_nth _ _ _ E1), (truthy_nth _ _ _ E2).
  cbn [andb]. intros H. apply andb_true_iff in H as [Hside Hq].
  apply andb_true_iff in Hq as [Hnan Hpos].
  rewrite Hside. apply negb_true_iff in Hnan, Hpos. rewrite Hnan, Hpos.
  cbn [negb orb].
  unfold Bot.answer, try_catch, Bot.run, placeMarketOrder.
  unfold bind at 1. unfold bind at 1. unfold call at 1.
  rewrite makeRequest_sent. cbv zeta.
  match goal with
  | |- context [request_config ?e ?m ?u ?ps ?t] =>
      exists (request_config e m u ps t)
  end.
  split.
  - unfold bind, await, lift.
    destruct (outcome (axios env (sent w) _)); reflexivity.
  - split; [reflexivity|]. split; [reflexivity|].
    rewrite transmitted_request. unfold merged.
    now rewrite !get_define_other, !get_spread by discriminate.
Qed.

(** C9, at the message "/market BTC-USDT BUY 1x": the quantity 1x is not a
    number, yet [parseFloat] reads the 1 at its head, the check passes and an
    order for the quantity 1 is sent; the reply reports the order as
    placed. *)
Theorem market_reads_number_prefix :
  let env := sample_env (quotes_table "101.5" "100") in
  let run := Bot.market env "/market BTC-USDT BUY 1x" start in
  Bot.arguments "/market BTC-USDT BUY 1x" = ["BTC-USDT"; "BUY"; "1x"]
  /\ numeric_text "1x" = false
  /\ number_toString (parseFloat (VStr "1x")) = "1"
  /\ map (fun c => (cfg_method c, cfg_url c,
                    Object.get (transmitted c) "side",
                    Object.get (transmitted c) "quantity"))
       (sent (snd run))
     = [ ("POST", BASE_URL ++ "/openApi/contract/v1/trade/order",
          VStr "BUY", VNum (of_Z 1)) ]
  /\ List.length (replies (snd run)) = 1%nat
  /\ Forall (fun text => starts_with "Market order placed:" text = true)
       (replies (snd run)).
Proof. vm_compute. repeat split. repeat constructor. Qed.

(** ** The dispatcher of [index.ts] *)

Lemma IndexTs_makeRequest_sent (env : Env) (method endpoint : string)
    (params : Obj) (w : World) :
  sent (snd (IndexTs.makeRequest env method endpoint params w))
  = (sent w
       ++ [IndexTs.request_config env method endpoint params
             (of_Z (Date_now env (reads w)))])%list.
Proof.
  change (IndexTs.makeRequest env) with (makeRequest_of TypeScript env).
  now rewrite makeRequest_of_sent.
Qed.

(** C4, in [index.ts]: there is no case for a GET without parameters; the
    signature is always taken over the merged parameters, and these hold
    the API key, so such a GET is signed over the string
    [apiKey=<key>&timestamp=<reading>] and not over [timestamp=<reading>]. *)
Theorem IndexTs_makeRequest_signs_api_key :
  (forall env endpoint w,
     let t := of_Z (Date_now env (reads w)) in
     let signed := [("timestamp", VNum t); ("apiKey", VStr (API_KEY env))] in
     exists c,
       sent (snd (IndexTs.makeRequest env "GET" endpoint [] w))
       = (sent w ++ [c])%list
       /\ Object.get (transmitted c) "signature"
          = VStr (IndexTs.generateSignature env signed (SECRET_KEY env))
       /\ IndexTs.queryString signed
          = "apiKey=" ++ API_KEY env ++ "&timestamp=" ++ ToString (VNum t))
  /\ (let env := sample_env [] in
      let c := IndexTs.request_config env "GET" "/openApi/swap/v2/user/balance"
                 [] (of_Z 1700000000000) in
      Object.get (transmitted c) "signature"
      = VStr "45f02d11c1015c49e4bb807f1c350e21ed08e91c269df2b02fb26753dda03e78"
      /\ Object.get
           (transmitted
              (request_config env "GET" "/openApi/swap/v2/user/balance" []
                 (of_Z 1700000000000)))
           "signature"
         = VStr
             "d615d05216c634afd48df5e1fc52c0d95b77892f19502e1b619f391bc9d68205"
      /\ Hex_stringify
           (Crypto.hmac_sha256_text "timestamp=1700000000000" "secret")
         = "d615d05216c634afd48df5e1fc52c0d95b77892f19502e1b619f391bc9d68205").
Proof.
  split.
  - intros env endpoint w t signed. eexists.
    rewrite IndexTs_makeRequest_sent. split; [reflexivity|].
    rewrite IndexTs_transmitted_request, get_define_same.
    split; reflexivity.
  - cbv zeta. do 2 (split; [vm_compute; reflexivity|]).
    vm_compute; reflexivity.
Qed.

(** C5, in [index.ts]: the request has no header; the API key is one of the
    transmitted parameters, under the name [apiKey], and is signed with
    them. *)
Theorem IndexTs_makeRequest_transmits_api_key (env : Env)
    (method endpoint : string) (params : Obj) (w : World) :
  let t := of_Z (Date_now env (reads w)) in
  let c := IndexTs.request_config env method endpoint params t in
  sent (snd (IndexTs.makeRequest env method endpoint params w))
  = (sent w ++ [c])%list
  /\ cfg_headers c = []
  /\ In "apiKey" (map fst (transmitted c))
  /\ Object.get (transmitted c) "apiKey" = VStr (API_KEY env)
  /\ Object.get (transmitted c) "signature"
     = VStr (IndexTs.generateSignature env
               (Object.define (merged params t) "apiKey" (VStr (API_KEY env)))
               (SECRET_KEY env))
  /\ cfg_headers (request_config env method endpoint params t)
     = [("X-BX-APIKEY", VStr (API_KEY env))].
Proof.
  intros t c. subst c. rewrite IndexTs_makeRequest_sent.
  split; [reflexivity|]. split; [reflexivity|].
  rewrite IndexTs_transmitted_request.
  split; [rewrite !keys_define; tauto|].
  split; [now rewrite get_define_other, get_define_same by discriminate|].
  split; [now rewrite get_define_same|].
  unfold request_config. now destruct (String.eqb method "GET").
Qed.
(** C1, in [index.ts]: the signer writes a value into the signed string as
    it is, without percent-encoding it.  The route [/price/:symbol] hands
    the symbol of the address to the dispatcher, so the request for a
    symbol with a space, say, is signed over a string that holds the space,
    where the canonical string of the same parameters holds [%20]; the two
    digests differ.  The signer of the JavaScript server signs the
    canonical string of these parameters. *)
Theorem IndexTs_generateSignature_unencoded :
  (forall env symbol p,
     let t := of_Z (Date_now env (reads (world p))) in
     let signed :=
       [("symbol", VStr symbol); ("timestamp", VNum t);
        ("apiKey", VStr (API_KEY env))] in
     exists c,
       sent (world (snd (IndexTsApp.get_price env symbol p)))
       = (sent (world p) ++ [c])%list
       /\ cfg_url c = BASE_URL ++ "/openApi/swap/v2/quote/price"
       /\ Object.get (transmitted c) "signature"
          = VStr (IndexTs.generateSignature env signed (SECRET_KEY env))
       /\ IndexTs.generateSignature env signed (SECRET_KEY env)
          = Hex_stringify
              (HmacSHA256 env
                 ("apiKey=" ++ API_KEY env ++ "&symbol=" ++ symbol
                    ++ "&timestamp=" ++ ToString (VNum t))
                 (SECRET_KEY env)))
  /\ (let env := sample_env [] in
      let signed :=
        [("symbol", VStr "BTC USDT"); ("timestamp", VNum (of_Z 1700000000000));
         ("apiKey", VStr "api-key")] in
      map (fun c => Object.get (transmitted c) "signature")
        (sent (world (snd (IndexTsApp.get_price env "BTC USDT" idle))))
      = [VStr (IndexTs.generateSignature env signed "secret")]
      /\ IndexTs.queryString signed
         = "apiKey=api-key&symbol=BTC USDT&timestamp=1700000000000"
      /\ canonical_string signed
         = "apiKey=api-key&symbol=BTC%20USDT&timestamp=1700000000000"
      /\ IndexTs.generateSignature env signed "secret"
         = "5e276767a543afaf7f1139ecf6e836c14c46768df4f99236103916286dfd658d"
      /\ Hex_stringify
           (Crypto.hmac_sha256_text (canonical_string signed) "secret")
         = "2381a48b3c781d6f6988313b4ff42b8d13b1f9ff612fd46f2dedd1e960da1833"
      /\ generateSignature env signed "secret"
         = "2381a48b3c781d6f6988313b4ff42b8d13b1f9ff612fd46f2dedd1e960da1833").
Proof.
  split.
  - intros env symbol p t signed.
    exists (IndexTs.request_config env "GET" "/openApi/swap/v2/quote/price"
              (Object.literal [("symbol", VStr symbol)]) t).
    split.
    + unfold IndexTsApp.get_price, IndexTsApp.respond, in_world, Bot.run.
      unfold bind, call.
      change (IndexTs.makeRequest env) with (makeRequest_of TypeScript env).
      rewrite makeRequest_of_sent. cbv zeta. unfold await, lift.
      match goal with
      | |- context [outcome ?a] => destruct (outcome a)
      end; reflexivity.
    + split; [reflexivity|].
      rewrite IndexTs_transmitted_request, get_define_same.
      split; reflexivity.
  - cbv zeta. split; [reflexivity|].
    do 4 (split; [vm_compute; reflexivity|]). vm_compute; reflexivity.
Qed.

(** * More of the code *)

(** ** The shape of a signature *)

Lemma round_length (state : list N) (kw : N * N) :
  List.length state = 8%nat -> List.length (Crypto.round state kw) = 8%nat.
Proof.
  intros H. do 9 (destruct state as [|? state]; try discriminate).
  reflexivity.
Qed.

Lemma rounds_length (kws : list (N * N)) (state : list N) :
  List.length state = 8%nat ->
  List.length (fold_left Crypto.round kws state) = 8%nat.
Proof.
  revert state; induction kws as [|kw r IH]; intros state H; simpl; [exact H|].
  apply IH, round_length, H.
Qed.

Lemma compress_length (state block : list N) :
  List.length state = 8%nat ->
  List.length (Crypto.compress state block) = 8%nat.
Proof.
  intros H. unfold Crypto.compress.
  rewrite length_map, length_combine, rounds_length by exact H.
  rewrite H. reflexivity.
Qed.

Lemma sha256_length (bytes : list N) :
  List.length (Crypto.sha256 bytes) = 32%nat.
Proof.
  unfold Crypto.sha256.
  set (blocks := Crypto.blocks_of _ _).
  assert (List.length (fold_left Crypto.compress blocks Crypto.sha_init)
          = 8%nat) as H.
  { generalize Crypto.sha_init (eq_refl : List.length Crypto.sha_init = 8%nat).
    induction blocks as [|b r IH]; intros state Hs; simpl; [exact Hs|].
    apply IH, compress_length, Hs. }
  destruct (fold_left Crypto.compress blocks Crypto.sha_init)
    as [|a [|b [|c [|d [|e [|f [|g [|h [|]]]]]]]]]; try discriminate.
  reflexivity.
Qed.

Lemma hmac_sha256_text_length (message key : string) :
  List.length (Crypto.hmac_sha256_text message key) = 32%nat.
Proof.
  unfold Crypto.hmac_sha256_text, Crypto.hmac_sha256.
  rewrite length_map. apply sha256_length.
Qed.

(** X5: With the keyed hash the servers run with, a signature is 64
    lowercase hexadecimal digits, whatever the mapping and the secret key,
    in both servers. *)
Theorem signature_shape (s : Source) (env : Env) (params : Obj)
    (secretKey : string) :
  real_hash env ->
  String.length (signature_of s env params secretKey) = 64%nat
  /\ all_chars lower_hex (signature_of s env params secretKey) = true.
Proof.
  unfold real_hash. intros Hh.
  destruct s; cbn [signature_of];
    unfold generateSignature, IndexTs.generateSignature; rewrite Hh;
    match goal with
    | |- context [Hex_stringify ?b] =>
        destruct (Hex_stringify_lower b) as [Hl Hn]
    end;
    rewrite Hl, Hn, hmac_sha256_text_length; split; reflexivity.
Qed.

Lemma signature_shape_witness :
  Forall
    (fun s =>
       let signature :=
         signature_of s (sample_env []) [("symbol", VStr "BTC-USDT")]
           "secret" in
       String.length signature = 64%nat
       /\ all_chars lower_hex signature = true)
    [JavaScript; TypeScript].
Proof.
  apply Forall_forall. intros s _.
  apply (signature_shape s (sample_env []) [("symbol", VStr "BTC-USDT")]
           "secret").
  reflexivity.
Defined.

(** ** More on the bulk operations *)

(** X6: [cancelAllOrders] sends one cancel request for every pending order
    whose [symbol] is the argument, in the order of the list, and for every
    order when the argument is missing or empty; each request carries the
    [symbol] and the [orderId] of its own order. This holds in both servers. *)
Theorem cancelAllOrders_dispatches (s : Source) (env : Env)
    (symbol : option string) (w : World) (orders : Value)
    (items : list Value) :
  outcome (axios env (sent w) (fetch_orders s env w)) = Ok orders ->
  getProp orders "data" = Ok (VArr items) ->
  Forall (fun order => is_object order = true) items ->
  let kept := filter (wanted symbol) items in
  sent (snd (cancelAllOrders_of s env symbol w))
  = (sent w ++ fetch_orders s env w
       :: requests_from (cancel_request s env) (S (reads w)) kept)%list
  /\ (symbol = None \/ symbol = Some "" -> kept = items)
  /\ (forall text, symbol = Some text -> text <> "" ->
        kept
        = filter (fun order => is_string (field order "symbol") text) items)
  /\ (forall n order,
        let c := cancel_request s env n order in
        cfg_method c = "POST"
        /\ cfg_url c = BASE_URL ++ "/openApi/swap/v2/trade/cancelOrder"
        /\ Object.get (transmitted c) "symbol" = field order "symbol"
        /\ Object.get (transmitted c) "orderId" = field order "orderId").
Proof.
  intros Hfetch Hdata Hobj kept.
  rewrite (cancelAllOrders_run s env symbol w orders items
             Hfetch Hdata Hobj).
  split; [reflexivity|]. split; [|split].
  - intros Hs. apply filter_all. intros order _. unfold wanted.
    now destruct Hs as [-> | ->].
  - intros text -> Hs. apply filter_ext. intros order. unfold wanted. simpl.
    destruct (String.eqb_spec text ""); [congruence|reflexivity].
  - intros n order c. subst c. unfold cancel_request.
    match goal with
    | |- context [config_of s env ?m ?e ?p ?t] =>
        destruct (config_of_target s env m e p t) as [-> ->]
    end.
    rewrite !transmitted_caller by discriminate.
    repeat split.
Qed.

Lemma cancelAllOrders_dispatches_witness :
  let env := sample_env positions_table in
  Forall
    (fun s =>
       map (fun c => (cfg_url c, Object.get (transmitted c) "symbol",
                      Object.get (transmitted c) "orderId"))
         (sent (snd (cancelAllOrders_of s env (Some "ETH-USDT") start)))
       = [ (BASE_URL ++ orders_endpoint s, VUndefined, VUndefined);
           (BASE_URL ++ "/openApi/swap/v2/trade/cancelOrder",
            VStr "ETH-USDT", VStr "7002") ])
    [JavaScript; TypeScript].
Proof.
  intros env. apply Forall_forall. intros s _.
  assert (outcome (axios env (sent start) (fetch_orders s env start))
          = Ok sample_orders) as Hfetch by (destruct s; reflexivity).
  destruct (cancelAllOrders_dispatches s env (Some "ETH-USDT") start
              sample_orders _ Hfetch eq_refl sample_orders_are_objects)
    as [Hsent _].
  rewrite Hsent. destruct s; reflexivity.
Defined.

(** The steps of a bulk operation when the list is not there. *)
Ltac bulk_stops Hlist :=
  unfold bind at 1; unfold call at 1; rewrite makeRequest_of_sent; cbv zeta;
  unfold bind at 1; unfold await at 1; unfold lift at 1;
  unfold fetched_list, listed in Hlist;
  let listing := fresh "listing" in
  match type of Hlist with
  | context [outcome ?p] => destruct (outcome p) as [listing|]
  end; [|now inversion Hlist];
  unfold bind at 1; unfold lift at 1;
  destruct (getProp listing "data"); [|now inversion Hlist];
  unfold bind at 1; unfold lift at 1; now rewrite Hlist.

Lemma closeAllPositions_stops (s : Source) (env : Env)
    (symbol : option string) (w : World) (e : Error) :
  fetched_list s env w "positions.data" (fetch_positions s env w)
  = Throw e ->
  closeAllPositions_of s env symbol w
  = (Throw e,
     mkWorld (S (reads w)) (sent w ++ [fetch_positions s env w]) (replies w)).
Proof.
  intros Hlist. unfold fetch_positions in *.
  destruct s; cbn [closeAllPositions_of positions_endpoint] in *.
  - unfold closeAllPositions, getOpenPositions, run_body.
    change (makeRequest env) with (makeRequest_of JavaScript env).
    bulk_stops Hlist.
  - unfold IndexTs.closeAllPositions, IndexTs.getOpenPositions.
    change (IndexTs.makeRequest env) with (makeRequest_of TypeScript env).
    bulk_stops Hlist.
Qed.

Lemma cancelAllOrders_stops (s : Source) (env : Env)
    (symbol : option string) (w : World) (e : Error) :
  fetched_list s env w "orders.data" (fetch_orders s env w) = Throw e ->
  cancelAllOrders_of s env symbol w
  = (Throw e,
     mkWorld (S (reads w)) (sent w ++ [fetch_orders s env w]) (replies w)).
Proof.
  intros Hlist. unfold fetch_orders in *.
  destruct s; cbn [cancelAllOrders_of orders_endpoint] in *.
  - unfold cancelAllOrders, getPendingOrders, run_body.
    change (makeRequest env) with (makeRequest_of JavaScript env).
    bulk_stops Hlist.
  - unfold IndexTs.cancelAllOrders, IndexTs.getPendingOrders.
    change (IndexTs.makeRequest env) with (makeRequest_of TypeScript env).
    bulk_stops Hlist.
Qed.

(** X7: When the request for the list fails, or its answer has no array
    under [data], a bulk operation is rejected with that failure and makes
    no close or cancel call: the request for the list is the only one sent.
    The failure is the error of the request, or the TypeError of reading
    [data] or [filter], or that of calling [positions.data.filter]
    (for the orders [orders.data.filter]), which is no function. This holds
    in both servers. *)
Theorem bulk_without_list (s : Source) (env : Env) (symbol : option string)
    (w : World) (e : Error) :
  (fetched_list s env w "positions.data" (fetch_positions s env w)
   = Throw e ->
   closeAllPositions_of s env symbol w
   = (Throw e,
      mkWorld (S (reads w)) (sent w ++ [fetch_positions s env w])
        (replies w)))
  /\ (fetched_list s env w "orders.data" (fetch_orders s env w)
      = Throw e ->
      cancelAllOrders_of s env symbol w
      = (Throw e,
         mkWorld (S (reads w)) (sent w ++ [fetch_orders s env w])
           (replies w))).
Proof.
  split; [apply closeAllPositions_stops|apply cancelAllOrders_stops].
Qed.

Lemma bulk_without_list_witness :
  let data_missing :=
    TypeError "Cannot read properties of undefined (reading 'filter')" in
  let not_found :=
    mkError "AxiosError" "Request failed with status code 404" None in
  let env := sample_env unlisted_table in
  let misshapen := sample_env misshapen_table in
  fst (closeAllPositions env (Some "BTC-USDT") start) = Throw data_missing
  /\ List.length (sent (snd (closeAllPositions env (Some "BTC-USDT") start)))
     = 1%nat
  /\ fst (cancelAllOrders env None start) = Throw not_found
  /\ List.length (sent (snd (cancelAllOrders env None start))) = 1%nat
  /\ Forall
       (fun s =>
          closeAllPositions_of s misshapen None start
          = (Throw (TypeError "positions.data.filter is not a function"),
             mkWorld 1 [fetch_positions s misshapen start] [])
          /\ cancelAllOrders_of s misshapen (Some "BTC-USDT") start
             = (Throw (TypeError "orders.data.filter is not a function"),
                mkWorld 1 [fetch_orders s misshapen start] []))
       [JavaScript; TypeScript].
Proof.
  intros data_missing not_found env misshapen.
  destruct (bulk_without_list JavaScript env (Some "BTC-USDT") start
              data_missing) as [Hclose _].
  destruct (bulk_without_list JavaScript env None start not_found)
    as [_ Hcancel].
  cbn [closeAllPositions_of cancelAllOrders_of] in Hclose, Hcancel.
  rewrite (Hclose eq_refl), (Hcancel eq_refl).
  do 4 (split; [reflexivity|]).
  apply Forall_forall. intros s _.
  destruct (bulk_without_list s misshapen None start
              (TypeError "positions.data.filter is not a function"))
    as [Hpositions _].
  destruct (bulk_without_list s misshapen (Some "BTC-USDT") start
              (TypeError "orders.data.filter is not a function"))
    as [_ Horders].
  split.
  - apply Hpositions. destruct s; reflexivity.
  - apply Horders. destruct s; reflexivity.
Defined.

(** X8: When no entry of the list matches, and in particular when the list
    is empty, a bulk operation makes no close or cancel call and is
    fulfilled with the empty array. This holds in both servers. *)
Theorem bulk_nothing_to_do (s : Source) (env : Env) (symbol : option string)
    (w : World) (listing : Value) (items : list Value) :
  getProp listing "data" = Ok (VArr items) ->
  Forall (fun entry => is_object entry = true) items ->
  filter (wanted symbol) items = [] ->
  (outcome (axios env (sent w) (fetch_positions s env w)) = Ok listing ->
   closeAllPositions_of s env symbol w
   = (Ok [],
      mkWorld (S (reads w)) (sent w ++ [fetch_positions s env w])
        (replies w)))
  /\ (outcome (axios env (sent w) (fetch_orders s env w)) = Ok listing ->
      cancelAllOrders_of s env symbol w
      = (Ok [],
         mkWorld (S (reads w)) (sent w ++ [fetch_orders s env w])
           (replies w))).
Proof.
  intros Hdata Hobj Hnone. split; intros Hfetch.
  - rewrite (closeAllPositions_run s env symbol w listing items
               Hfetch Hdata Hobj).
    rewrite Hnone. simpl. now rewrite Nat.add_0_r.
  - rewrite (cancelAllOrders_run s env symbol w listing items
               Hfetch Hdata Hobj).
    rewrite Hnone. simpl. now rewrite Nat.add_0_r.
Qed.

Lemma bulk_nothing_to_do_witness :
  let env := sample_env positions_table in
  Forall
    (fun s =>
       fst (closeAllPositions_of s env (Some "DOGE-USDT") start) = Ok []
       /\ List.length
            (sent (snd (closeAllPositions_of s env (Some "DOGE-USDT") start)))
          = 1%nat)
    [JavaScript; TypeScript].
Proof.
  intros env. apply Forall_forall. intros s _.
  assert (outcome (axios env (sent start) (fetch_positions s env start))
          = Ok sample_positions) as Hfetch by (destruct s; reflexivity).
  destruct (bulk_nothing_to_do s env (Some "DOGE-USDT") start
              sample_positions _ eq_refl sample_positions_are_objects
              eq_refl) as [Hclose _].
  rewrite (Hclose Hfetch). split; reflexivity.
Defined.

(** X9: When calls of a bulk operation fail, the operation is rejected with
    the reason of the call that failed first in time, which need not be the
    first in the list. This holds in both servers. *)
Theorem bulk_first_failure (s : Source) (env : Env) (symbol : option string)
    (w : World) (listing : Value) (items : list Value) (e : Error) :
  getProp listing "data" = Ok (VArr items) ->
  Forall (fun entry => is_object entry = true) items ->
  let kept := filter (wanted symbol) items in
  let earliest (calls : list (Promise Value)) :=
    exists p,
      In p calls /\ outcome p = Throw e
      /\ forall q, In q calls -> is_ok (outcome q) = false ->
                   (settled_at p <= settled_at q)%nat in
  (outcome (axios env (sent w) (fetch_positions s env w)) = Ok listing ->
   fst (closeAllPositions_of s env symbol w) = Throw e ->
   earliest
     (settlements s env (sent w ++ [fetch_positions s env w])
        (requests_from (close_request s env) (S (reads w)) kept)))
  /\ (outcome (axios env (sent w) (fetch_orders s env w)) = Ok listing ->
      fst (cancelAllOrders_of s env symbol w) = Throw e ->
      earliest
        (settlements s env (sent w ++ [fetch_orders s env w])
           (requests_from (cancel_request s env) (S (reads w)) kept))).
Proof.
  intros Hdata Hobj kept earliest. split; intros Hfetch.
  - rewrite (closeAllPositions_run s env symbol w listing items
               Hfetch Hdata Hobj).
    cbn [fst]. intros He.
    now apply (proj2 (proj2 (Promise_all_outcome _))).
  - rewrite (cancelAllOrders_run s env symbol w listing items
               Hfetch Hdata Hobj).
    cbn [fst]. intros He.
    now apply (proj2 (proj2 (Promise_all_outcome _))).
Qed.

Lemma bulk_first_failure_witness :
  let env := sample_env twice_refusing_table in
  let second :=
    mkError "AxiosError" "Request failed with status code 400"
      (Some (VObj [("code", VNum (of_Z 80001))])) in
  Forall
    (fun s =>
       fst (closeAllPositions_of s env None start) = Throw second
       /\ exists p,
            nth_error
              (settlements s env [fetch_positions s env start]
                 (requests_from (close_request s env) 1
                    [position "BTC-USDT" "LONG"; position "ETH-USDT" "SHORT";
                     position "BTC-USDT" "SHORT"]))
              1
            = Some p
            /\ outcome p = Throw second /\ settled_at p = 4%nat)
    [JavaScript; TypeScript].
Proof.
  intros env second. apply Forall_forall. intros s _.
  assert (outcome (axios env (sent start) (fetch_positions s env start))
          = Ok sample_positions) as Hfetch by (destruct s; reflexivity).
  assert (fst (closeAllPositions_of s env None start) = Throw second) as Hrun
    by (destruct s; reflexivity).
  split; [exact Hrun|].
  destruct (bulk_first_failure s env None start sample_positions _ second
              eq_refl sample_positions_are_objects) as [Hclose _].
  destruct (Hclose Hfetch Hrun) as [p [Hin [Hp Hmin]]].
  eexists. split; [destruct s; reflexivity|].
  split; destruct s; reflexivity.
Defined.

(** ** How a call of the dispatcher settles *)

Lemma settles_failure (s : Source) (p : Promise Value) (e : Error) :
  outcome p = Throw e -> outcome (settles s p) = Throw (reported s e).
Proof.
  intros H. destruct s; cbn [settles reported]; [exact H|].
  unfold IndexTs.rethrown. rewrite H.
  destruct (error_response e); [exact H|reflexivity].
Qed.

(** X10: The promise that a call of [makeRequest] returns settles when its
    request does and as its request does: with the data of the answer, or
    with the failure of the request. The one exception is in [index.ts],
    whose [catch] block reads [error.response.data] before it throws the
    error again: a failure without a response, as when the exchange was not
    reached, is replaced by the TypeError of that access. *)
Theorem makeRequest_settles (s : Source) (env : Env)
    (method endpoint : string) (params : Obj) (w : World) :
  let c := config_of s env method endpoint params
             (of_Z (Date_now env (reads w))) in
  let request := axios env (sent w) c in
  let returned := fst (makeRequest_of s env method endpoint params w) in
  settled_at returned = settled_at request
  /\ outcome returned
     = match outcome request with
       | Ok data => Ok data
       | Throw e => Throw (reported s e)
       end
  /\ (forall e, reported JavaScript e = e)
  /\ (forall e, error_response e = None ->
                reported TypeScript e = no_response_error)
  /\ (forall e data, error_response e = Some data ->
                     reported TypeScript e = e).
Proof.
  intros c request returned. subst returned.
  rewrite makeRequest_of_sent. cbv zeta. fold c request. cbn [fst].
  split; [|split; [|split; [|split]]].
  - destruct s; cbn [settles]; [reflexivity|]. unfold IndexTs.rethrown.
    destruct (outcome request) as [v|e]; [reflexivity|].
    now destruct (error_response e).
  - destruct (outcome request) as [v|e] eqn:E.
    + now apply settles_ok.
    + now apply settles_failure.
  - reflexivity.
  - intros e He. cbn [reported]. now rewrite He.
  - intros e data He. cbn [reported]. now rewrite He.
Qed.

(** ** More on the price-movement trigger *)

Lemma isNaN_not_lt (x y : Number) :
  isNaN x = true \/ isNaN y = true -> num_lt x y = false.
Proof.
  unfold num_lt, SFltb.
  intros [H|H]; [destruct x; try discriminate; reflexivity|].
  destruct y; try discriminate. destruct x; reflexivity.
Qed.

(** X11: When the current price or the previous close cannot be read as a
    number, so that [parseFloat] gives NaN, neither comparison holds: the
    trigger places no order and returns [null], as it does for equal prices.
    This holds in both servers. *)
Theorem simpleTradingStrategy_unreadable_price (s : Source) (env : Env)
    (symbol : Value) (w : World)
    (tickerData price klineData close : Value) :
  let quote := quote_request s env symbol w in
  let klines := klines_request s env symbol w in
  outcome (axios env (sent w) quote) = Ok tickerData ->
  getProp tickerData "price" = Ok price ->
  outcome (axios env (sent w ++ [quote]) klines) = Ok klineData ->
  candle_close klineData = Ok close ->
  isNaN (parseFloat price) = true \/ isNaN (parseFloat close) = true ->
  simpleTradingStrategy_of s env symbol w
  = (Ok VNull,
     mkWorld (S (S (reads w))) (sent w ++ [quote; klines]) (replies w)).
Proof.
  intros quote klines Hq Hp Hk Hc Hnan.
  rewrite (simpleTradingStrategy_run s env symbol w tickerData price klineData
             close Hq Hp Hk Hc).
  unfold num_gt. rewrite !isNaN_not_lt by tauto. reflexivity.
Qed.

Ltac trigger_case :=
  unfold bind at 1; unfold lift at 1;
  match goal with
  | |- _ = match ?r with Ok _ => _ | Throw _ => _ end =>
      destruct r; [|reflexivity]
  end; cbv beta iota.

Ltac trigger_await :=
  unfold bind at 1; unfold await at 1; unfold lift at 1;
  match goal with
  | |- _ = match ?r with Ok _ => _ | Throw _ => _ end =>
      destruct r; [|reflexivity]
  end; cbv beta iota.

Ltac trigger_candle :=
  match goal with
  | |- context [getProp ?k "data"] =>
      unfold bind at 1; unfold lift at 1;
      destruct (getProp k "data") as [data|]; [|reflexivity]; cbv beta iota;
      unfold bind at 1; unfold lift at 1;
      destruct (getIndex data 0) as [candle|]; [|reflexivity];
      cbv beta iota;
      unfold bind at 1; unfold lift at 1;
      destruct (getIndex candle 4); [|reflexivity]; cbv beta iota
  end.

Ltac trigger_places :=
  unfold call; rewrite makeRequest_of_sent; cbv zeta;
  simpl reads; simpl sent; simpl replies;
  unfold await, lift; rewrite <- !app_assoc; reflexivity.

(** The trigger, step by step. *)
Lemma simpleTradingStrategy_cases (s : Source) (env : Env) (symbol : Value)
    (w : World) :
  let quote := quote_request s env symbol w in
  let klines := klines_request s env symbol w in
  let asked := mkWorld (S (reads w)) (sent w ++ [quote]) (replies w) in
  let fetched := mkWorld (S (S (reads w))) (sent w ++ [quote; klines])
                   (replies w) in
  let place side :=
    (outcome (settles s (axios env (sent fetched)
                           (order_request s env symbol side w))),
     mkWorld (S (S (S (reads w))))
       (sent fetched ++ [order_request s env symbol side w]) (replies w)) in
  simpleTradingStrategy_of s env symbol w
  = match outcome (settles s (axios env (sent w) quote)) with
    | Throw e => (Throw (caught s e), asked)
    | Ok tickerData =>
        match getProp tickerData "price" with
        | Throw e => (Throw (caught s e), asked)
        | Ok price =>
            match outcome (settles s (axios env (sent w ++ [quote]) klines))
            with
            | Throw e => (Throw (caught s e), fetched)
            | Ok klineData =>
                match candle_close klineData with
                | Throw e => (Throw (caught s e), fetched)
                | Ok close =>
                    if num_gt (parseFloat price) (parseFloat close)
                    then place "BUY"
                    else if num_lt (parseFloat price) (parseFloat close)
                    then place "SELL"
                    else (Ok VNull, fetched)
                end
            end
        end
    end.
Proof.
  intros quote klines asked fetched place.
  subst place fetched asked quote klines.
  unfold quote_request, klines_request, order_request, candle_close.
  destruct s;
    cbn [simpleTradingStrategy_of order_endpoint order_type_key caught].
  - unfold simpleTradingStrategy.
    change (makeRequest env) with (makeRequest_of JavaScript env).
    unfold bind at 1. unfold try_catch.
    unfold bind at 1. unfold call at 1. rewrite makeRequest_of_sent. cbv zeta.
    trigger_await. trigger_case.
    unfold bind at 1. unfold call at 1. rewrite makeRequest_of_sent. cbv zeta.
    simpl reads. simpl sent. simpl replies. rewrite <- !app_assoc. simpl app.
    trigger_await. trigger_candle.
    unfold placeMarketOrder. rewrite parseFloat_fixed_size.
    change (makeRequest env) with (makeRequest_of JavaScript env).
    destruct (num_gt (parseFloat _) (parseFloat _));
      [trigger_places|].
    destruct (num_lt (parseFloat _) (parseFloat _));
      [trigger_places|].
    reflexivity.
  - unfold IndexTs.simpleTradingStrategy.
    change (IndexTs.makeRequest env) with (makeRequest_of TypeScript env).
    unfold bind at 1. unfold try_catch.
    unfold bind at 1. unfold call at 1. rewrite makeRequest_of_sent. cbv zeta.
    trigger_await. trigger_case.
    unfold bind at 1. unfold call at 1. rewrite makeRequest_of_sent. cbv zeta.
    simpl reads. simpl sent. simpl replies. rewrite <- !app_assoc. simpl app.
    trigger_await. trigger_candle.
    unfold IndexTs.placeMarketOrder.
    change (IndexTs.makeRequest env) with (makeRequest_of TypeScript env).
    destruct (num_gt (parseFloat _) (parseFloat _));
      [trigger_places|].
    destruct (num_lt (parseFloat _) (parseFloat _));
      [trigger_places|].
    reflexivity.
Qed.

(** X12: When the trigger of the JavaScript server fails before it has
    placed an order, whatever the cause (a failed request, an answer without
    the fields it reads), it is rejected with the ReferenceError of its own
    [catch] block, and the cause is lost; otherwise its failure is that of
    the order. The trigger of [index.ts] reports the failure of its first
    request as the dispatcher throws it. *)
Theorem simpleTradingStrategy_failure (env : Env) (symbol : Value)
    (w : World) (e : Error) :
  (let run := simpleTradingStrategy env symbol w in
   let quote := quote_request JavaScript env symbol w in
   let klines := klines_request JavaScript env symbol w in
   fst run = Throw e ->
   (e = ReferenceError "next is not defined"
    /\ (sent (snd run) = (sent w ++ [quote])%list
        \/ sent (snd run) = (sent w ++ [quote; klines])%list))
   \/ (exists side,
         let order := order_request JavaScript env symbol side w in
         (side = "BUY" \/ side = "SELL")
         /\ sent (snd run) = (sent w ++ [quote; klines; order])%list
         /\ outcome (axios env (sent w ++ [quote; klines]) order) = Throw e))
  /\ (let quote := quote_request TypeScript env symbol w in
      outcome (axios env (sent w) quote) = Throw e ->
      IndexTs.simpleTradingStrategy env symbol w
      = (Throw (reported TypeScript e),
         mkWorld (S (reads w)) (sent w ++ [quote]) (replies w))).
Proof.
  split.
  - intros run quote klines. subst run.
    change (simpleTradingStrategy env)
      with (simpleTradingStrategy_of JavaScript env).
    rewrite simpleTradingStrategy_cases. fold quote klines.
    cbn [settles caught sent].
    destruct (outcome (axios env (sent w) quote)) as [tickerData|];
      [|intros H; inversion H; left; split; [reflexivity|now left]].
    destruct (getProp tickerData "price") as [price|];
      [|intros H; inversion H; left; split; [reflexivity|now left]].
    destruct (outcome (axios env (sent w ++ [quote]) klines))
      as [klineData|];
      [|intros H; inversion H; left; split; [reflexivity|now right]].
    destruct (candle_close klineData) as [close|];
      [|intros H; inversion H; left; split; [reflexivity|now right]].
    destruct (num_gt (parseFloat price) (parseFloat close)).
    + cbn [fst snd sent]. intros H. right. exists "BUY".
      split; [now left|]. split; [now rewrite <- app_assoc|exact H].
    + destruct (num_lt (parseFloat price) (parseFloat close)).
      * cbn [fst snd sent]. intros H. right. exists "SELL".
        split; [now right|]. split; [now rewrite <- app_assoc|exact H].
      * discriminate.
  - intros quote Hq.
    change (IndexTs.simpleTradingStrategy env)
      with (simpleTradingStrategy_of TypeScript env).
    rewrite simpleTradingStrategy_cases. fold quote.
    now rewrite (settles_failure _ _ _ Hq).
Qed.

Lemma simpleTradingStrategy_failure_witness :
  let env := sample_env [] in
  let not_found :=
    mkError "AxiosError" "Request failed with status code 404" None in
  fst (simpleTradingStrategy env (VStr "BTC-USDT") start)
  = Throw (ReferenceError "next is not defined")
  /\ fst (IndexTs.simpleTradingStrategy env (VStr "BTC-USDT") start)
     = Throw no_response_error.
Proof.
  intros env not_found.
  destruct (simpleTradingStrategy_failure env (VStr "BTC-USDT") start
              (ReferenceError "next is not defined")) as [Hjs _].
  destruct (simpleTradingStrategy_failure env (VStr "BTC-USDT") start
              not_found) as [_ Hts].
  split.
  - destruct (Hjs eq_refl) as [[_ _]|[side [_ [_ Horder]]]]; reflexivity.
  - now rewrite (Hts eq_refl).
Defined.

Lemma simpleTradingStrategy_unreadable_price_witness :
  let env := sample_env (quotes_table "n/a" "100") in
  Forall
    (fun s =>
       let run := simpleTradingStrategy_of s env (VStr "BTC-USDT") start in
       fst run = Ok VNull /\ List.length (sent (snd run)) = 2%nat)
    [JavaScript; TypeScript].
Proof.
  intros env. apply Forall_forall. intros s _ run.
  assert (outcome (axios env (sent start)
                     (quote_request s env (VStr "BTC-USDT") start))
          = Ok (VObj [("symbol", VStr "BTC-USDT"); ("price", VStr "n/a")]))
    as Hq by (destruct s; reflexivity).
  assert (outcome (axios env
                     (sent start
                        ++ [quote_request s env (VStr "BTC-USDT") start])
                     (klines_request s env (VStr "BTC-USDT") start))
          = Ok (VObj [("data",
                 VArr [VArr [VNum (of_Z 1700000000000); VStr "100";
                             VStr "102"; VStr "99"; VStr "100"; VStr "12"];
                       VArr [VNum (of_Z 1700000060000); VStr "101";
                             VStr "101"; VStr "101"; VStr "101";
                             VStr "3"]])]))
    as Hk by (destruct s; reflexivity).
  subst run.
  rewrite (simpleTradingStrategy_unreadable_price s env (VStr "BTC-USDT")
             start _ (VStr "n/a") _ (VStr "100") Hq eq_refl Hk eq_refl
             (or_introl eq_refl)).
  split; reflexivity.
Defined.

(** ** More on the chat commands *)















(** What [await makeRequest(...)] inside the [try]/[catch] of a command
    comes to. *)
Lemma answer_run (s : Source) (env : Env) (label method endpoint : string)
    (params : Obj) (w : World) :
  let c := config_of s env method endpoint params
             (of_Z (Date_now env (reads w))) in
  Bot.answer label (Bot.run (makeRequest_of s env method endpoint params)) w
  = (Ok tt,
     mkWorld (S (reads w)) (sent w ++ [c])
       (replies w ++ [report s label (outcome (axios env (sent w) c))])).
Proof.
  intros c. unfold Bot.answer, try_catch, Bot.run.
  unfold bind at 1. unfold bind at 1. unfold call at 1.
  rewrite makeRequest_of_sent. cbv zeta. fold c.
  unfold await, lift, report.
  destruct (outcome (axios env (sent w) c)) as [v|e] eqn:E.
  - now rewrite (settles_ok _ _ _ E).
  - now rewrite (settles_failure _ _ _ E).
Qed.

Lemma three_arguments_check (name : string) (text : string) :
  required_arguments name = 3%nat -> places_order name = false ->
  passes_validation name text
  = present (nth_error (Bot.arguments text) 0)
    && (present (nth_error (Bot.arguments text) 1)
        && present (nth_error (Bot.arguments text) 2)).
Proof.
  intros Hr Hp. unfold passes_validation. rewrite Hr, Hp. simpl.
  now rewrite !andb_true_r.
Qed.

Ltac given_arguments Hv :=
  unfold present in Hv;
  repeat match type of Hv with
    | context [Bot.truthy ?a] =>
        let x := fresh "argument" in
        destruct (Bot.truthy a) as [x|]; [|discriminate Hv]
    end.

Ltac reported_by s env :=
  match s with
  | JavaScript => change (makeRequest env) with (makeRequest_of s env)
  | TypeScript => change (IndexTs.makeRequest env) with (makeRequest_of s env)
  end;
  rewrite answer_run; cbv zeta;
  eexists; split; [reflexivity|]; reflexivity.

Lemma order_checks (args : list string) (side quantity : string) :
  Bot.truthy (nth_error args 1) = Some side ->
  Bot.truthy (nth_error args 2) = Some quantity ->
  valid_side (nth 1 args "") && valid_quantity (nth 2 args "") = true ->
  negb (array_includes ["BUY"; "SELL"] (toUpperCase side)) = false
  /\ isNaN (parseFloat (VStr quantity))
     || num_le (parseFloat (VStr quantity)) Bot.zero = false.
Proof.
  intros E1 E2. rewrite (truthy_nth _ _ _ E1), (truthy_nth _ _ _ E2).
  unfold valid_side, valid_quantity. cbv zeta. intros H.
  apply andb_true_iff in H as [Hs Hq]. apply andb_true_iff in Hq as [Hn Hp].
  apply negb_true_iff in Hn, Hp. now rewrite Hs, Hn, Hp.
Qed.

(** X14: A command whose arguments pass its checks makes one request and
    answers with what became of it: the label of the command and the data as
    indented JSON when the request succeeded, [Error:] and the message of
    the failure when it did not. In [index.ts] a failure without a response
    (the exchange was not reached) is reported with the message of the
    TypeError that the dispatcher throws in its place. *)
Theorem commands_report (s : Source) (env : Env) (name label : string)
    (handler : string -> M unit) (text : string) (w : World) :
  In (name, handler) (commands_of s env) ->
  success_label name = Some label ->
  passes_validation name text = true ->
  exists c,
    sent (snd (handler text w)) = (sent w ++ [c])%list
    /\ replies (snd (handler text w))
       = (replies w ++ [report s label (outcome (axios env (sent w) c))])%list.
Proof.
  destruct s; cbn [commands_of];
    unfold Bot.bot_commands, IndexTsApp.bot_commands; simpl In;
    intros H Hl Hv;
    repeat (destruct H as [H|H]; [inversion H; subst; clear H|]);
    try contradiction; try discriminate Hl;
    inversion Hl; subst; clear Hl.
  - change (passes_validation "market" text)
      with (let args := Bot.arguments text in
            present (nth_error args 0)
            && (present (nth_error args 1)
                && (present (nth_error args 2) && true))
            && (valid_side (nth 1 args "") && valid_quantity (nth 2 args "")))
      in Hv.
    cbv zeta in Hv. unfold Bot.market. cbv zeta.
    unfold present in Hv.
    destruct (Bot.truthy (nth_error (Bot.arguments text) 0)) as [symbol|];
      [|discriminate Hv].
    destruct (Bot.truthy (nth_error (Bot.arguments text) 1)) as [side|]
      eqn:E1; [|discriminate Hv].
    destruct (Bot.truthy (nth_error (Bot.arguments text) 2)) as [quantity|]
      eqn:E2; [|discriminate Hv].
    destruct (order_checks _ _ _ E1 E2 Hv) as [-> ->].
    unfold placeMarketOrder. reported_by JavaScript env.
  - change (passes_validation "limit" text)
      with (let args := Bot.arguments text in
            present (nth_error args 0)
            && (present (nth_error args 1)
                && (present (nth_error args 2)
                    && (present (nth_error args 3) && true)))
            && (valid_side (nth 1 args "") && valid_quantity (nth 2 args "")))
      in Hv.
    cbv zeta in Hv. unfold Bot.limit. cbv zeta.
    unfold present in Hv.
    destruct (Bot.truthy (nth_error (Bot.arguments text) 0)) as [symbol|];
      [|discriminate Hv].
    destruct (Bot.truthy (nth_error (Bot.arguments text) 1)) as [side|]
      eqn:E1; [|discriminate Hv].
    destruct (Bot.truthy (nth_error (Bot.arguments text) 2)) as [quantity|]
      eqn:E2; [|discriminate Hv].
    destruct (Bot.truthy (nth_error (Bot.arguments text) 3)) as [price|];
      [|discriminate Hv].
    destruct (order_checks _ _ _ E1 E2 Hv) as [-> ->].
    unfold placeLimitOrder. reported_by JavaScript env.
  - unfold Bot.balance, getAccountBalance. reported_by JavaScript env.
  - unfold Bot.positions, getOpenPositions, run_body.
    reported_by JavaScript env.
  - unfold Bot.orders, getPendingOrders, run_body.
    reported_by JavaScript env.
  - rewrite two_arguments_check in Hv by reflexivity.
    unfold Bot.close. cbv zeta. given_arguments Hv.
    unfold closePosition. reported_by JavaScript env.
  - rewrite two_arguments_check in Hv by reflexivity.
    unfold Bot.cancel. cbv zeta. given_arguments Hv.
    unfold cancelOrder. reported_by JavaScript env.
  - rewrite three_arguments_check in Hv by reflexivity.
    unfold Bot.trailingstop. cbv zeta. given_arguments Hv.
    unfold setTrailingStop. reported_by JavaScript env.
  - rewrite two_arguments_check in Hv by reflexivity.
    unfold Bot.sl. cbv zeta. given_arguments Hv.
    unfold setStopLoss. reported_by JavaScript env.
  - rewrite two_arguments_check in Hv by reflexivity.
    unfold Bot.tp. cbv zeta. given_arguments Hv.
    unfold setTakeProfit. reported_by JavaScript env.
  - unfold IndexTsApp.balance, IndexTs.getAccountBalance.
    reported_by TypeScript env.
  - unfold IndexTsApp.positions, IndexTs.getOpenPositions.
    reported_by TypeScript env.
  - unfold IndexTsApp.orders, IndexTs.getPendingOrders.
    reported_by TypeScript env.
  - rewrite two_arguments_check in Hv by reflexivity.
    unfold IndexTsApp.close. cbv zeta. given_arguments Hv.
    unfold IndexTs.closePosition. reported_by TypeScript env.
  - rewrite two_arguments_check in Hv by reflexivity.
    unfold IndexTsApp.cancel. cbv zeta. given_arguments Hv.
    unfold IndexTs.cancelOrder. reported_by TypeScript env.
  - rewrite three_arguments_check in Hv by reflexivity.
    unfold IndexTsApp.trailingstop. cbv zeta. given_arguments Hv.
    unfold IndexTsApp.setTrailingStop. reported_by TypeScript env.
  - rewrite two_arguments_check in Hv by reflexivity.
    unfold IndexTsApp.sl. cbv zeta. given_arguments Hv.
    unfold IndexTsApp.setStopLoss. reported_by TypeScript env.
  - rewrite two_arguments_check in Hv by reflexivity.
    unfold IndexTsApp.tp. cbv zeta. given_arguments Hv.
    unfold IndexTsApp.setTakeProfit. reported_by TypeScript env.
Qed.

Lemma commands_report_witness :
  replies (snd (Bot.balance (sample_env balance_table) "/balance" start))
  = [ "Account Balance:" ++ nl ++ "{" ++ nl ++ "  " ++ quoted "code" ++ ": 0"
        ++ nl ++ "}" ]
  /\ replies (snd (Bot.balance (sample_env []) "/balance" start))
     = [ "Error: Request failed with status code 404" ]
  /\ replies (snd (IndexTsApp.balance (sample_env []) "/balance" start))
     = [ "Error: Cannot read properties of undefined (reading 'data')" ].
Proof.
  assert (forall env, In ("balance", Bot.balance env)
                        (commands_of JavaScript env)) as Hjs
    by (intros env; do 4 right; left; reflexivity).
  assert (forall env, In ("balance", IndexTsApp.balance env)
                        (commands_of TypeScript env)) as Hts
    by (intros env; left; reflexivity).
  assert (forall (run : Result unit * World) (c c' : Config),
             sent (snd run) = ([] ++ [c])%list -> sent (snd run) = [c'] ->
             c = c') as Hsame
    by (intros run c c' H1 H2; rewrite H2 in H1; now inversion H1).
  destruct (commands_report JavaScript (sample_env balance_table) "balance"
              "Account Balance:" _ "/balance" start
              (Hjs _) eq_refl eq_refl) as [c1 [Hs1 ->]].
  destruct (commands_report JavaScript (sample_env []) "balance"
              "Account Balance:" _ "/balance" start
              (Hjs _) eq_refl eq_refl) as [c2 [Hs2 ->]].
  destruct (commands_report TypeScript (sample_env []) "balance"
              "Account Balance:" _ "/balance" start
              (Hts _) eq_refl eq_refl) as [c3 [Hs3 ->]].
  rewrite (Hsame _ _ _ Hs1 eq_refl), (Hsame _ _ _ Hs2 eq_refl),
    (Hsame _ _ _ Hs3 eq_refl).
  split; [reflexivity|]. split; reflexivity.
Defined.

(** X15: Every chat command of either server checks its arguments before it
    calls the exchange: when a required argument is missing or empty, and
    for the two order commands of the JavaScript server when the side is
    neither BUY nor SELL or [parseFloat] reads no positive number off the
    quantity, the command answers with a usage or error message and sends no
    request. *)
Theorem commands_validate (s : Source) (env : Env) (name : string)
    (handler : string -> M unit) (text : string) (w : World) :
  In (name, handler) (commands_of s env) ->
  passes_validation name text = false ->
  exists msg, In msg validation_replies
    /\ handler text w
       = (Ok tt, mkWorld (reads w) (sent w) (replies w ++ [msg])).
Proof.
  destruct s; cbn [commands_of]; [apply commands_check_first|].
  unfold IndexTsApp.bot_commands. simpl In. intros H;
    repeat (destruct H as [H|H]; [inversion H; subst; clear H|]);
    try contradiction; try discriminate.
  - unfold IndexTsApp.close. two_arguments.
  - unfold IndexTsApp.cancel. two_arguments.
  - rewrite three_arguments_check by reflexivity.
    unfold IndexTsApp.trailingstop, present. cbv zeta.
    generalize (Bot.arguments text) as args. intros args.
    required a E0. required b E1. required c E2. discriminate.
  - unfold IndexTsApp.sl. two_arguments.
  - unfold IndexTsApp.tp. two_arguments.
Qed.

Lemma commands_validate_witness :
  Forall
    (fun run => run = (Ok tt, mkWorld 0 [] ["Usage: /sl <symbol> <stopPrice>"]))
    [ Bot.sl (sample_env []) "/sl BTC-USDT" start;
      Bot.sl (sample_env []) "/sl  42000" start;
      IndexTsApp.sl (sample_env []) "/sl" start ].
Proof.
  assert (forall (s : bool) env,
             In ("sl", if s then Bot.sl env else IndexTsApp.sl env)
               (commands_of (if s then JavaScript else TypeScript) env))
    as Hin by (intros [|] env; simpl; tauto).
  apply Forall_cons; [|apply Forall_cons; [|apply Forall_cons; [|easy]]].
  - destruct (commands_validate JavaScript (sample_env []) "sl" _
                "/sl BTC-USDT" start (Hin true _) eq_refl)
      as [msg [_ H]].
    rewrite H. vm_compute in H. now injection H as <-.
  - destruct (commands_validate JavaScript (sample_env []) "sl" _
                "/sl  42000" start (Hin true _) eq_refl)
      as [msg [_ H]].
    rewrite H. vm_compute in H. now injection H as <-.
  - destruct (commands_validate TypeScript (sample_env []) "sl" _
                "/sl" start (Hin false _) eq_refl)
      as [msg [_ H]].
    rewrite H. vm_compute in H. now injection H as <-.
Defined.

(** ** What the commands send *)

Lemma answer_sent (s : Source) (env : Env) (label method endpoint : string)
    (params : Obj) (w : World) :
  sent (snd (Bot.answer label
               (Bot.run (makeRequest_of s env method endpoint params)) w))
  = (sent w
       ++ [config_of s env method endpoint params
             (of_Z (Date_now env (reads w)))])%list.
Proof. now rewrite answer_run. Qed.

Ltac passed_on s env E0 E1 :=
  match s with
  | JavaScript => change (makeRequest env) with (makeRequest_of s env)
  | TypeScript => change (IndexTs.makeRequest env) with (makeRequest_of s env)
  end;
  rewrite answer_sent; eexists; split; [reflexivity|];
  match goal with
  | |- context [config_of s env ?m ?e ?p ?t] =>
      destruct (config_of_target s env m e p t) as [-> ->]
  end;
  split; [reflexivity|]; split; [reflexivity|];
  rewrite <- (truthy_nth _ _ _ E0), <- (truthy_nth _ _ _ E1);
  split;
    [ intros i key Hi;
      do 3 (destruct i as [|i];
            [inversion Hi; subst;
             now rewrite transmitted_caller by discriminate|]);
      now destruct i
    | now rewrite ?transmitted_caller by discriminate ].

Ltac two_given Hv E0 E1 :=
  rewrite two_arguments_check in Hv by reflexivity;
  unfold present in Hv; cbv zeta;
  destruct (Bot.truthy (nth_error (Bot.arguments _) 0)) eqn:E0;
    [|discriminate Hv];
  destruct (Bot.truthy (nth_error (Bot.arguments _) 1)) eqn:E1;
    [|discriminate Hv].

(** X16: The commands close, cancel, trailingstop, sl and tp of either
    server pass their arguments on as they are: when the required arguments
    are there, the one request is a POST to the endpoint of the operation
    that carries the texts of the message, unchanged and in their order,
    under the keys of the operation, and the [type] the operation adds. *)
Theorem commands_pass_arguments (s : Source) (env : Env) (name : string)
    (handler : string -> M unit) (text : string) (w : World) :
  In (name, handler) (commands_of s env) ->
  argument_keys name <> [] ->
  passes_validation name text = true ->
  exists c,
    sent (snd (handler text w)) = (sent w ++ [c])%list
    /\ cfg_method c = "POST"
    /\ cfg_url c = BASE_URL ++ command_endpoint name
    /\ (forall i key,
          nth_error (argument_keys name) i = Some key ->
          Object.get (transmitted c) key
          = VStr (nth i (Bot.arguments text) ""))
    /\ Object.get (transmitted c) "type" = order_type name.
Proof.
  destruct s; cbn [commands_of];
    unfold Bot.bot_commands, IndexTsApp.bot_commands; simpl In;
    intros H Hk Hv;
    repeat (destruct H as [H|H]; [inversion H; subst; clear H|]);
    try contradiction; try (now contradiction Hk).
  - unfold Bot.close, closePosition. two_given Hv E0 E1.
    passed_on JavaScript env E0 E1.
  - unfold Bot.cancel, cancelOrder. two_given Hv E0 E1.
    passed_on JavaScript env E0 E1.
  - rewrite three_arguments_check in Hv by reflexivity.
    unfold present in Hv. unfold Bot.trailingstop, setTrailingStop.
    cbv zeta.
    destruct (Bot.truthy (nth_error (Bot.arguments _) 0)) eqn:E0;
      [|discriminate Hv].
    destruct (Bot.truthy (nth_error (Bot.arguments _) 1)) eqn:E1;
      [|discriminate Hv].
    destruct (Bot.truthy (nth_error (Bot.arguments _) 2)) eqn:E2;
      [|discriminate Hv].
    rewrite <- (truthy_nth _ _ _ E2). passed_on JavaScript env E0 E1.
  - unfold Bot.sl, setStopLoss. two_given Hv E0 E1.
    passed_on JavaScript env E0 E1.
  - unfold Bot.tp, setTakeProfit. two_given Hv E0 E1.
    passed_on JavaScript env E0 E1.
  - unfold IndexTsApp.close, IndexTs.closePosition. two_given Hv E0 E1.
    passed_on TypeScript env E0 E1.
  - unfold IndexTsApp.cancel, IndexTs.cancelOrder. two_given Hv E0 E1.
    passed_on TypeScript env E0 E1.
  - rewrite three_arguments_check in Hv by reflexivity.
    unfold present in Hv.
    unfold IndexTsApp.trailingstop, IndexTsApp.setTrailingStop. cbv zeta.
    destruct (Bot.truthy (nth_error (Bot.arguments _) 0)) eqn:E0;
      [|discriminate Hv].
    destruct (Bot.truthy (nth_error (Bot.arguments _) 1)) eqn:E1;
      [|discriminate Hv].
    destruct (Bot.truthy (nth_error (Bot.arguments _) 2)) eqn:E2;
      [|discriminate Hv].
    rewrite <- (truthy_nth _ _ _ E2). passed_on TypeScript env E0 E1.
  - unfold IndexTsApp.sl, IndexTsApp.setStopLoss. two_given Hv E0 E1.
    passed_on TypeScript env E0 E1.
  - unfold IndexTsApp.tp, IndexTsApp.setTakeProfit. two_given Hv E0 E1.
    passed_on TypeScript env E0 E1.
Qed.

Lemma commands_pass_arguments_witness :
  (exists c,
      sent (snd (Bot.close (sample_env []) "/close btc-usdt long extra"
                   start))
      = [c]
      /\ cfg_url c = BASE_URL ++ "/openApi/swap/v2/trade/closePosition"
      /\ Object.get (transmitted c) "symbol" = VStr "btc-usdt"
      /\ Object.get (transmitted c) "positionSide" = VStr "long")
  /\ (exists c,
        sent (snd (IndexTsApp.tp (sample_env []) "/tp BTC-USDT 1e5" start))
        = [c]
        /\ cfg_url c = BASE_URL ++ "/openApi/swap/v2/trade/order"
        /\ Object.get (transmitted c) "symbol" = VStr "BTC-USDT"
        /\ Object.get (transmitted c) "stopPrice" = VStr "1e5"
        /\ Object.get (transmitted c) "type" = VStr "TAKE_PROFIT_MARKET").
Proof.
  split.
  - destruct (commands_pass_arguments JavaScript (sample_env []) "close"
                (Bot.close (sample_env [])) "/close btc-usdt long extra"
                start)
      as [c [Hsent [_ [Hurl [Hargs _]]]]];
      [do 7 right; left; reflexivity|discriminate|reflexivity|].
    exists c. split; [exact Hsent|]. split; [exact Hurl|].
    split; [exact (Hargs 0%nat "symbol" eq_refl)|].
    exact (Hargs 1%nat "positionSide" eq_refl).
  - destruct (commands_pass_arguments TypeScript (sample_env []) "tp"
                (IndexTsApp.tp (sample_env [])) "/tp BTC-USDT 1e5" start)
      as [c [Hsent [_ [Hurl [Hargs Htype]]]]];
      [do 9 right; left; reflexivity|discriminate|reflexivity|].
    exists c. split; [exact Hsent|]. split; [exact Hurl|].
    split; [exact (Hargs 0%nat "symbol" eq_refl)|].
    split; [exact (Hargs 1%nat "stopPrice" eq_refl)|exact Htype].
Defined.

(** X17: The two order commands of the JavaScript server, when their checks
    pass, send one POST: [market] to the contract endpoint with [orderType]
    MARKET, [limit] to the swap endpoint with [type] LIMIT and the price as
    the text of the message, which is not checked. Both send the symbol as
    it is, the side in upper case, and as quantity the number that
    [parseFloat] reads off the text, parsed a second time by the operation. *)
Theorem order_commands_send (env : Env) (name : string)
    (handler : string -> M unit) (text : string) (w : World) :
  In (name, handler) (Bot.bot_commands env) ->
  places_order name = true ->
  passes_validation name text = true ->
  let args := Bot.arguments text in
  let market := String.eqb name "market" in
  exists c,
    sent (snd (handler text w)) = (sent w ++ [c])%list
    /\ cfg_method c = "POST"
    /\ cfg_url c
       = BASE_URL ++ (if market then "/openApi/contract/v1/trade/order"
                      else "/openApi/swap/v2/trade/order")
    /\ Object.get (transmitted c) "symbol" = VStr (nth 0 args "")
    /\ Object.get (transmitted c) "side" = VStr (toUpperCase (nth 1 args ""))
    /\ Object.get (transmitted c) "quantity"
       = VNum (parseFloat (VNum (parseFloat (VStr (nth 2 args "")))))
    /\ Object.get (transmitted c) "orderType"
       = (if market then VStr "MARKET" else VUndefined)
    /\ Object.get (transmitted c) "type"
       = (if market then VUndefined else VStr "LIMIT")
    /\ Object.get (transmitted c) "price"
       = (if market then VUndefined else VStr (nth 3 args "")).
Proof.
  unfold Bot.bot_commands; simpl In; intros H Hp Hv;
    repeat (destruct H as [H|H]; [inversion H; subst; clear H|]);
    try contradiction; try discriminate Hp; cbv zeta.
  - change (passes_validation "market" text)
      with (let args := Bot.arguments text in
            present (nth_error args 0)
            && (present (nth_error args 1)
                && (present (nth_error args 2) && true))
            && (valid_side (nth 1 args "") && valid_quantity (nth 2 args "")))
      in Hv.
    cbv zeta in Hv. unfold Bot.market. cbv zeta. unfold present in Hv.
    destruct (Bot.truthy (nth_error (Bot.arguments text) 0)) as [symbol|]
      eqn:E0; [|discriminate Hv].
    destruct (Bot.truthy (nth_error (Bot.arguments text) 1)) as [side|]
      eqn:E1; [|discriminate Hv].
    destruct (Bot.truthy (nth_error (Bot.arguments text) 2)) as [quantity|]
      eqn:E2; [|discriminate Hv].
    destruct (order_checks _ _ _ E1 E2 Hv) as [-> ->].
    rewrite (truthy_nth _ _ _ E0), (truthy_nth _ _ _ E1),
      (truthy_nth _ _ _ E2).
    unfold placeMarketOrder.
    change (makeRequest env) with (makeRequest_of JavaScript env).
    rewrite answer_sent. eexists. split; [reflexivity|].
    cbn [config_of]. rewrite transmitted_request. unfold merged.
    rewrite !get_define_other, !get_spread by discriminate.
    repeat split.
  - change (passes_validation "limit" text)
      with (let args := Bot.arguments text in
            present (nth_error args 0)
            && (present (nth_error args 1)
                && (present (nth_error args 2)
                    && (present (nth_error args 3) && true)))
            && (valid_side (nth 1 args "") && valid_quantity (nth 2 args "")))
      in Hv.
    cbv zeta in Hv. unfold Bot.limit. cbv zeta. unfold present in Hv.
    destruct (Bot.truthy (nth_error (Bot.arguments text) 0)) as [symbol|]
      eqn:E0; [|discriminate Hv].
    destruct (Bot.truthy (nth_error (Bot.arguments text) 1)) as [side|]
      eqn:E1; [|discriminate Hv].
    destruct (Bot.truthy (nth_error (Bot.arguments text) 2)) as [quantity|]
      eqn:E2; [|discriminate Hv].
    destruct (Bot.truthy (nth_error (Bot.arguments text) 3)) as [price|]
      eqn:E3; [|discriminate Hv].
    destruct (order_checks _ _ _ E1 E2 Hv) as [-> ->].
    rewrite (truthy_nth _ _ _ E0), (truthy_nth _ _ _ E1),
      (truthy_nth _ _ _ E2), (truthy_nth _ _ _ E3).
    unfold placeLimitOrder.
    change (makeRequest env) with (makeRequest_of JavaScript env).
    rewrite answer_sent. eexists. split; [reflexivity|].
    cbn [config_of]. rewrite transmitted_request. unfold merged.
    rewrite !get_define_other, !get_spread by discriminate.
    repeat split.
Qed.

Lemma order_commands_send_witness :
  exists c,
    sent (snd (Bot.limit (sample_env []) "/limit BTC-USDT sell 0.5 soon"
                 start))
    = [c]
    /\ Object.get (transmitted c) "side" = VStr "SELL"
    /\ Object.get (transmitted c) "quantity" = VNum (parseFloat (VStr "0.5"))
    /\ Object.get (transmitted c) "price" = VStr "soon".
Proof.
  destruct (order_commands_send (sample_env []) "limit"
              (Bot.limit (sample_env [])) "/limit BTC-USDT sell 0.5 soon"
              start)
    as [c [Hsent [_ [_ [_ [Hside [Hq [_ [_ Hprice]]]]]]]]];
    [do 3 right; left; reflexivity|reflexivity|reflexivity|].
  exists c. split; [exact Hsent|]. split; [exact Hside|].
  split; [|exact Hprice]. rewrite Hq. vm_compute. reflexivity.
Defined.

(** ** The routes *)

Lemma run_makeRequest (s : Source) (env : Env) (method endpoint : string)
    (params : Obj) (w : World) :
  let c := config_of s env method endpoint params
             (of_Z (Date_now env (reads w))) in
  Bot.run (makeRequest_of s env method endpoint params) w
  = (match outcome (axios env (sent w) c) with
     | Ok data => Ok data
     | Throw e => Throw (reported s e)
     end,
     mkWorld (S (reads w)) (sent w ++ [c]) (replies w)).
Proof.
  intros c. unfold Bot.run. unfold bind, call.
  rewrite makeRequest_of_sent. cbv zeta. fold c. unfold await, lift.
  destruct (outcome (axios env (sent w) c)) as [v|e] eqn:E.
  - now rewrite (settles_ok _ _ _ E).
  - now rewrite (settles_failure _ _ _ E).
Qed.

(** X18: A route that makes one request answers with the data of the
    exchange when the request succeeds. When it fails, the JavaScript server
    sends no response and hands the error to nobody: its handler is rejected
    with a ReferenceError, [next] not being defined there; [index.ts] sends
    no response either and hands the error, as the dispatcher has thrown it,
    to [next]. *)
Theorem routes_settle (s : Source) (env : Env) (r : Route) (c : Config)
    (p : Process) :
  route_request s env r (world p) = Some c ->
  let sent_to := mkWorld (S (reads (world p))) (sent (world p) ++ [c])
                   (replies (world p)) in
  let answered body :=
    mkProcess sent_to (responses p ++ [mkResponse None body]) (forwarded p)
      (warnings p) in
  handler_of s env r p
  = match outcome (axios env (sent (world p)) c), s with
    | Ok data, _ => (Ok tt, answered data)
    | Throw e, JavaScript =>
        (Throw (ReferenceError "next is not defined"), with_world p sent_to)
    | Throw e, TypeScript =>
        (Ok tt,
         mkProcess sent_to (responses p)
           (forwarded p ++ [reported TypeScript e]) (warnings p))
    end.
Proof.
  intros Hc sent_to answered. subst answered sent_to.
  destruct r as [|symbol| |symbol]; try discriminate Hc;
    cbn [route_request] in Hc; inversion Hc; subst; clear Hc;
    destruct s; cbn [handler_of];
    unfold Routes.get_balance, Routes.get_positions, Routes.get_price,
      IndexTsApp.get_balance, IndexTsApp.get_positions, IndexTsApp.get_price,
      getAccountBalance, IndexTs.getAccountBalance,
      Routes.respond, IndexTsApp.respond, in_world;
    try change (makeRequest env) with (makeRequest_of JavaScript env);
    try change (IndexTs.makeRequest env)
      with (makeRequest_of TypeScript env);
    rewrite run_makeRequest; cbv zeta;
    match goal with
    | |- context [outcome ?a] => destruct (outcome a)
    end; reflexivity.
Qed.

Lemma routes_settle_witness :
  let answered := sample_env balance_table in
  let unreachable := sample_env [] in
  handler_of JavaScript answered Balance idle
  = (Ok tt,
     mkProcess
       (mkWorld 1
          [request_config answered "GET" "/openApi/swap/v2/user/balance" []
             (of_Z 1700000000000)] [])
       [mkResponse None (VObj [("code", VNum (of_Z 0))])] [] [])
  /\ fst (handler_of JavaScript unreachable (Price "BTC-USDT") idle)
     = Throw (ReferenceError "next is not defined")
  /\ responses (snd (handler_of JavaScript unreachable (Price "BTC-USDT")
                       idle))
     = []
  /\ fst (handler_of TypeScript unreachable (Price "BTC-USDT") idle) = Ok tt
  /\ forwarded (snd (handler_of TypeScript unreachable (Price "BTC-USDT")
                       idle))
     = [no_response_error].
Proof.
  intros answered unreachable.
  rewrite (routes_settle JavaScript answered Balance _ idle eq_refl).
  rewrite (routes_settle JavaScript unreachable (Price "BTC-USDT") _ idle
             eq_refl).
  rewrite (routes_settle TypeScript unreachable (Price "BTC-USDT") _ idle
             eq_refl).
  repeat split.
Defined.

Lemma trade_route_run (s : Source) (env : Env) (symbol : string)
    (p : Process) :
  handler_of s env (Trade symbol) p
  = match simpleTradingStrategy_of s env (VStr symbol) (world p), s with
    | (Ok result, w), _ =>
        (Ok tt,
         mkProcess w (responses p ++ [mkResponse None result]) (forwarded p)
           (warnings p))
    | (Throw e, w), JavaScript =>
        (Throw (ReferenceError "next is not defined"), with_world p w)
    | (Throw e, w), TypeScript =>
        (Ok tt,
         mkProcess w (responses p) (forwarded p ++ [e]) (warnings p))
    end.
Proof.
  destruct s; cbn [handler_of simpleTradingStrategy_of];
    unfold Routes.post_trade, IndexTsApp.post_trade, Routes.respond,
      IndexTsApp.respond, in_world;
    [ destruct (simpleTradingStrategy env (VStr symbol) (world p))
        as [[result|e] w]
    | destruct (IndexTs.simpleTradingStrategy env (VStr symbol) (world p))
        as [[result|e] w] ];
    reflexivity.
Qed.

(** X19: The trade route answers with what the price-movement trigger
    yields: when the current price equals the previous close it answers
    [null], with the status left as it is, after the two price requests and
    no order; when the price has risen and the exchange refuses the order,
    no response is sent: the handler of the JavaScript server is rejected
    with the ReferenceError of its [catch] block, that of [index.ts] hands
    the refusal to [next]. *)
Theorem trade_route_settles (s : Source) (env : Env) (symbol : string)
    (p : Process) (tickerData price klineData close : Value) :
  let w := world p in
  let quote := quote_request s env (VStr symbol) w in
  let klines := klines_request s env (VStr symbol) w in
  let order := order_request s env (VStr symbol) "BUY" w in
  outcome (axios env (sent w) quote) = Ok tickerData ->
  getProp tickerData "price" = Ok price ->
  outcome (axios env (sent w ++ [quote]) klines) = Ok klineData ->
  candle_close klineData = Ok close ->
  let run := handler_of s env (Trade symbol) p in
  (SFeqb (parseFloat price) (parseFloat close) = true ->
   run
   = (Ok tt,
      mkProcess
        (mkWorld (S (S (reads w))) (sent w ++ [quote; klines]) (replies w))
        (responses p ++ [mkResponse None VNull]) (forwarded p) (warnings p)))
  /\ (forall e,
        num_gt (parseFloat price) (parseFloat close) = true ->
        outcome (axios env (sent w ++ [quote; klines]) order) = Throw e ->
        sent (world (snd run)) = (sent w ++ [quote; klines; order])%list
        /\ responses (snd run) = responses p
        /\ match s with
           | JavaScript =>
               fst run = Throw (ReferenceError "next is not defined")
               /\ forwarded (snd run) = forwarded p
           | TypeScript =>
               fst run = Ok tt
               /\ forwarded (snd run)
                  = (forwarded p ++ [reported TypeScript e])%list
           end).
Proof.
  intros w quote klines order Hq Hp Hk Hc run. subst run.
  rewrite trade_route_run. fold w.
  rewrite (simpleTradingStrategy_run s env (VStr symbol) w tickerData price
             klineData close Hq Hp Hk Hc).
  fold quote klines. split.
  - intros Heq. destruct (num_eq_not_lt _ _ Heq) as [H1 H2].
    unfold num_gt, num_lt in *. rewrite H2, H1. reflexivity.
  - intros e Hup Hrefused. rewrite Hup. cbn [sent]. fold order.
    rewrite (settles_failure s _ _ Hrefused).
    destruct s; cbn [fst snd world sent responses forwarded reported];
      rewrite <- app_assoc; repeat split.
Qed.

Lemma trade_route_settles_witness :
  let env := sample_env (quotes_table "100" "100.0") in
  Forall
    (fun s =>
       let run := handler_of s env (Trade "BTC-USDT") idle in
       fst run = Ok tt
       /\ responses (snd run) = [mkResponse None VNull]
       /\ List.length (sent (world (snd run))) = 2%nat)
    [JavaScript; TypeScript].
Proof.
  intros env. apply Forall_forall. intros s _ run.
  assert (outcome (axios env (sent start)
                     (quote_request s env (VStr "BTC-USDT") start))
          = Ok (VObj [("symbol", VStr "BTC-USDT"); ("price", VStr "100")]))
    as Hq by (destruct s; reflexivity).
  assert (outcome (axios env
                     (sent start
                        ++ [quote_request s env (VStr "BTC-USDT") start])
                     (klines_request s env (VStr "BTC-USDT") start))
          = Ok (VObj [("data",
                 VArr [VArr [VNum (of_Z 1700000000000); VStr "100";
                             VStr "102"; VStr "99"; VStr "100.0"; VStr "12"];
                       VArr [VNum (of_Z 1700000060000); VStr "101";
                             VStr "101"; VStr "101"; VStr "101";
                             VStr "3"]])]))
    as Hk by (destruct s; reflexivity).
  destruct (trade_route_settles s env "BTC-USDT" idle _ (VStr "100") _
              (VStr "100.0") Hq eq_refl Hk eq_refl) as [Hsame _].
  subst run. rewrite (Hsame eq_refl). repeat split.
Defined.

(** ** The error middleware *)

Lemma getProp_field (v : Value) (k : string) :
  is_nullish v = false -> k <> "length" -> getProp v k = Ok (field v k).
Proof.
  intros Hv Hk. apply String.eqb_neq in Hk.
  destruct v; try discriminate; simpl; try reflexivity; now rewrite Hk.
Qed.

(** X20: For an error that is not [null] or [undefined], the middleware
    writes one response and calls nothing else. The status it sets is the
    one in the body; it is the [statusCode] of the error when that is truthy
    and 500 otherwise, so also for a [statusCode] of 0. The body has the
    status [error] and the message of the error, or [Internal Server Error]
    when the error has none or an empty one. *)
Theorem errorMiddleware_responds (NODE_ENV err : Value) (p : Process) :
  is_nullish err = false ->
  let statusCode := or_else (field err "statusCode") (VNum (of_Z 500)) in
  let message :=
    or_else (field err "message") (VStr "Internal Server Error") in
  exists body,
    errorMiddleware NODE_ENV err p
    = (Ok tt,
       mkProcess (world p)
         (responses p ++ [mkResponse (Some statusCode) (VObj body)])
         (forwarded p) (warnings p))
    /\ Object.get body "status" = VStr "error"
    /\ Object.get body "statusCode" = statusCode
    /\ Object.get body "message" = message
    /\ (ToBoolean (field err "statusCode") = false ->
        statusCode = VNum (of_Z 500))
    /\ (ToBoolean (field err "message") = false ->
        message = VStr "Internal Server Error").
Proof.
  intros Hv statusCode message. unfold errorMiddleware.
  rewrite !getProp_field by (exact Hv || discriminate).
  fold statusCode message. eexists. split; [reflexivity|].
  unfold statusCode, message, or_else.
  destruct (is_string NODE_ENV "development");
    (repeat split; try reflexivity; now intros ->).
Qed.

Lemma errorMiddleware_responds_witness :
  let bare := VObj [("message", VStr ""); ("statusCode", VNum (of_Z 0))] in
  let missing :=
    VObj [("message", VStr "Not found"); ("statusCode", VNum (of_Z 404))] in
  map (fun err =>
         map (fun r => (res_status r, field (res_body r) "statusCode",
                        field (res_body r) "message"))
           (responses (snd (errorMiddleware VUndefined err idle))))
    [bare; missing; VStr "boom"]
  = [ [(Some (VNum (of_Z 500)), VNum (of_Z 500),
        VStr "Internal Server Error")];
      [(Some (VNum (of_Z 404)), VNum (of_Z 404), VStr "Not found")];
      [(Some (VNum (of_Z 500)), VNum (of_Z 500),
        VStr "Internal Server Error")] ].
Proof.
  intros bare missing.
  destruct (errorMiddleware_responds VUndefined bare idle eq_refl)
    as [b1 [H1 _]].
  destruct (errorMiddleware_responds VUndefined missing idle eq_refl)
    as [b2 [H2 _]].
  destruct (errorMiddleware_responds VUndefined (VStr "boom") idle eq_refl)
    as [b3 [H3 _]].
  cbn [map]. rewrite H1, H2, H3.
  vm_compute in H1. injection H1 as <-.
  vm_compute in H2. injection H2 as <-.
  vm_compute in H3. injection H3 as <-.
  reflexivity.
Defined.

(** X21: The body of the error response has the keys [status], [statusCode]
    and [message], in this order, and the key [stack] after them exactly
    when [NODE_ENV] is the string [development]: otherwise the stack of the
    error is not sent. *)
Theorem errorMiddleware_stack (NODE_ENV err : Value) (p : Process) :
  is_nullish err = false ->
  exists status body,
    responses (snd (errorMiddleware NODE_ENV err p))
    = (responses p ++ [mkResponse status (VObj body)])%list
    /\ Object.keys body
       = (["status"; "statusCode"; "message"]
            ++ (if is_string NODE_ENV "development" then ["stack"]
                else []))%list
    /\ (is_string NODE_ENV "development" = true ->
        Object.get body "stack" = field err "stack")
    /\ (is_string NODE_ENV "development" = false ->
        Object.has body "stack" = false).
Proof.
  intros Hv. unfold errorMiddleware.
  rewrite !getProp_field by (exact Hv || discriminate).
  eexists. eexists. split; [reflexivity|].
  destruct (is_string NODE_ENV "development");
    repeat split; try reflexivity; discriminate.
Qed.

Lemma errorMiddleware_stack_witness :
  let err :=
    VObj [("message", VStr "boom"); ("stack", VStr "Error: boom at f")] in
  map (fun mode =>
         map (fun r => field (res_body r) "stack")
           (responses (snd (errorMiddleware mode err idle))))
    [VStr "development"; VStr "production"; VUndefined]
  = [[VStr "Error: boom at f"]; [VUndefined]; [VUndefined]].
Proof.
  intros err.
  destruct (errorMiddleware_stack (VStr "development") err idle eq_refl)
    as [s1 [b1 [H1 _]]].
  destruct (errorMiddleware_stack (VStr "production") err idle eq_refl)
    as [s2 [b2 [H2 _]]].
  destruct (errorMiddleware_stack VUndefined err idle eq_refl)
    as [s3 [b3 [H3 _]]].
  cbn [map]. rewrite H1, H2, H3.
  vm_compute in H1. injection H1 as <- <-.
  vm_compute in H2. injection H2 as <- <-.
  vm_compute in H3. injection H3 as <- <-.
  reflexivity.
Defined.

(** ** The start-up check *)

Lemma checkServerTime_run (env : Env) (p : Process) :
  let w := world p in
  let c := time_request env w in
  let asked := mkWorld (S (reads w)) (sent w ++ [c]) (replies w) in
  let compared := mkWorld (S (S (reads w))) (sent w ++ [c]) (replies w) in
  let localTime := of_Z (Date_now env (S (reads w))) in
  Routes.checkServerTime env p
  = match server_time (outcome (axios env (sent w) c)) with
    | Ok serverTime =>
        (Ok tt,
         mkProcess compared (responses p) (forwarded p)
           (warnings p
              ++ (if num_gt (time_difference serverTime localTime)
                       (of_Z 1000)
                  then [Routes.time_warning] else [])))
    | Throw _ => (Ok tt, with_world p asked)
    end.
Proof.
  intros w c asked compared localTime.
  unfold Routes.checkServerTime, in_world.
  change (makeRequest env) with (makeRequest_of JavaScript env).
  unfold bind at 1. rewrite run_makeRequest. cbv zeta.
  cbn [config_of reported]. fold w. fold (time_request env w). fold c.
  unfold server_time.
  destruct (outcome (axios env (sent w) c)) as [response|e];
    [|reflexivity].
  unfold bind at 1. unfold lift at 1.
  destruct (getProp response "data") as [data|]; [|reflexivity].
  unfold bind at 1. unfold lift at 1.
  destruct (getProp data "serverTime") as [serverTime|]; [|reflexivity].
  unfold bind, Routes.Date_now_call, now, ret. cbn [reads sent replies].
  fold localTime. fold (time_difference serverTime localTime).
  destruct (num_gt (time_difference serverTime localTime) (of_Z 1000));
    [reflexivity|].
  now rewrite app_nil_r.
Qed.

(** X22: The start-up check never throws, whatever the exchange answers: it
    makes one GET request for the server time, signed over the timestamp
    alone, writes no response and hands no error on. *)
Theorem checkServerTime_never_throws (env : Env) (p : Process) :
  let w := world p in
  let c := time_request env w in
  let run := Routes.checkServerTime env p in
  fst run = Ok tt
  /\ sent (world (snd run)) = (sent w ++ [c])%list
  /\ replies (world (snd run)) = replies w
  /\ responses (snd run) = responses p
  /\ forwarded (snd run) = forwarded p
  /\ cfg_method c = "GET"
  /\ cfg_url c = BASE_URL ++ "/openApi/swap/v2/time"
  /\ Object.get (transmitted c) "signature"
     = VStr (generateSignature env
               [("timestamp", VNum (of_Z (Date_now env (reads w))))]
               (SECRET_KEY env)).
Proof.
  intros w c run. subst run. rewrite checkServerTime_run. fold w c.
  destruct (server_time (outcome (axios env (sent w) c)));
    repeat split;
    unfold c, time_request; now rewrite transmitted_request, get_define_same.
Qed.



(** ** The test double *)

(** X24: The test double hands back the messages it was given last in, first
    out: after [handleCommand(command, data)] the next [getMockedResponse()]
    returns the object [{command, data}] and leaves the messages that were
    there before; on a new or a cleared double it returns [undefined]. The
    object returned has the keys [command] and [data] and no other. *)
Theorem mock_last_in_first_out (this : TelegramBotMock.t)
    (command data : Value) :
  let pushed := TelegramBotMock.handleCommand command data this in
  TelegramBotMock.getMockedResponse pushed
  = (VObj [("command", command); ("data", data)], this)
  /\ TelegramBotMock.getMockedResponse TelegramBotMock.constructor
     = (VUndefined, TelegramBotMock.constructor)
  /\ TelegramBotMock.getMockedResponse (TelegramBotMock.clearMessages pushed)
     = (VUndefined, TelegramBotMock.constructor)
  /\ Object.keys
       (match fst (TelegramBotMock.getMockedResponse pushed) with
        | VObj o => o
        | _ => []
        end)
     = ["command"; "data"].
Proof.
  intros pushed.
  assert (TelegramBotMock.getMockedResponse pushed
          = (VObj [("command", command); ("data", data)], this)) as Hpop.
  { subst pushed. destruct this as [messages].
    unfold TelegramBotMock.getMockedResponse, TelegramBotMock.handleCommand.
    cbn [TelegramBotMock.messages]. rewrite rev_app_distr. simpl.
    now rewrite rev_involutive. }
  rewrite Hpop. repeat split.
Qed.

(** ** What a signed string tells *)




















